(** * GitDiagram++ : the repository-tree walker and the import extractor

    A shallow embedding of the core of [app.py] (class [GitDiagramPlus]):
    [_detect_language], [_build_file_tree], [_count_files],
    [_get_files_by_extension], [_extract_python_imports] and
    [_analyze_dependencies], together with the properties the
    specification states about them; and of [_parse_repo_url],
    [_analyze_commit_history], [_analyze_contributors] and the tally of
    [_create_language_distribution], with further properties of the code.

    Conventions of the embedding.
    - A Python [str] is a Rocq [string]; an [ascii] stands for the code
      point of the same number, so the texts covered are those whose code
      points are below 256.
    - A Python exception is the [Raise] outcome of the [result] monad; a
      bare [except:] catches every exception, [except Exception] every one
      but [KeyboardInterrupt]-like ones.
    - Recursion over remote listings is not structural in Python; the
      embedding threads a fuel counter and answers [None] when it runs
      out, which is never confused with a Python exception. *)

From Stdlib Require Import List String Ascii ZArith Lia Bool Arith.
From Stdlib Require Import Permutation Sorted.
From Equations Require Import Equations.
Import ListNotations.

Local Open Scope string_scope.
Local Open Scope list_scope.

#[local] Set Warnings "-register-all".

(* ===================================================================== *)
(** ** Python strings *)
(* ===================================================================== *)

Module PyStr.

(** [str.lower()] on one code point below 256: [A-Z] and the Latin-1
    capitals U+00C0..U+00DE (U+00D7, the multiplication sign, apart)
    move up by 32; every other code point is unchanged. *)
Definition lower_char (c : ascii) : ascii :=
  let n := nat_of_ascii c in
  if ((65 <=? n) && (n <=? 90))%nat then ascii_of_nat (n + 32)
  else if ((192 <=? n) && (n <=? 222) && negb (n =? 215))%nat
       then ascii_of_nat (n + 32)
  else c.

Fixpoint lower (s : string) : string :=
  match s with
  | EmptyString => EmptyString
  | String c s' => String (lower_char c) (lower s')
  end.

(** [s.split(sep)] for a separator of one character. *)
Fixpoint split (sep : ascii) (s : string) : list string :=
  match s with
  | EmptyString => [EmptyString]
  | String c s' =>
      if Ascii.eqb c sep then EmptyString :: split sep s'
      else match split sep s' with
           | h :: t => String c h :: t
           | [] => [String c EmptyString]
           end
  end.

(** [s.rfind(c)]: the index of the last occurrence of [c], or [-1]. *)
Fixpoint rfind (c : ascii) (s : string) : Z :=
  match s with
  | EmptyString => (-1)%Z
  | String a s' =>
      let r := rfind c s' in
      if (0 <=? r)%Z then (r + 1)%Z
      else if Ascii.eqb a c then 0%Z else (-1)%Z
  end.

(** [s[i:]] for [0 <= i]. *)
Fixpoint drop (i : nat) (s : string) : string :=
  match i, s with
  | O, _ => s
  | S i', String _ s' => drop i' s'
  | S _, EmptyString => EmptyString
  end.

Definition len (s : string) : Z := Z.of_nat (String.length s).

(** [s.endswith(suffix)]. *)
Definition endswith (s suffix : string) : bool :=
  (String.length suffix <=? String.length s)%nat
  && String.eqb (drop (String.length s - String.length suffix) s) suffix.

(** [c in s]. *)
Fixpoint contains (c : ascii) (s : string) : bool :=
  match s with
  | EmptyString => false
  | String a s' => Ascii.eqb a c || contains c s'
  end.

End PyStr.

(* ===================================================================== *)
(** ** [pathlib.PurePosixPath]: [name] and [suffix] *)
(* ===================================================================== *)

Module PyPath.

(** The components kept by the path parser: the pieces between slashes
    that are neither empty nor a single dot. *)
Definition is_part (x : string) : bool :=
  negb (String.eqb x "") && negb (String.eqb x ".").

Definition parts (p : string) : list string :=
  filter is_part (PyStr.split "/" p).

(** [Path(p).name]: the last component, [''] when there is none. *)
Definition name (p : string) : string := last (parts p) "".

(** [Path(p).suffix]:
    [i = name.rfind('.'); name[i:] if 0 < i < len(name) - 1 else '']. *)
Definition suffix (p : string) : string :=
  let nm := name p in
  let i := PyStr.rfind "." nm in
  if ((0 <? i) && (i <? PyStr.len nm - 1))%Z then PyStr.drop (Z.to_nat i) nm
  else "".

End PyPath.

(* ===================================================================== *)
(** ** Python dictionaries, in insertion order *)
(* ===================================================================== *)

Module PyDict.
Section Dict.
Context {V : Type}.

Definition dict := list (string * V).

(** [d.get(k)] *)
Fixpoint lookup (k : string) (d : dict) : option V :=
  match d with
  | [] => None
  | (k', v) :: d' => if String.eqb k k' then Some v else lookup k d'
  end.

(** [d.get(k, default)] *)
Definition get (d : dict) (k : string) (default : V) : V :=
  match lookup k d with Some v => v | None => default end.

(** [d[k] = v]: a key already present keeps its place and takes the
    new value, a new key goes to the end. *)
Fixpoint set (d : dict) (k : string) (v : V) : dict :=
  match d with
  | [] => [(k, v)]
  | (k', v') :: d' =>
      if String.eqb k k' then (k', v) :: d' else (k', v') :: set d' k v
  end.

Definition keys (d : dict) : list string := map fst d.
Definition values (d : dict) : list V := map snd d.
End Dict.
Arguments dict : clear implicits.
End PyDict.

(* ===================================================================== *)
(** ** [_detect_language] *)
(* ===================================================================== *)

Definition extensions : PyDict.dict string :=
  [ (".py", "Python"); (".js", "JavaScript"); (".ts", "TypeScript");
    (".java", "Java"); (".cpp", "C++"); (".c", "C"); (".cs", "C#");
    (".go", "Go"); (".rs", "Rust"); (".php", "PHP"); (".rb", "Ruby");
    (".swift", "Swift"); (".kt", "Kotlin"); (".scala", "Scala");
    (".r", "R"); (".sql", "SQL"); (".sh", "Shell"); (".yml", "YAML");
    (".yaml", "YAML"); (".json", "JSON"); (".xml", "XML");
    (".html", "HTML"); (".css", "CSS"); (".md", "Markdown") ].

Definition _detect_language (filename : string) : string :=
  let ext := PyStr.lower (PyPath.suffix filename) in
  PyDict.get extensions ext "Unknown".

(* ===================================================================== *)
(** ** Exceptions and outcomes *)
(* ===================================================================== *)

(** The exceptions the modelled code can meet.  [GithubException] is any
    failure of the remote API (not found, rate limit, network). *)
Inductive exn : Type :=
| GithubException
| AttributeError
| TypeError
| SyntaxError
| ValueError
| UnicodeDecodeError
| KeyboardInterrupt.

(** [isinstance(e, Exception)]: what [except Exception] catches.  A bare
    [except:] catches every [exn]. *)
Definition is_Exception (e : exn) : bool :=
  match e with
  | KeyboardInterrupt => false
  | _ => true
  end.

Inductive result (A : Type) : Type :=
| Ret (a : A)
| Raise (e : exn).
Arguments Ret {A} a.
Arguments Raise {A} e.

(** A computation that needs fuel: [None] is "fuel exhausted". *)
Definition M (A : Type) : Type := option (result A).

Definition ret {A} (a : A) : M A := Some (Ret a).
Definition raise {A} (e : exn) : M A := Some (Raise e).
Definition lift {A} (r : result A) : M A := Some r.

Definition bind {A B} (m : M A) (k : A -> M B) : M B :=
  match m with
  | None => None
  | Some (Raise e) => Some (Raise e)
  | Some (Ret a) => k a
  end.

(** [try: body / except: handler] with a bare [except]. *)
Definition try_except {A} (body : M A) (handler : exn -> M A) : M A :=
  match body with
  | Some (Raise e) => handler e
  | other => other
  end.

(** [try: body / except Exception: handler]. *)
Definition try_except_Exception {A} (body : M A) (handler : exn -> M A) : M A :=
  match body with
  | Some (Raise e) => if is_Exception e then handler e else Some (Raise e)
  | other => other
  end.

Declare Scope py_scope.
Delimit Scope py_scope with py.
Notation "x <- m ;; k" := (bind m (fun x => k))
  (at level 61, m at next level, right associativity) : py_scope.

(** [for x in xs: s = body(s, x)], stopping at the first exception. *)
Fixpoint for_each {S X : Type} (body : S -> X -> M S) (xs : list X) (s : S)
  : M S :=
  match xs with
  | [] => ret s
  | x :: xs' => bind (body s x) (for_each body xs')
  end.

(* ===================================================================== *)
(** ** The remote repository *)
(* ===================================================================== *)

(** A [ContentFile] as the code reads it: an attribute that the object
    lacks is [None], and reading it raises [AttributeError]. *)
Record ContentFile : Type := mkContentFile {
  cf_type : option string;
  cf_name : option string;
  cf_path : option string;
  cf_size : option Z;
  cf_content : option string
}.

Definition attr {A} (a : option A) : result A :=
  match a with
  | Some v => Ret v
  | None => Raise AttributeError
  end.

(** What [repo.get_contents(path)] answers: the list of the entries of a
    directory, or the single object of a file. *)
Inductive Contents : Type :=
| Listing (entries : list ContentFile)
| Single (file : ContentFile).

(** [repo.get_contents] *)
Definition Repo : Type := string -> result Contents.

(* ===================================================================== *)
(** ** [_build_file_tree] and [_count_files] *)
(* ===================================================================== *)

(** The values of the tree dictionary: [{'type': 'dir', 'path', 'children'}]
    and [{'type': 'file', 'path', 'size', 'language'}]. *)
Inductive node : Type :=
| DirNode (path : string) (children : list (string * node))
| FileNode (path : string) (size : Z) (language : string).

Definition Tree : Type := PyDict.dict node.

Section Build.
Local Open Scope py_scope.
Variable repo : Repo.

(** The body of the loop of [_build_file_tree] for one entry; [rec] is
    the recursive call on a listing. *)
Definition build_entry (rec : Contents -> M Tree) (tree : Tree)
           (content : ContentFile) : M Tree :=
  ty <- lift (attr (cf_type content)) ;;
  if String.eqb ty "dir" then
    try_except
      (p <- lift (attr (cf_path content)) ;;
       subcontents <- lift (repo p) ;;
       p' <- lift (attr (cf_path content)) ;;
       children <- rec subcontents ;;
       name <- lift (attr (cf_name content)) ;;
       ret (PyDict.set tree name (DirNode p' children)))
      (fun _ =>
         p <- lift (attr (cf_path content)) ;;
         name <- lift (attr (cf_name content)) ;;
         ret (PyDict.set tree name (DirNode p [])))
  else
    p <- lift (attr (cf_path content)) ;;
    sz <- lift (attr (cf_size content)) ;;
    nm <- lift (attr (cf_name content)) ;;
    name <- lift (attr (cf_name content)) ;;
    ret (PyDict.set tree name (FileNode p sz (_detect_language nm))).

(** [for content in contents]: a single [ContentFile] is not iterable. *)
Definition iterate (contents : Contents) : M (list ContentFile) :=
  match contents with
  | Listing entries => ret entries
  | Single _ => raise TypeError
  end.

Fixpoint _build_file_tree (fuel : nat) (contents : Contents) : M Tree :=
  match fuel with
  | O => None
  | S fuel' =>
      entries <- iterate contents ;;
      for_each (build_entry (_build_file_tree fuel')) entries []
  end.

(** [_analyze_file_structure]: the new value of [self.file_structure],
    given its value before the call (it is [{}] after [__init__]).  The
    handler is [except Exception]: it prints a warning and leaves the
    attribute as it was. *)
Definition _analyze_file_structure (fuel : nat) (file_structure : Tree)
  : M Tree :=
  try_except_Exception
    (contents <- lift (repo "") ;;
     _build_file_tree fuel contents)
    (fun _ => ret file_structure).
End Build.

(** [_count_files]: [count_data] is the contribution of one value of the
    dictionary, the inner loop is the recursive call on its children. *)
Fixpoint count_data (data : node) : Z :=
  match data with
  | FileNode _ _ _ => 1
  | DirNode _ children =>
      (fix items (l : list (string * node)) (count : Z) : Z :=
         match l with
         | [] => count
         | (_, d) :: l' => items l' (count + count_data d)
         end) children 0
  end%Z.

Definition _count_files (structure : Tree) : Z :=
  fold_left (fun count item => (count + count_data (snd item))%Z) structure 0%Z.

(* ===================================================================== *)
(** ** [_get_files_by_extension] *)
(* ===================================================================== *)

(** [search_contents] appends to the list [files] of the enclosing call,
    so what it has appended stays when it raises: a run answers the list
    and how it ended. *)
Definition Search : Type := list string -> option (list string * result unit).

Fixpoint search_each {X : Type}
         (body : list string -> X -> option (list string * result unit))
         (xs : list X) : Search :=
  fun files =>
    match xs with
    | [] => Some (files, Ret tt)
    | x :: xs' =>
        match body files x with
        | None => None
        | Some (files', Raise e) => Some (files', Raise e)
        | Some (files', Ret _) => search_each body xs' files'
        end
    end.

Section Search.
Variable repo : Repo.
Variable extension : string.

(** [content.type == "file" and content.name.endswith(extension)] *)
Definition is_wanted_file (content : ContentFile) : result bool :=
  match attr (cf_type content) with
  | Raise e => Raise e
  | Ret ty =>
      if String.eqb ty "file" then
        match attr (cf_name content) with
        | Raise e => Raise e
        | Ret name => Ret (PyStr.endswith name extension)
        end
      else Ret false
  end.

(** The body of the loop of [search_contents] for one entry. *)
Definition search_entry (rec : Contents -> Search) (files : list string)
           (content : ContentFile) : option (list string * result unit) :=
  match is_wanted_file content with
  | Raise e => Some (files, Raise e)
  | Ret true =>
      match attr (cf_path content) with
      | Raise e => Some (files, Raise e)
      | Ret p => Some (files ++ [p], Ret tt)
      end
  | Ret false =>
      match attr (cf_type content) with
      | Raise e => Some (files, Raise e)
      | Ret ty =>
          if String.eqb ty "dir" then
            (* try: ... except: continue *)
            match attr (cf_path content) with
            | Raise _ => Some (files, Ret tt)
            | Ret p =>
                match repo p with
                | Raise _ => Some (files, Ret tt)
                | Ret subcontents =>
                    match rec subcontents files with
                    | None => None
                    | Some (files', _) => Some (files', Ret tt)
                    end
                end
            end
          else Some (files, Ret tt)
      end
  end.

Fixpoint search_contents (fuel : nat) (contents : Contents) : Search :=
  fun files =>
    match fuel with
    | O => None
    | S fuel' =>
        match contents with
        | Single _ => Some (files, Raise TypeError)
        | Listing entries =>
            search_each (search_entry (search_contents fuel')) entries files
        end
    end.

Definition _get_files_by_extension (fuel : nat) : option (list string) :=
  match repo "" with
  | Raise _ => Some []
  | Ret initial_contents =>
      match search_contents fuel initial_contents [] with
      | None => None
      | Some (files, _) => Some files
      end
  end.
End Search.

(* ===================================================================== *)
(** ** Regular expressions of the fallback scan *)
(* ===================================================================== *)

Module Re.

(** The fragment of [re] the two patterns use: a literal, and a greedy
    repetition of a character class (at least [min] times), which may be
    a capturing group. *)
Inductive item : Type :=
| Lit (s : string)
| Rep (min : nat) (cls : ascii -> bool) (group : bool).

Definition pattern : Type := list item.

(** [\s] on code points below 256: TAB..CR, FS..US, space, NEL, NBSP. *)
Definition is_space (c : ascii) : bool :=
  let n := nat_of_ascii c in
  ((9 <=? n) && (n <=? 13) || (28 <=? n) && (n <=? 32)
   || (n =? 133) || (n =? 160))%nat.

(** [[^\s#]] *)
Definition not_space_hash (c : ascii) : bool :=
  negb (is_space c) && negb (Ascii.eqb c "#").

(** The length of the longest prefix of [s] inside the class. *)
Fixpoint run (cls : ascii -> bool) (s : string) : nat :=
  match s with
  | String c s' => if cls c then S (run cls s') else O
  | EmptyString => O
  end.

Fixpoint take (n : nat) (s : string) : string :=
  match n, s with
  | S n', String c s' => String c (take n' s')
  | _, _ => EmptyString
  end.

(** A greedy repetition that has taken [j] characters of [s]: go on with
    the rest of the pattern ([continue]) after them, and when that fails
    give one character back, down to [min] characters. *)
Fixpoint give_back (continue : string -> option (list string))
         (min : nat) (group : bool) (s : string) (j : nat)
  : option (list string) :=
  if (j <? min)%nat then None
  else match continue (PyStr.drop j s) with
       | Some groups => Some (if group then take j s :: groups else groups)
       | None =>
           match j with
           | O => None
           | S j' => give_back continue min group s j'
           end
       end.

(** Backtracking match of the items at the start of [s]; the answer is
    the list of the captured groups.  A repetition first takes all it
    can. *)
Fixpoint match_items (items : pattern) (s : string) : option (list string) :=
  match items with
  | [] => Some []
  | Lit l :: rest =>
      if String.prefix l s
      then match_items rest (PyStr.drop (String.length l) s)
      else None
  | Rep min cls group :: rest =>
      give_back (match_items rest) min group s (run cls s)
  end.

(** [re.match(pattern, line)] followed by [match.group(1)]. *)
Definition match_group1 (p : pattern) (line : string) : option string :=
  match match_items p line with
  | Some (g :: _) => Some g
  | _ => None
  end.

End Re.

(* ===================================================================== *)
(** ** [_extract_python_imports] *)
(* ===================================================================== *)

Record Dependency : Type := mkDependency {
  from_file : string;
  to_module : string;
  import_type : string
}.

(** The two kinds of the specification are the two values of
    [import_type]. *)
Definition Direct : string := "import".
Definition FromImport : string := "from_import".

(** *** The syntax tree of [ast.parse] *)

Record alias : Type := mkAlias {
  alias_name : string;
  alias_asname : option string
}.

(** [Import] and [ImportFrom] are the two node classes the code tests
    for; [Alias] is the child node of both; [Node] is a node of any other
    class with its child nodes in the order of [ast.iter_child_nodes]. *)
Inductive ast : Type :=
| Import (names : list alias)
| ImportFrom (module : option string) (names : list alias) (level : Z)
| Alias (a : alias)
| Node (children : list ast).

Definition iter_child_nodes (n : ast) : list ast :=
  match n with
  | Import names => map Alias names
  | ImportFrom _ names _ => map Alias names
  | Alias _ => []
  | Node children => children
  end.

Fixpoint ast_size (n : ast) : nat :=
  match n with
  | Import names => S (List.length names)
  | ImportFrom _ names _ => S (List.length names)
  | Alias _ => 1
  | Node children =>
      S ((fix sizes (l : list ast) : nat :=
            match l with
            | [] => 0
            | x :: l' => ast_size x + sizes l'
            end) children)
  end.

Definition forest_size (l : list ast) : nat := list_sum (map ast_size l).

(** [ast.walk]: [todo = deque([node])], then pop from the left, extend on
    the right with the children, and yield the popped node. *)
Equations? walk_queue (todo : list ast) : list ast
  by wf (forest_size todo) lt :=
  walk_queue [] := [];
  walk_queue (n :: todo) := n :: walk_queue (todo ++ iter_child_nodes n).
Proof.
  unfold forest_size. rewrite map_app, list_sum_app. simpl.
  assert (E : ast_size n = S (list_sum (map ast_size (iter_child_nodes n)))).
  { destruct n as [names | m names lv | a | children]; simpl; f_equal.
    - induction names; simpl; auto.
    - induction names; simpl; auto.
    - induction children; simpl; auto. }
  lia.
Qed.

Definition walk (tree : ast) : list ast := walk_queue [tree].

(** The body of the loop over [ast.walk(tree)] for one node: what it
    appends to [dependencies]. *)
Definition node_dependencies (file_path : string) (n : ast)
  : list Dependency :=
  match n with
  | Import names =>
      map (fun a => mkDependency file_path (alias_name a) "import") names
  | ImportFrom (Some m) _ _ =>
      (* [if node.module:] an empty string is false *)
      if String.eqb m "" then []
      else [mkDependency file_path m "from_import"]
  | _ => []
  end.

(** *** The fallback *)

(** [^\s*import\s+([^\s#]+)] *)
Definition import_line_pattern : Re.pattern :=
  [ Re.Rep 0 Re.is_space false; Re.Lit "import"; Re.Rep 1 Re.is_space false;
    Re.Rep 1 Re.not_space_hash true ].

(** [^\s*from\s+([^\s#]+)\s+import] *)
Definition from_line_pattern : Re.pattern :=
  [ Re.Rep 0 Re.is_space false; Re.Lit "from"; Re.Rep 1 Re.is_space false;
    Re.Rep 1 Re.not_space_hash true; Re.Rep 1 Re.is_space false;
    Re.Lit "import" ].

Definition import_patterns : list Re.pattern :=
  [ import_line_pattern; from_line_pattern ].

Definition newline : ascii := ascii_of_nat 10.

(** What one line appends: the inner loop over the patterns has no
    [break], and every match is recorded with [import_type='import']. *)
Definition line_dependencies (file_path : string) (line : string)
  : list Dependency :=
  flat_map (fun pattern =>
              match Re.match_group1 pattern line with
              | Some g => [mkDependency file_path g "import"]
              | None => []
              end) import_patterns.

Definition fallback (content file_path : string) : list Dependency :=
  flat_map (line_dependencies file_path) (PyStr.split newline content).

Definition bindR {A B} (r : result A) (k : A -> result B) : result B :=
  match r with
  | Ret a => k a
  | Raise e => Raise e
  end.

(** A bare [except:] around a body that needs no fuel. *)
Definition try_exceptR {A} (body : result A) (handler : exn -> result A)
  : result A :=
  match body with
  | Ret a => Ret a
  | Raise e => handler e
  end.

Section Extract.
(** [ast.parse], the parser of the Python library. *)
Variable ast_parse : string -> result ast.

(** The structured strategy: the body of the [try]. *)
Definition primary (content file_path : string) : result (list Dependency) :=
  bindR (ast_parse content)
        (fun tree => Ret (flat_map (node_dependencies file_path) (walk tree))).

Definition _extract_python_imports (content file_path : string)
  : result (list Dependency) :=
  try_exceptR (primary content file_path)
              (fun _ => Ret (fallback content file_path)).
End Extract.

(* ===================================================================== *)
(** ** [_analyze_dependencies] *)
(* ===================================================================== *)

(** [self.dependencies], and two logs of what the run did: the paths whose
    content went through the decoder, in order, and the paths a warning
    was printed for. *)
Record Analysis : Type := mkAnalysis {
  dependencies : list Dependency;
  decoded : list string;
  warned : list string
}.

Section Analyze.
Variable repo : Repo.
Variable ast_parse : string -> result ast.
(** [base64.b64decode(c).decode('utf-8')] *)
Variable b64decode_utf8 : string -> result string.

(** [file_content.size] and [file_content.content]: a list of entries has
    neither attribute. *)
Definition size_of (file_content : Contents) : result Z :=
  match file_content with
  | Single f => attr (cf_size f)
  | Listing _ => Raise AttributeError
  end.

Definition content_of (file_content : Contents) : result string :=
  match file_content with
  | Single f => attr (cf_content f)
  | Listing _ => Raise AttributeError
  end.

(** [except Exception as e: print(...)] of the loop body. *)
Definition warn (file_path : string) (st : Analysis) (e : exn)
  : Analysis * result unit :=
  if is_Exception e
  then (mkAnalysis (dependencies st) (decoded st) (warned st ++ [file_path]),
        Ret tt)
  else (st, Raise e).

(** The body of the loop over [python_files]. *)
Definition analyze_file (st : Analysis) (file_path : string)
  : Analysis * result unit :=
  match repo file_path with
  | Raise e => warn file_path st e
  | Ret file_content =>
      match size_of file_content with
      | Raise e => warn file_path st e
      | Ret size =>
          if (size >? 1000000)%Z then (st, Ret tt)   (* continue *)
          else
            match content_of file_content with
            | Raise e => warn file_path st e
            | Ret c =>
                let st1 := mkAnalysis (dependencies st)
                                      (decoded st ++ [file_path])
                                      (warned st) in
                match b64decode_utf8 c with
                | Raise e => warn file_path st1 e
                | Ret content =>
                    match _extract_python_imports ast_parse content file_path
                    with
                    | Raise e => warn file_path st1 e
                    | Ret deps =>
                        (mkAnalysis (dependencies st1 ++ deps)
                                    (decoded st1) (warned st1), Ret tt)
                    end
                end
            end
      end
  end.

Fixpoint analyze_files (python_files : list string) (st : Analysis)
  : Analysis * result unit :=
  match python_files with
  | [] => (st, Ret tt)
  | file_path :: rest =>
      match analyze_file st file_path with
      | (st', Ret _) => analyze_files rest st'
      | (st', Raise e) => (st', Raise e)
      end
  end.

(** [_analyze_dependencies]: the outer handler is [except Exception] too,
    so only a [KeyboardInterrupt]-like exception leaves the method. *)
Definition _analyze_dependencies (fuel : nat)
  : option (Analysis * result unit) :=
  let st0 := mkAnalysis [] [] [] in
  match _get_files_by_extension repo ".py" fuel with
  | None => None
  | Some python_files =>
      match analyze_files python_files st0 with
      | (st, Ret _) => Some (st, Ret tt)
      | (st, Raise e) =>
          if is_Exception e then Some (st, Ret tt) else Some (st, Raise e)
      end
  end.
End Analyze.

(* ===================================================================== *)
(** ** Vocabulary of the specification *)
(* ===================================================================== *)

(** A listing entry of the shape [{name, type, size, path}]: the four
    attributes are there. *)
Definition well_formed (c : ContentFile) : bool :=
  match cf_type c, cf_name c, cf_path c, cf_size c with
  | Some _, Some _, Some _, Some _ => true
  | _, _, _, _ => false
  end.

Definition is_dir (c : ContentFile) : bool :=
  match cf_type c with
  | Some ty => String.eqb ty "dir"
  | None => false
  end.

Definition is_file (c : ContentFile) : bool :=
  match cf_type c with
  | Some ty => String.eqb ty "file"
  | None => false
  end.

Definition name_of (c : ContentFile) : string :=
  match cf_name c with Some n => n | None => "" end.
Definition path_of (c : ContentFile) : string :=
  match cf_path c with Some p => p | None => "" end.
Definition reported_size (c : ContentFile) : Z :=
  match cf_size c with Some z => z | None => 0%Z end.

(** The entries of a listing are well formed and their names differ. *)
Definition listing_ok (l : list ContentFile) : Prop :=
  Forall (fun c => well_formed c = true) l /\ NoDup (map name_of l).

(** The listings a walk from [root] goes through: [root] itself and the
    successful listings of the directory entries of such a listing. *)
Inductive Listed (repo : Repo) (root : list ContentFile)
  : list ContentFile -> Prop :=
| Listed_root : Listed repo root root
| Listed_sub (l : list ContentFile) (d : ContentFile) (sub : list ContentFile) :
    Listed repo root l -> In d l -> is_dir d = true ->
    repo (path_of d) = Ret (Listing sub) ->
    Listed repo root sub.

(** [Reach repo l names c]: the entry [c] is met by following the names
    [names] from the listing [l] through listings that succeeded. *)
Inductive Reach (repo : Repo)
  : list ContentFile -> list string -> ContentFile -> Prop :=
| Reach_here (l : list ContentFile) (c : ContentFile) :
    In c l -> Reach repo l [name_of c] c
| Reach_below (l : list ContentFile) (d : ContentFile)
              (sub : list ContentFile) (names : list string)
              (c : ContentFile) :
    In d l -> is_dir d = true ->
    repo (path_of d) = Ret (Listing sub) ->
    Reach repo sub names c ->
    Reach repo l (name_of d :: names) c.

(** The remote tree below [contents] is at most [depth] listings deep. *)
Inductive Bounded (repo : Repo) : nat -> Contents -> Prop :=
| Bounded_single (depth : nat) (f : ContentFile) :
    Bounded repo (S depth) (Single f)
| Bounded_listing (depth : nat) (l : list ContentFile) :
    (forall d sub, In d l -> is_dir d = true ->
                   repo (path_of d) = Ret sub -> Bounded repo depth sub) ->
    Bounded repo (S depth) (Listing l).


(** The node that [_build_file_tree] records for a well-formed entry, given
    the recursive call [rec]: a directory whose listing or subtree raises
    gets no children. *)
Definition entry_node (repo : Repo) (rec : Contents -> M Tree)
           (c : ContentFile) : node :=
  if is_dir c then
    DirNode (path_of c)
            match repo (path_of c) with
            | Ret sub => match rec sub with
                         | Some (Ret children) => children
                         | _ => []
                         end
            | Raise _ => []
            end
  else FileNode (path_of c) (reported_size c) (_detect_language (name_of c)).


(** The attributes that the loop of [_build_file_tree] reads are there:
    the type, the name, the path and, unless the entry is a directory,
    the size. *)
Definition readable (c : ContentFile) : bool :=
  match cf_type c, cf_name c, cf_path c with
  | Some ty, Some _, Some _ =>
      String.eqb ty "dir"
      || match cf_size c with Some _ => true | None => false end
  | _, _, _ => false
  end.

(** One round of the loop of [_build_file_tree] on a well-formed entry. *)
Definition record_entry (repo : Repo) (rec : Contents -> M Tree) (tree : Tree)
           (c : ContentFile) : Tree :=
  PyDict.set tree (name_of c) (entry_node repo rec c).

(** The [File] node of an entry that is not a directory. *)
Definition file_node (c : ContentFile) : node :=
  FileNode (path_of c) (reported_size c) (_detect_language (name_of c)).

(** Every item of a tree, at any depth, a directory before its children. *)
Fixpoint node_items (name : string) (data : node) : list (string * node) :=
  (name, data)
    :: match data with
       | FileNode _ _ _ => []
       | DirNode _ children =>
           (fix items (l : list (string * node)) : list (string * node) :=
              match l with
              | [] => []
              | (n, d) :: l' => node_items n d ++ items l'
              end) children
       end.

Definition tree_items (t : Tree) : list (string * node) :=
  flat_map (fun item => node_items (fst item) (snd item)) t.

(** The paths of the [File] nodes whose name passes [keep], depth first
    and in pre-order. *)
Fixpoint node_files (keep : string -> bool) (name : string) (data : node)
  : list string :=
  match data with
  | FileNode p _ _ => if keep name then [p] else []
  | DirNode _ children =>
      (fix items (l : list (string * node)) : list string :=
         match l with
         | [] => []
         | (n, d) :: l' => node_files keep n d ++ items l'
         end) children
  end.

Definition tree_files (keep : string -> bool) (t : Tree) : list string :=
  flat_map (fun item => node_files keep (fst item) (snd item)) t.

(** "The name ends in [ext]", as the code tests it and as the
    specification words it (ignoring case). *)
Definition ends_in (ext name : string) : bool := PyStr.endswith name ext.
Definition ends_in_ignoring_case (ext name : string) : bool :=
  PyStr.endswith (PyStr.lower name) (PyStr.lower ext).

(** Every node of a syntax tree, the node itself first. *)
Fixpoint subnodes (n : ast) : list ast :=
  n :: match n with
       | Import names => map Alias names
       | ImportFrom _ names _ => map Alias names
       | Alias _ => []
       | Node children =>
           (fix all (l : list ast) : list ast :=
              match l with
              | [] => []
              | x :: l' => subnodes x ++ all l'
              end) children
       end.

(** The file at [path] reports a size that the dependency walk accepts. *)
Definition small_enough (repo : Repo) (path : string) : Prop :=
  exists file_content size,
    repo path = Ret file_content
    /\ match file_content with
       | Single f => cf_size f = Some size
       | Listing _ => False
       end
    /\ (size <= 1000000)%Z.

(** Every edge and every decoded text belongs to a file that reported a
    size within the threshold. *)
Definition only_small (repo : Repo) (st : Analysis) : Prop :=
  (forall d, In d (dependencies st) -> small_enough repo (from_file d))
  /\ (forall p, In p (decoded st) -> small_enough repo p).

(** The counts that the specification states about the structured
    strategy. *)
Definition has_type (kind : string) (d : Dependency) : bool :=
  String.eqb (import_type d) kind.

Definition imported_names (n : ast) : nat :=
  match n with
  | Import names => List.length names
  | _ => 0
  end.

Definition names_module (n : ast) : bool :=
  match n with
  | ImportFrom (Some m) _ _ => negb (String.eqb m "")
  | _ => false
  end.

(** Every entry of the listing is a file or a directory. *)
Definition files_and_dirs (l : list ContentFile) : Prop :=
  Forall (fun c => is_file c || is_dir c = true) l.

(** The path of an item of the tree if it is a [File] node whose name
    passes [keep]. *)
Definition wanted_path (keep : string -> bool) (item : string * node)
  : list string :=
  match snd item with
  | FileNode p _ _ => if keep (fst item) then [p] else []
  | DirNode _ _ => []
  end.

(* ===================================================================== *)
(** ** Sample repositories and texts *)
(* ===================================================================== *)

Definition file_entry (name path : string) (size : Z) : ContentFile :=
  mkContentFile (Some "file") (Some name) (Some path) (Some size) None.

Definition dir_entry (name path : string) : ContentFile :=
  mkContentFile (Some "dir") (Some name) (Some path) (Some 0%Z) None.

(** An entry that lacks every attribute. *)
Definition shapeless_entry : ContentFile :=
  mkContentFile None None None None None.

(** A repository whose every request fails. *)
Definition no_repo : Repo := fun _ => Raise GithubException.

Definition two_files : list ContentFile :=
  [ file_entry "a.py" "a.py" 10; file_entry "README" "README" 7 ].

Definition same_name_twice : list ContentFile :=
  [ file_entry "a.py" "a.py" 10; file_entry "a.py" "a.py" 20 ].

(** A repository with a directory that lists, one whose listing fails and
    a file at the top. *)
Definition src_listing : list ContentFile :=
  [ file_entry "a.py" "src/a.py" 10; file_entry "B.PY" "src/B.PY" 20 ].

Definition sample_root : list ContentFile :=
  [ dir_entry "src" "src"; file_entry "README" "README" 7;
    dir_entry "docs" "docs" ].

Definition sample_repo : Repo :=
  fun path =>
    if String.eqb path "" then Ret (Listing sample_root)
    else if String.eqb path "src" then Ret (Listing src_listing)
    else Raise GithubException.

(** A repository whose directory [d] lists a good file and a shapeless
    entry, next to a directory whose listing fails. *)
Definition broken_listing : list ContentFile :=
  [ file_entry "f.py" "d/f.py" 1; shapeless_entry ].

Definition broken_root : list ContentFile :=
  [ dir_entry "d" "d"; dir_entry "gone" "gone" ].

Definition broken_repo : Repo :=
  fun path =>
    if String.eqb path "" then Ret (Listing broken_root)
    else if String.eqb path "d" then Ret (Listing broken_listing)
    else Raise GithubException.

(** A repository with one file above the size threshold and one below;
    their contents are kept as plain text. *)
Definition big_py : ContentFile :=
  mkContentFile (Some "file") (Some "big.py") (Some "big.py")
                (Some 2000000%Z) (Some "import os").

Definition small_py : ContentFile :=
  mkContentFile (Some "file") (Some "small.py") (Some "small.py")
                (Some 10%Z) (Some "import sys").

Definition sized_repo : Repo :=
  fun path =>
    if String.eqb path "" then Ret (Listing [big_py; small_py])
    else if String.eqb path "big.py" then Ret (Single big_py)
    else if String.eqb path "small.py" then Ret (Single small_py)
    else Raise GithubException.

(** A parser that rejects every text, and a decoder that hands the stored
    text back. *)
Definition reject_all : string -> result ast := fun _ => Raise SyntaxError.
Definition plain_text : string -> result string := fun c => Ret c.

(** Source texts.  [two_imports] parses; its syntax tree is
    [two_imports_tree].  The other two end in an unclosed parenthesis,
    which no parser accepts. *)
Definition two_imports : string :=
  "import os" ++ String newline "from collections import defaultdict".

Definition two_imports_tree : ast :=
  Node [ Import [mkAlias "os" None];
         ImportFrom (Some "collections") [mkAlias "defaultdict" None] 0 ].

Definition broken_source : string :=
  "import sys" ++ String newline "x = (".

Definition broken_from_source : string :=
  "from os import path" ++ String newline "x = (".

(** A parser that knows [two_imports] and the empty text and rejects
    everything else. *)
Definition tiny_parser : string -> result ast :=
  fun content =>
    if String.eqb content two_imports then Ret two_imports_tree
    else if String.eqb content "" then Ret (Node [])
    else Raise SyntaxError.

(** A parser that fails on every text with an error that is not the
    failure to parse, and a text with an import line followed by a null
    character. *)
Definition crashing_parser : string -> result ast := fun _ => Raise ValueError.

Definition import_then_null : string :=
  "import os" ++ String newline (String Ascii.zero "").

(* ===================================================================== *)
(** ** Further vocabulary: properties beyond the specification *)
(* ===================================================================== *)

(** A tree all of whose dictionaries, at every depth, have pairwise
    distinct keys. *)
Inductive Mapping : Tree -> Prop :=
| Mapping_intro (t : Tree) :
    NoDup (PyDict.keys t) ->
    (forall n p children, In (n, DirNode p children) t -> Mapping children) ->
    Mapping t.

(** The last entry of a listing that bears the name [n]. *)
Fixpoint last_named (n : string) (entries : list ContentFile)
  : option ContentFile :=
  match entries with
  | [] => None
  | c :: rest =>
      match last_named n rest with
      | Some c' => Some c'
      | None => if String.eqb (name_of c) n then Some c else None
      end
  end.

Definition is_file_item (item : string * node) : bool :=
  match snd item with
  | FileNode _ _ _ => true
  | DirNode _ _ => false
  end.

(** [p] is the path of an entry of type [file], with a name that ends in
    [extension], in a listing of the walk from [root]. *)
Definition found_in_walk (repo : Repo) (extension : string)
           (root : list ContentFile) (p : string) : Prop :=
  exists l c n,
    Listed repo root l /\ In c l
    /\ cf_type c = Some "file" /\ cf_name c = Some n
    /\ PyStr.endswith n extension = true /\ cf_path c = Some p.

(** Every character of [s] is in the class. *)
Fixpoint str_all (cls : ascii -> bool) (s : string) : bool :=
  match s with
  | EmptyString => true
  | String c s' => cls c && str_all cls s'
  end.

(** [s.count(c)] for one character. *)
Fixpoint str_count (c : ascii) (s : string) : nat :=
  match s with
  | EmptyString => 0
  | String a s' => (if Ascii.eqb a c then 1 else 0) + str_count c s'
  end.

(** [s] is empty or starts outside the class. *)
Definition stops (cls : ascii -> bool) (s : string) : bool :=
  match s with
  | EmptyString => true
  | String c _ => negb (cls c)
  end.

(** Every capturing group of the pattern takes at least one character and
    only characters of [cls]. *)
Definition groups_in (cls : ascii -> bool) (p : Re.pattern) : Prop :=
  Forall (fun it => match it with
                    | Re.Rep min c true => 1 <= min /\ c = cls
                    | _ => True
                    end) p.

(* ===================================================================== *)
(** ** [_analyze_commit_history] *)
(* ===================================================================== *)

(** [d[k] += 1] on a [defaultdict(int)]. *)
Definition incr (d : PyDict.dict Z) (k : string) : PyDict.dict Z :=
  PyDict.set d k (PyDict.get d k 0 + 1)%Z.

(** [d[k].append(x)] on a [defaultdict(list)]. *)
Definition append_to (d : PyDict.dict (list string)) (k x : string)
  : PyDict.dict (list string) :=
  PyDict.set d k (PyDict.get d k [] ++ [x]).

(** [s.add(x)] on a set, kept as a list without repetition. *)
Definition set_add (s : list string) (x : string) : list string :=
  if existsb (String.eqb x) s then s else s ++ [x].

(** What the code reads of a commit: [commit.author.login], with [None]
    when [commit.author] is [None]; the day of the commit,
    [commit.commit.author.date.strftime('%Y-%m-%d')]; the file names of
    [commit.files].  Each read may raise. *)
Record Commit : Type := mkCommit {
  commit_author : result (option string);
  commit_date : result string;
  commit_files : result (list string)
}.

(** [self.commit_data] *)
Record CommitData : Type := mkCommitData {
  total_commits : Z;
  file_changes : PyDict.dict Z;
  commit_frequency : PyDict.dict Z;
  authors : list string
}.

(** [self.commit_data] and [self.contributor_data] *)
Record History : Type := mkHistory {
  commit_data : CommitData;
  contributor_data : PyDict.dict (list string)
}.

(** [commit.author.login if commit.author else 'Unknown'] *)
Definition author_name (commit : Commit) : result string :=
  match commit_author commit with
  | Ret (Some login) => Ret login
  | Ret None => Ret "Unknown"
  | Raise e => Raise e
  end.

(** [except Exception as e: continue] *)
Definition skip_commit (h : History) (e : exn) : History * result unit :=
  if is_Exception e then (h, Ret tt) else (h, Raise e).

(** One round of the loop over [commit.files[:10]]. *)
Definition record_file (commit : Commit) (h : History) (filename : string)
  : History * result unit :=
  let cd := commit_data h in
  let h1 := mkHistory (mkCommitData (total_commits cd)
                                    (incr (file_changes cd) filename)
                                    (commit_frequency cd) (authors cd))
                      (contributor_data h) in
  match author_name commit with
  | Raise e => (h1, Raise e)
  | Ret author =>
      (mkHistory (commit_data h1)
                 (append_to (contributor_data h1) author filename), Ret tt)
  end.

Fixpoint record_files (commit : Commit) (files : list string) (h : History)
  : History * result unit :=
  match files with
  | [] => (h, Ret tt)
  | filename :: rest =>
      match record_file commit h filename with
      | (h', Ret _) => record_files commit rest h'
      | (h', Raise e) => (h', Raise e)
      end
  end.

(** The body of the loop over [commits[:100]]: what is done before an
    exception stays done. *)
Definition analyze_commit (h : History) (commit : Commit)
  : History * result unit :=
  match author_name commit with
  | Raise e => skip_commit h e
  | Ret author =>
      let cd := commit_data h in
      let h1 := mkHistory (mkCommitData (total_commits cd) (file_changes cd)
                                        (commit_frequency cd)
                                        (set_add (authors cd) author))
                          (contributor_data h) in
      match commit_date commit with
      | Raise e => skip_commit h1 e
      | Ret date_key =>
          let cd1 := commit_data h1 in
          let h2 := mkHistory (mkCommitData (total_commits cd1)
                                            (file_changes cd1)
                                            (incr (commit_frequency cd1)
                                                  date_key)
                                            (authors cd1))
                              (contributor_data h1) in
          match commit_files commit with
          | Raise e => skip_commit h2 e
          | Ret files =>
              match record_files commit (firstn 10 files) h2 with
              | (h3, Ret _) => (h3, Ret tt)
              | (h3, Raise e) => skip_commit h3 e
              end
          end
      end
  end.

Fixpoint analyze_commits (commits : list Commit) (h : History)
  : History * result unit :=
  match commits with
  | [] => (h, Ret tt)
  | commit :: rest =>
      match analyze_commit h commit with
      | (h', Ret _) => analyze_commits rest h'
      | (h', Raise e) => (h', Raise e)
      end
  end.

Definition no_commit_data : CommitData := mkCommitData 0 [] [] [].

(** [_analyze_commit_history]: [get_commits] is the outcome of
    [list(repo.get_commits(since=since))], [h] the state before the
    call. *)
Definition _analyze_commit_history (get_commits : result (list Commit))
           (h : History) : History * result unit :=
  match get_commits with
  | Raise e =>
      if is_Exception e
      then (mkHistory no_commit_data (contributor_data h), Ret tt)
      else (h, Raise e)
  | Ret commits =>
      let h0 := mkHistory (mkCommitData (Z.of_nat (List.length commits))
                                        [] [] [])
                          (contributor_data h) in
      match analyze_commits (firstn 100 commits) h0 with
      | (h', Ret _) => (h', Ret tt)
      | (h', Raise e) =>
          if is_Exception e
          then (mkHistory no_commit_data (contributor_data h'), Ret tt)
          else (h', Raise e)
      end
  end.

(** [sum(d.values())] and the number of file names kept in the lists of a
    dictionary. *)
Definition sum_values (d : PyDict.dict Z) : Z :=
  fold_right Z.add 0%Z (PyDict.values d).

Definition total_length (d : PyDict.dict (list string)) : nat :=
  list_sum (map (fun l => List.length l) (PyDict.values d)).

(** How the counters of [h'] stand against those of [h] after at most [n]
    commits were looked at. *)
Definition within_caps (n : nat) (h h' : History) : Prop :=
  let cd := commit_data h in
  let cd' := commit_data h' in
  total_commits cd' = total_commits cd
  /\ List.length (authors cd') <= List.length (authors cd) + n
  /\ (sum_values (commit_frequency cd)
      <= sum_values (commit_frequency cd')
      <= sum_values (commit_frequency cd) + Z.of_nat n)%Z
  /\ (sum_values (file_changes cd)
      <= sum_values (file_changes cd')
      <= sum_values (file_changes cd)
         + 10 * (sum_values (commit_frequency cd')
                 - sum_values (commit_frequency cd)))%Z
  /\ Z.of_nat (total_length (contributor_data h'))
     = (Z.of_nat (total_length (contributor_data h))
        + (sum_values (file_changes cd') - sum_values (file_changes cd)))%Z.

(** Three commits: one by [ann] that touches twelve files, one without an
    author whose files cannot be read, one whose date cannot be read. *)
Definition twelve_files : list string :=
  [ "f01"; "f02"; "f03"; "f04"; "f05"; "f06";
    "f07"; "f08"; "f09"; "f10"; "f11"; "f12" ].

Definition sample_commits : list Commit :=
  [ mkCommit (Ret (Some "ann")) (Ret "2024-05-01") (Ret twelve_files);
    mkCommit (Ret None) (Ret "2024-05-01") (Raise GithubException);
    mkCommit (Ret (Some "bob")) (Raise AttributeError) (Ret ["g"]) ].

Definition fresh_history : History := mkHistory no_commit_data [].

(* ===================================================================== *)
(** ** [_create_language_distribution]: the data of the chart *)
(* ===================================================================== *)

(** [count_languages]: the nested function adds to the dictionary
    [languages] of the enclosing call. *)
Fixpoint count_languages_node (data : node) (languages : PyDict.dict Z)
  : PyDict.dict Z :=
  match data with
  | FileNode _ _ lang => incr languages lang
  | DirNode _ children =>
      (fix items (l : list (string * node)) (langs : PyDict.dict Z)
         : PyDict.dict Z :=
         match l with
         | [] => langs
         | (_, d) :: l' => items l' (count_languages_node d langs)
         end) children languages
  end.

Definition count_languages (structure : Tree) (languages : PyDict.dict Z)
  : PyDict.dict Z :=
  fold_left (fun langs item => count_languages_node (snd item) langs)
            structure languages.

(** [sorted(items, key=lambda x: x[1], reverse=True)]: the greater count
    first, items of equal count in their original order. *)
Fixpoint insert_desc (x : string * Z) (l : list (string * Z))
  : list (string * Z) :=
  match l with
  | [] => [x]
  | y :: l' => if (snd y <=? snd x)%Z then x :: l else y :: insert_desc x l'
  end.

Definition sorted_by_count_desc (items : list (string * Z))
  : list (string * Z) :=
  fold_right insert_desc [] items.

(** [dict(items)] *)
Definition dict_of_items {V} (items : list (string * V)) : PyDict.dict V :=
  fold_left (fun d kv => PyDict.set d (fst kv) (snd kv)) items [].

Definition not_unknown (kv : string * Z) : bool :=
  negb (String.eqb (fst kv) "Unknown").

(** The dictionary [filtered_langs] whose keys and values become the
    labels and the sizes of the pie chart; [None] when the method returns
    before drawing because no file was counted. *)
Definition pie_slices (file_structure : Tree) : option (PyDict.dict Z) :=
  let languages := count_languages file_structure [] in
  match languages with
  | [] => None
  | _ :: _ =>
      let filtered_langs := filter not_unknown languages in
      if (8 <? List.length filtered_langs)%nat then
        let sorted_langs := sorted_by_count_desc filtered_langs in
        let top_langs := dict_of_items (firstn 7 sorted_langs) in
        let others_count :=
          fold_right Z.add 0%Z (map snd (skipn 7 sorted_langs)) in
        if (others_count >? 0)%Z
        then Some (PyDict.set top_langs "Others" others_count)
        else Some top_langs
      else Some filtered_langs
  end.

(** The [File] items of a tree that carry a given language. *)
Definition has_language (lang : string) (item : string * node) : bool :=
  match snd item with
  | FileNode _ _ l => String.eqb l lang
  | DirNode _ _ => false
  end.

Definition files_in_language (lang : string) (t : Tree) : Z :=
  Z.of_nat (List.length (filter (has_language lang) (tree_items t))).

(** The tree built from [sample_repo]. *)
Definition sample_tree : Tree :=
  [ ("src", DirNode "src" [ ("a.py", FileNode "src/a.py" 10 "Python");
                            ("B.PY", FileNode "src/B.PY" 20 "Python") ]);
    ("README", FileNode "README" 7 "Unknown");
    ("docs", DirNode "docs" []) ].

(* ===================================================================== *)
(** ** [_parse_repo_url] *)
(* ===================================================================== *)

Module UrlRe.

(** The fragment of [re] that the three patterns of [_parse_repo_url]
    use: a literal, a repetition of a character class (greedy [+] or lazy
    [+?], possibly a capturing group), an optional literal [(?:s)?] and
    the anchor [$]. *)
Inductive token : Type :=
| Lit (s : string)
| Many (min : nat) (cls : ascii -> bool) (greedy : bool) (group : bool)
| Opt (s : string)
| End.

Definition pattern : Type := list token.

(** [[^/]] *)
Definition not_slash (c : ascii) : bool := negb (Ascii.eqb c "/").

(** A lazy repetition that has taken [j] characters and may take [more]:
    go on with the rest of the pattern, and when that fails take one more
    character. *)
Fixpoint take_more (continue : string -> option (list string))
         (group : bool) (s : string) (j more : nat) : option (list string) :=
  match continue (PyStr.drop j s) with
  | Some groups => Some (if group then Re.take j s :: groups else groups)
  | None =>
      match more with
      | O => None
      | S more' => take_more continue group s (S j) more'
      end
  end.

(** [$] without [re.MULTILINE]: the end of the text, or the place just
    before a newline that ends the text. *)
Definition at_end (s : string) : bool :=
  String.eqb s "" || String.eqb s (String newline "").

(** Backtracking match of the tokens at the start of [s]; the answer is
    the list of the captured groups. *)
Fixpoint match_tokens (tokens : pattern) (s : string)
  : option (list string) :=
  match tokens with
  | [] => Some []
  | Lit l :: rest =>
      if String.prefix l s
      then match_tokens rest (PyStr.drop (String.length l) s)
      else None
  | Many min cls greedy group :: rest =>
      if greedy then Re.give_back (match_tokens rest) min group s (Re.run cls s)
      else if (Re.run cls s <? min)%nat then None
           else take_more (match_tokens rest) group s min (Re.run cls s - min)
  | Opt l :: rest =>
      if String.prefix l s then
        match match_tokens rest (PyStr.drop (String.length l) s) with
        | Some groups => Some groups
        | None => match_tokens rest s
        end
      else match_tokens rest s
  | End :: rest => if at_end s then match_tokens rest s else None
  end.

(** [re.search]: the first place of the text, from the left, where the
    pattern matches. *)
Fixpoint search (tokens : pattern) (s : string) : option (list string) :=
  match match_tokens tokens s with
  | Some groups => Some groups
  | None =>
      match s with
      | EmptyString => None
      | String _ s' => search tokens s'
      end
  end.

End UrlRe.

(** [github\.com/([^/]+)/([^/]+?)(?:\.git)?/?$] *)
Definition clone_url_pattern : UrlRe.pattern :=
  [ UrlRe.Lit "github.com/"; UrlRe.Many 1 UrlRe.not_slash true true;
    UrlRe.Lit "/"; UrlRe.Many 1 UrlRe.not_slash false true;
    UrlRe.Opt ".git"; UrlRe.Opt "/"; UrlRe.End ].

(** [github\.com/([^/]+)/([^/]+)/tree/] *)
Definition tree_url_pattern : UrlRe.pattern :=
  [ UrlRe.Lit "github.com/"; UrlRe.Many 1 UrlRe.not_slash true true;
    UrlRe.Lit "/"; UrlRe.Many 1 UrlRe.not_slash true true;
    UrlRe.Lit "/tree/" ].

(** [^([^/]+)/([^/]+)$]: the pattern starts with [^], so [re.search] can
    only match at the start of the text. *)
Definition short_pattern : UrlRe.pattern :=
  [ UrlRe.Many 1 UrlRe.not_slash true true; UrlRe.Lit "/";
    UrlRe.Many 1 UrlRe.not_slash true true; UrlRe.End ].

(** [match.group(1), match.group(2)] *)
Definition two_groups (m : option (list string)) : option (string * string) :=
  match m with
  | Some (g1 :: g2 :: _) => Some (g1, g2)
  | _ => None
  end.

Definition _parse_repo_url (url : string) : option (string * string) :=
  match two_groups (UrlRe.search clone_url_pattern url) with
  | Some r => Some r
  | None =>
      match two_groups (UrlRe.search tree_url_pattern url) with
      | Some r => Some r
      | None => two_groups (UrlRe.match_tokens short_pattern url)
      end
  end.

(** The number of slashes in the literals that a match of the pattern
    must read. *)
Fixpoint needs_slashes (tokens : UrlRe.pattern) : nat :=
  match tokens with
  | [] => 0
  | UrlRe.Lit l :: rest => str_count "/" l + needs_slashes rest
  | _ :: rest => needs_slashes rest
  end.

(** Every capturing group of the pattern is a repetition of [[^/]] that
    takes at least one character. *)
Definition slash_free_groups (tokens : UrlRe.pattern) : Prop :=
  Forall (fun tk => match tk with
                    | UrlRe.Many min cls _ true =>
                        1 <= min /\ cls = UrlRe.not_slash
                    | _ => True
                    end) tokens.

(** The end of the first pattern, [(?:\.git)?/?$]. *)
Definition ending_pattern : UrlRe.pattern :=
  [ UrlRe.Opt ".git"; UrlRe.Opt "/"; UrlRe.End ].

(** The texts that the end of the first pattern can read: an optional
    [.git], an optional slash, an optional final newline. *)
Definition url_ending (e : string) : Prop :=
  exists g s n,
    e = (g ++ s ++ n)%string
    /\ (g = "" \/ g = ".git") /\ (s = "" \/ s = "/")
    /\ (n = "" \/ n = String newline "").

(* ===================================================================== *)
(** ** [_analyze_contributors] *)
(* ===================================================================== *)

(** What the code reads of a contributor, [contributor.login] and
    [contributor.contributions]; each read may raise. *)
Record Contributor : Type := mkContributor {
  contributor_login : result string;
  contributor_contributions : result Z
}.

(** One value of [self.contributor_stats]. *)
Record ContributorStats : Type := mkContributorStats {
  contributions : Z;
  files_owned : Z;
  primary_files : list (string * Z)
}.

(** [set(xs)], kept in the order of first occurrence. *)
Definition set_of (xs : list string) : list string := fold_left set_add xs [].

(** [Counter(xs)]: a dictionary of counts, the keys in the order of their
    first occurrence. *)
Definition Counter (xs : list string) : PyDict.dict Z := fold_left incr xs [].

(** [c.most_common(n)]: [heapq.nlargest(n, c.items(), key=itemgetter(1))],
    which is [sorted(c.items(), key=itemgetter(1), reverse=True)[:n]]. *)
Definition most_common (n : nat) (c : PyDict.dict Z) : list (string * Z) :=
  firstn n (sorted_by_count_desc c).

(** The key and the value of
    [self.contributor_stats[contributor.login] = {...}]: the dictionary on
    the right is evaluated first, [contributions] before the reads of
    [login]. *)
Definition contributor_entry (contributor_data : PyDict.dict (list string))
           (contributor : Contributor) : result (string * ContributorStats) :=
  match contributor_contributions contributor with
  | Raise e => Raise e
  | Ret n =>
      match contributor_login contributor with
      | Raise e => Raise e
      | Ret l =>
          let files := PyDict.get contributor_data l [] in
          Ret (l, mkContributorStats
                    n
                    (Z.of_nat (List.length (set_of files)))
                    (most_common 5 (Counter files)))
      end
  end.

(** The loop over [contributors[:20]]. *)
Fixpoint collect_stats (contributor_data : PyDict.dict (list string))
         (contributors : list Contributor)
         (stats : PyDict.dict ContributorStats)
  : result (PyDict.dict ContributorStats) :=
  match contributors with
  | [] => Ret stats
  | contributor :: rest =>
      match contributor_entry contributor_data contributor with
      | Raise e => Raise e
      | Ret (l, st) =>
          collect_stats contributor_data rest (PyDict.set stats l st)
      end
  end.

(** [_analyze_contributors]: [get_contributors] is the outcome of
    [list(repo.get_contributors())]; the result is the value of
    [self.contributor_stats] when the method returns, or the exception
    that leaves it. *)
Definition _analyze_contributors (get_contributors : result (list Contributor))
           (contributor_data : PyDict.dict (list string))
  : result (PyDict.dict ContributorStats) :=
  match bindR get_contributors
              (fun contributors =>
                 collect_stats contributor_data (firstn 20 contributors) [])
  with
  | Ret stats => Ret stats
  | Raise e => if is_Exception e then Ret [] else Raise e
  end.

(** The greater count first. *)
Definition by_count_desc (a b : string * Z) : Prop := (snd b <= snd a)%Z.

(** Two contributors, and the files that the history of commits holds for
    them: [ann] changed [a.py] three times. *)
Definition sample_contributors : list Contributor :=
  [ mkContributor (Ret "ann") (Ret 40%Z); mkContributor (Ret "bob") (Ret 2%Z) ].

Definition sample_contributor_data : PyDict.dict (list string) :=
  [ ("ann", ["a.py"; "b.py"; "a.py"; "c.py"; "d.py"; "e.py"; "f.py"; "a.py"]);
    ("bob", ["b.py"]) ].

(** Both attributes of the contributor are read without an exception. *)
Definition reads_fine (c : Contributor) : Prop :=
  exists l n,
    contributor_login c = Ret l /\ contributor_contributions c = Ret n.

(** Reading the contributor raises [e]: [contributions] is read before
    [login]. *)
Definition read_fails (c : Contributor) (e : exn) : Prop :=
  contributor_contributions c = Raise e
  \/ ((exists n, contributor_contributions c = Ret n)
      /\ contributor_login c = Raise e).

(** Three contributors, the second with a login that cannot be read. *)
Definition failing_contributors : list Contributor :=
  [ mkContributor (Ret "ann") (Ret 40%Z);
    mkContributor (Raise GithubException) (Ret 1%Z);
    mkContributor (Ret "bob") (Ret 2%Z) ].

(* ===================================================================== *)
(** * Properties *)
(* ===================================================================== *)

(** ** Strings and paths *)

Lemma split_not_nil (sep : ascii) (s : string) : PyStr.split sep s <> [].
Proof.
  induction s as [| c s IH]; simpl; [discriminate |].
  destruct (Ascii.eqb c sep); [discriminate |].
  destruct (PyStr.split sep s); [contradiction | discriminate].
Qed.

Lemma split_no_sep (sep : ascii) (s : string) :
  PyStr.contains sep s = false -> PyStr.split sep s = [s].
Proof.
  induction s as [| c s IH]; simpl; intros H; [reflexivity |].
  apply orb_false_iff in H. destruct H as [Hc Hs].
  rewrite Hc, (IH Hs). reflexivity.
Qed.

Lemma split_pieces_contain (c sep : ascii) (s : string) :
  PyStr.contains c s = false ->
  Forall (fun x => PyStr.contains c x = false) (PyStr.split sep s).
Proof.
  induction s as [| a s IH]; simpl; intros H.
  - constructor; [reflexivity | constructor].
  - apply orb_false_iff in H. destruct H as [Ha Hs].
    specialize (IH Hs).
    destruct (Ascii.eqb a sep).
    + constructor; [reflexivity | exact IH].
    + destruct (PyStr.split sep s) as [| h t].
      * constructor; [simpl; rewrite Ha; reflexivity | constructor].
      * inversion IH as [| ? ? Hh Ht]; subst.
        constructor; [simpl; rewrite Ha, Hh; reflexivity | exact Ht].
Qed.

Lemma last_Forall {A} (P : A -> Prop) (l : list A) (d : A) :
  P d -> Forall P l -> P (last l d).
Proof.
  intros Hd H. induction H as [| x l Hx Hl IH]; simpl; [exact Hd |].
  destruct l; [exact Hx | exact IH].
Qed.

Lemma name_no_char (c : ascii) (p : string) :
  PyStr.contains c p = false -> PyStr.contains c (PyPath.name p) = false.
Proof.
  intros H. unfold PyPath.name, PyPath.parts.
  apply last_Forall; [reflexivity |].
  apply Forall_forall. intros x Hx. apply filter_In in Hx.
  destruct Hx as [Hx _].
  pose proof (split_pieces_contain c "/" p H) as HF.
  rewrite Forall_forall in HF. exact (HF x Hx).
Qed.

Lemma rfind_absent (c : ascii) (s : string) :
  PyStr.contains c s = false -> PyStr.rfind c s = (-1)%Z.
Proof.
  induction s as [| a s IH]; simpl; intros H; [reflexivity |].
  apply orb_false_iff in H. destruct H as [Ha Hs].
  rewrite (IH Hs), Ha. reflexivity.
Qed.

Lemma suffix_no_dot (filename : string) :
  PyStr.contains "." filename = false -> PyPath.suffix filename = "".
Proof.
  intros H. unfold PyPath.suffix.
  rewrite (rfind_absent _ _ (name_no_char _ _ H)). reflexivity.
Qed.

Lemma name_single (s : string) :
  PyStr.contains "/" s = false -> PyPath.is_part s = true -> PyPath.name s = s.
Proof.
  intros Hs Hp. unfold PyPath.name, PyPath.parts.
  rewrite (split_no_sep _ _ Hs). simpl. rewrite Hp. reflexivity.
Qed.

Lemma rfind_head (c : ascii) (s : string) :
  PyStr.contains c s = false -> PyStr.rfind c (String c s) = 0%Z.
Proof.
  intros H. simpl. rewrite (rfind_absent _ _ H), Ascii.eqb_refl. reflexivity.
Qed.

Lemma suffix_dotfile (ext : string) :
  PyStr.contains "." ext = false -> PyStr.contains "/" ext = false ->
  PyPath.suffix (String "." ext) = "".
Proof.
  intros Hdot Hslash.
  destruct ext as [| a ext']; [reflexivity |].
  unfold PyPath.suffix.
  rewrite name_single; [| simpl; exact Hslash | reflexivity].
  cbv zeta. rewrite (rfind_head _ _ Hdot). reflexivity.
Qed.

(** ** Dictionaries *)

Lemma lookup_In {V} (d : PyDict.dict V) (k : string) (v : V) :
  PyDict.lookup k d = Some v -> In (k, v) d.
Proof.
  induction d as [| [k' v'] d IH]; simpl; [discriminate |].
  destruct (String.eqb_spec k k') as [-> | Hne]; intros H.
  - injection H as ->. left. reflexivity.
  - right. exact (IH H).
Qed.

Lemma lookup_not_In {V} (d : PyDict.dict V) (k : string) :
  ~ In k (PyDict.keys d) <-> PyDict.lookup k d = None.
Proof.
  induction d as [| [k' v'] d IH]; simpl.
  - split; [reflexivity | intros _ []].
  - destruct (String.eqb_spec k k') as [-> | Hne].
    + split; [intros H; exfalso; apply H; left; reflexivity | discriminate].
    + rewrite <- IH. split.
      * intros H Hin. apply H. right. exact Hin.
      * intros H [E | Hin]; [apply Hne; symmetry; exact E | exact (H Hin)].
Qed.

Lemma In_lookup {V} (d : PyDict.dict V) (k : string) (v : V) :
  NoDup (PyDict.keys d) -> In (k, v) d -> PyDict.lookup k d = Some v.
Proof.
  induction d as [| [k' v'] d IH]; simpl; intros Hnd Hin; [contradiction |].
  inversion Hnd as [| ? ? Hnotin Hnd']; subst.
  destruct Hin as [E | Hin].
  - injection E as -> ->. rewrite String.eqb_refl. reflexivity.
  - destruct (String.eqb_spec k k') as [-> | Hne].
    + exfalso. apply Hnotin. apply (in_map fst) in Hin. exact Hin.
    + exact (IH Hnd' Hin).
Qed.

Lemma lookup_set_same {V} (d : PyDict.dict V) (k : string) (v : V) :
  PyDict.lookup k (PyDict.set d k v) = Some v.
Proof.
  induction d as [| [k' v'] d IH]; simpl.
  - rewrite String.eqb_refl. reflexivity.
  - destruct (String.eqb_spec k k') as [-> | Hne]; simpl.
    + rewrite String.eqb_refl. reflexivity.
    + destruct (String.eqb_spec k k'); [contradiction | exact IH].
Qed.

Lemma lookup_set_other {V} (d : PyDict.dict V) (k k0 : string) (v : V) :
  k0 <> k -> PyDict.lookup k0 (PyDict.set d k v) = PyDict.lookup k0 d.
Proof.
  intros Hne. induction d as [| [k' v'] d IH]; simpl.
  - destruct (String.eqb_spec k0 k); [contradiction | reflexivity].
  - destruct (String.eqb_spec k k') as [-> | Hne']; simpl.
    + destruct (String.eqb_spec k0 k'); [contradiction | reflexivity].
    + destruct (String.eqb_spec k0 k'); [reflexivity | exact IH].
Qed.

Lemma set_fresh {V} (d : PyDict.dict V) (k : string) (v : V) :
  ~ In k (PyDict.keys d) -> PyDict.set d k v = d ++ [(k, v)].
Proof.
  induction d as [| [k' v'] d IH]; simpl; intros H; [reflexivity |].
  destruct (String.eqb_spec k k') as [-> | Hne].
  - exfalso. apply H. left. reflexivity.
  - rewrite IH; [reflexivity |]. intros Hin. apply H. right. exact Hin.
Qed.

Lemma keys_set {V} (d : PyDict.dict V) (k : string) (v : V) :
  In k (PyDict.keys d) -> PyDict.keys (PyDict.set d k v) = PyDict.keys d.
Proof.
  induction d as [| [k' v'] d IH]; simpl; intros H; [contradiction |].
  destruct (String.eqb_spec k k') as [-> | Hne]; simpl; [reflexivity |].
  f_equal. apply IH. destruct H as [E | H]; [congruence | exact H].
Qed.

(** ** Language detection *)

Lemma extensions_keys_NoDup : NoDup (PyDict.keys extensions).
Proof.
  unfold extensions, PyDict.keys. simpl.
  repeat (constructor; [simpl; intuition discriminate |]). constructor.
Qed.

Lemma detect_of_entry (filename ext lang : string) :
  PyStr.lower (PyPath.suffix filename) = ext ->
  In (ext, lang) extensions -> _detect_language filename = lang.
Proof.
  intros E Hin. unfold _detect_language, PyDict.get. cbv zeta. rewrite E.
  rewrite (In_lookup _ _ _ extensions_keys_NoDup Hin). reflexivity.
Qed.

Lemma detect_unknown (filename : string) :
  ~ In (PyStr.lower (PyPath.suffix filename)) (PyDict.keys extensions) ->
  _detect_language filename = "Unknown".
Proof.
  intros H. unfold _detect_language, PyDict.get. cbv zeta.
  apply lookup_not_In in H. rewrite H. reflexivity.
Qed.

Lemma detect_no_suffix (filename : string) :
  PyPath.suffix filename = "" -> _detect_language filename = "Unknown".
Proof.
  intros H. unfold _detect_language. rewrite H. reflexivity.
Qed.

(** C10.  A file name without an extension suffix is classified
    ["Unknown"]: a name with no dot has no suffix, a dotfile whose whole
    name is a dot followed by dot-free text has no suffix either, and so
    a file named [".py"] is ["Unknown"] although its name ends in the
    tabled extension [".py"]. *)
Theorem detect_language_no_suffix_unknown :
  (forall filename, PyPath.suffix filename = "" ->
                    _detect_language filename = "Unknown")
  /\ (forall filename, PyStr.contains "." filename = false ->
                       PyPath.suffix filename = ""
                       /\ _detect_language filename = "Unknown")
  /\ (forall ext, PyStr.contains "." ext = false ->
                  PyStr.contains "/" ext = false ->
                  PyPath.suffix (String "." ext) = ""
                  /\ _detect_language (String "." ext) = "Unknown")
  /\ (_detect_language "Makefile" = "Unknown"
      /\ _detect_language ".py" = "Unknown"
      /\ PyStr.endswith ".py" ".py" = true
      /\ PyDict.lookup ".py" extensions = Some "Python").
Proof.
  split; [exact detect_no_suffix |].
  split.
  { intros f H. pose proof (suffix_no_dot f H) as E.
    split; [exact E | exact (detect_no_suffix f E)]. }
  split.
  { intros ext H1 H2. pose proof (suffix_dotfile ext H1 H2) as E.
    split; [exact E | exact (detect_no_suffix _ E)]. }
  repeat split; reflexivity.
Qed.

Lemma detect_language_no_suffix_unknown_witness :
  PyPath.suffix ".gitignore" = ""
  /\ _detect_language ".gitignore" = "Unknown"
  /\ _detect_language "LICENSE" = "Unknown"
  /\ _detect_language ".json" = "Unknown".
Proof.
  destruct detect_language_no_suffix_unknown as (H1 & H2 & H3 & _).
  split; [reflexivity |].
  split; [apply H1; reflexivity |].
  split; [apply (H2 "LICENSE"); reflexivity |].
  apply (H3 "json"); reflexivity.
Defined.

(** ** The tree builder *)

Section BuildFacts.
Variable repo : Repo.

Lemma for_each_app {S X} (body : S -> X -> M S) (xs ys : list X) (s : S) :
  for_each body (xs ++ ys) s = bind (for_each body xs s) (for_each body ys).
Proof.
  revert s. induction xs as [| x xs IH]; intros s; simpl; [reflexivity |].
  destruct (body s x) as [[s' | e] |]; simpl; auto.
Qed.

Lemma for_each_some {S X} (body : S -> X -> M S) (xs : list X) (s : S) :
  (forall x s', In x xs -> body s' x <> None) -> for_each body xs s <> None.
Proof.
  revert s. induction xs as [| x xs IH]; intros s H; simpl; [discriminate |].
  destruct (body s x) as [[s' | e] |] eqn:E; simpl.
  - apply IH. intros y s'' Hy. apply H. right. exact Hy.
  - discriminate.
  - exfalso. apply (H x s); [left; reflexivity | exact E].
Qed.

(** An entry never exhausts the fuel by itself: only the recursive call
    on the listing of a directory can. *)
Lemma build_entry_some (rec : Contents -> M Tree) (tree : Tree)
      (c : ContentFile) :
  (is_dir c = true ->
   forall sub, repo (path_of c) = Ret sub -> rec sub <> None) ->
  build_entry repo rec tree c <> None.
Proof.
  intros H. unfold build_entry, is_dir, path_of in *.
  destruct c as [[ty |] nm pa sz co]; simpl in *; [| discriminate].
  destruct (String.eqb ty "dir").
  - destruct pa as [p |]; simpl.
    + destruct (repo p) as [sub | e] eqn:Er; simpl.
      * specialize (H eq_refl sub eq_refl).
        destruct (rec sub) as [[ch | e] |]; simpl;
          [| | contradiction]; destruct nm; simpl; discriminate.
      * destruct nm; simpl; discriminate.
    + discriminate.
  - destruct pa, sz, nm; simpl; discriminate.
Qed.

Lemma build_bounded (depth : nat) (contents : Contents) :
  Bounded repo depth contents ->
  forall fuel, depth <= fuel -> _build_file_tree repo fuel contents <> None.
Proof.
  induction 1 as [depth f | depth l Hsub IH]; intros fuel Hle;
    (destruct fuel as [| fuel]; [lia |]); simpl; [discriminate |].
  apply for_each_some. intros c tree Hc.
  apply build_entry_some. intros Hd sub Hr.
  apply (IH c sub Hc Hd Hr). lia.
Qed.

(** What the loop body does with a well-formed entry. *)
Lemma build_entry_wf (rec : Contents -> M Tree) (tree : Tree)
      (c : ContentFile) :
  well_formed c = true ->
  (is_dir c = true ->
   forall sub, repo (path_of c) = Ret sub -> rec sub <> None) ->
  build_entry repo rec tree c
  = ret (PyDict.set tree (name_of c) (entry_node repo rec c)).
Proof.
  intros Hwf H.
  unfold build_entry, entry_node, well_formed, is_dir, path_of, name_of,
    reported_size in *.
  destruct c as [[ty |] [nm |] [pa |] [sz |] co]; simpl in *;
    try discriminate.
  destruct (String.eqb ty "dir"); [| reflexivity].
  destruct (repo pa) as [sub | e]; simpl; [| reflexivity].
  specialize (H eq_refl sub eq_refl).
  destruct (rec sub) as [[ch | e] |]; simpl;
    [reflexivity | reflexivity | contradiction].
Qed.

Lemma for_each_build_wf (rec : Contents -> M Tree) (entries : list ContentFile)
      (tree : Tree) :
  Forall (fun c => well_formed c = true) entries ->
  (forall c sub, In c entries -> is_dir c = true ->
                 repo (path_of c) = Ret sub -> rec sub <> None) ->
  for_each (build_entry repo rec) entries tree
  = ret (fold_left (record_entry repo rec) entries tree).
Proof.
  revert tree. induction entries as [| c entries IH]; intros tree Hwf Hrec;
    simpl; [reflexivity |].
  inversion Hwf as [| ? ? Hc Hrest]; subst.
  rewrite build_entry_wf;
    [| exact Hc | intros Hd sub; apply Hrec; [left; reflexivity | exact Hd]].
  simpl. apply IH; [exact Hrest |].
  intros c' sub Hin. apply Hrec. right. exact Hin.
Qed.

Lemma fold_record_fresh (rec : Contents -> M Tree)
      (entries : list ContentFile) (tree : Tree) :
  NoDup (map name_of entries) ->
  (forall c, In c entries -> ~ In (name_of c) (PyDict.keys tree)) ->
  fold_left (record_entry repo rec) entries tree
  = tree ++ map (fun c => (name_of c, entry_node repo rec c)) entries.
Proof.
  revert tree. induction entries as [| c entries IH]; intros tree Hnd Hfresh;
    simpl; [rewrite app_nil_r; reflexivity |].
  inversion Hnd as [| ? ? Hnotin Hnd']; subst.
  unfold record_entry at 2.
  rewrite set_fresh by (apply Hfresh; left; reflexivity).
  rewrite IH; [rewrite <- app_assoc; reflexivity | exact Hnd' |].
  intros c' Hc' Hin. unfold PyDict.keys in Hin.
  rewrite map_app in Hin. apply in_app_or in Hin. destruct Hin as [Hin | Hin].
  - apply (Hfresh c'); [right; exact Hc' | exact Hin].
  - simpl in Hin. destruct Hin as [E | []].
    apply Hnotin. rewrite E. apply in_map. exact Hc'.
Qed.

(** On a listing of well-formed entries with distinct names the tree is
    the listing itself, entry by entry. *)
Lemma build_listing_ok (fuel : nat) (entries : list ContentFile) :
  listing_ok entries ->
  (forall c sub, In c entries -> is_dir c = true ->
                 repo (path_of c) = Ret sub ->
                 _build_file_tree repo fuel sub <> None) ->
  _build_file_tree repo (S fuel) (Listing entries)
  = ret (map (fun c => (name_of c,
                        entry_node repo (_build_file_tree repo fuel) c))
             entries).
Proof.
  intros [Hwf Hnd] Hrec. simpl.
  rewrite for_each_build_wf by assumption.
  rewrite fold_record_fresh; [reflexivity | exact Hnd |].
  intros c _ [].
Qed.

End BuildFacts.

(** ** Counting files *)

Lemma count_fold (l : Tree) (a : Z) :
  fold_left (fun count item => (count + count_data (snd item))%Z) l a
  = (a + _count_files l)%Z.
Proof.
  unfold _count_files. revert a.
  induction l as [| item l IH]; intros a; simpl; [lia |].
  rewrite IH, (IH (count_data (snd item))). lia.
Qed.

Lemma count_files_cons (name : string) (data : node) (l : Tree) :
  _count_files ((name, data) :: l) = (count_data data + _count_files l)%Z.
Proof. unfold _count_files at 1. simpl. apply count_fold. Qed.

Lemma count_files_of_files (entries : list ContentFile) :
  _count_files (map (fun c => (name_of c, file_node c)) entries)
  = Z.of_nat (List.length entries).
Proof.
  induction entries as [| c entries IH]; [reflexivity |].
  cbn [map]. rewrite count_files_cons, IH.
  cbn [file_node count_data List.length].
  lia.
Qed.

Lemma entry_node_file (repo : Repo) (rec : Contents -> M Tree)
      (c : ContentFile) :
  is_dir c = false -> entry_node repo rec c = file_node c.
Proof. intros H. unfold entry_node. rewrite H. reflexivity. Qed.

(** C7.  For a listing of a directory, well-formed entries with pairwise
    distinct names, that has no directory among them, [_build_file_tree],
    with any positive fuel, returns the dictionary that maps each entry's
    name to its [File] node, one item per entry and in the order of the
    listing, and [_count_files] of that tree is the length of the
    listing. *)
Theorem build_flat_listing (repo : Repo) (fuel : nat)
        (entries : list ContentFile) :
  listing_ok entries ->
  Forall (fun c => is_dir c = false) entries ->
  exists t : Tree,
    _build_file_tree repo (S fuel) (Listing entries) = Some (Ret t)
    /\ t = map (fun c => (name_of c, file_node c)) entries
    /\ List.length t = List.length entries
    /\ _count_files t = Z.of_nat (List.length entries).
Proof.
  intros Hok Hfiles. rewrite Forall_forall in Hfiles.
  exists (map (fun c => (name_of c, file_node c)) entries).
  split; [| split; [reflexivity | split]].
  - rewrite build_listing_ok; [| exact Hok |].
    + unfold ret. apply (f_equal (fun x => Some (Ret x))).
      apply map_ext_in. intros c Hc. f_equal.
      apply entry_node_file. exact (Hfiles c Hc).
    + intros c sub Hc Hd. rewrite (Hfiles c Hc) in Hd. discriminate.
  - apply length_map.
  - apply count_files_of_files.
Qed.

Lemma build_flat_listing_witness :
  exists t : Tree,
    _build_file_tree no_repo 1 (Listing two_files) = Some (Ret t)
    /\ t = map (fun c => (name_of c, file_node c)) two_files
    /\ List.length t = 2
    /\ _count_files t = 2%Z.
Proof.
  apply (build_flat_listing no_repo 0 two_files).
  - split.
    + repeat constructor.
    + repeat constructor; simpl; intuition discriminate.
  - repeat constructor.
Defined.

(** ** Where the nodes of a built tree come from *)

Lemma In_set {V} (d : PyDict.dict V) (n k : string) (v x : V) :
  In (k, x) (PyDict.set d n v) -> In (k, x) d \/ (k = n /\ x = v).
Proof.
  induction d as [| [k' v'] d IH]; simpl.
  - intros [E | []]. injection E as <- <-. right. split; reflexivity.
  - destruct (String.eqb_spec n k') as [-> | Hne]; simpl.
    + intros [E | H]; [| left; right; exact H].
      injection E as <- <-. right. split; reflexivity.
    + intros [E | H]; [left; left; exact E |].
      destruct (IH H) as [H' | H']; [left; right; exact H' | right; exact H'].
Qed.

Lemma node_items_dir (name path : string) (children : Tree) :
  node_items name (DirNode path children)
  = (name, DirNode path children) :: tree_items children.
Proof.
  simpl. f_equal. unfold tree_items.
  induction children as [| [n d] l IH]; simpl; [reflexivity |].
  rewrite IH. reflexivity.
Qed.

Lemma tree_items_In (t : Tree) (item : string * node) :
  In item (tree_items t) ->
  In item t
  \/ exists k p children,
      In (k, DirNode p children) t /\ In item (tree_items children).
Proof.
  unfold tree_items at 1. rewrite in_flat_map.
  intros [[k d] [Hin Hitem]]. cbn [fst snd] in Hitem.
  destruct d as [p children | p s lang].
  - rewrite node_items_dir in Hitem. destruct Hitem as [<- | Hitem].
    + left. exact Hin.
    + right. exists k, p, children. split; assumption.
  - simpl in Hitem. destruct Hitem as [<- | []]. left. exact Hin.
Qed.

Lemma Listed_trans (repo : Repo) (root l l' : list ContentFile) :
  Listed repo root l -> Listed repo l l' -> Listed repo root l'.
Proof.
  intros H1 H2. induction H2 as [| l2 d sub H2 IH Hd Hdir Hr]; [exact H1 |].
  exact (Listed_sub repo root l2 d sub IH Hd Hdir Hr).
Qed.

Section Provenance.
Variable repo : Repo.

(** What a round of the loop that does not raise has stored. *)
Lemma build_entry_inv (rec : Contents -> M Tree) (tree tree' : Tree)
      (c : ContentFile) :
  build_entry repo rec tree c = Some (Ret tree') ->
  exists v : node,
    tree' = PyDict.set tree (name_of c) v
    /\ cf_name c = Some (name_of c)
    /\ cf_path c = Some (path_of c)
    /\ ((is_dir c = false
         /\ cf_size c = Some (reported_size c)
         /\ v = file_node c)
        \/ (is_dir c = true
            /\ exists children,
                v = DirNode (path_of c) children
                /\ (children = []
                    \/ exists sub, repo (path_of c) = Ret sub
                                   /\ rec sub = Some (Ret children)))).
Proof.
  unfold build_entry, is_dir, name_of, path_of, reported_size, file_node.
  destruct c as [[ty |] nm pa sz co]; simpl; [| discriminate].
  destruct (String.eqb ty "dir").
  - destruct pa as [p |]; simpl; [| discriminate].
    destruct (repo p) as [sub | e] eqn:Er; simpl.
    + destruct (rec sub) as [[ch | e] |] eqn:Es; simpl.
      * destruct nm as [n |]; simpl; [| discriminate].
        intros H. injection H as <-. eexists. repeat split.
        right. split; [reflexivity |]. eexists. split; [reflexivity |].
        right. exists sub. split; [reflexivity | exact Es].
      * destruct nm as [n |]; simpl; [| discriminate].
        intros H. injection H as <-. eexists. repeat split.
        right. split; [reflexivity |]. eexists. split; [reflexivity |].
        left. reflexivity.
      * discriminate.
    + destruct nm as [n |]; simpl; [| discriminate].
      intros H. injection H as <-. eexists. repeat split.
      right. split; [reflexivity |]. eexists. split; [reflexivity |].
      left. reflexivity.
  - destruct pa as [p |], sz as [s |], nm as [n |]; simpl; try discriminate.
    intros H. injection H as <-. eexists. repeat split.
    left. repeat split.
Qed.

Lemma for_each_build_inv (rec : Contents -> M Tree)
      (entries : list ContentFile) (tree tree' : Tree) :
  for_each (build_entry repo rec) entries tree = Some (Ret tree') ->
  forall k v, In (k, v) tree' ->
    In (k, v) tree
    \/ exists c tree1 tree2,
        In c entries /\ k = name_of c
        /\ build_entry repo rec tree1 c
           = Some (Ret tree2) /\ PyDict.lookup k tree2 = Some v.
Proof.
  revert tree. induction entries as [| c entries IH]; intros tree; simpl.
  - intros H. injection H as <-. intros k v Hin. left. exact Hin.
  - destruct (build_entry repo rec tree c) as [[tree1 | e] |] eqn:E; simpl;
      try discriminate.
    intros H k v Hin. destruct (IH tree1 H k v Hin) as [Hin1 | Hex].
    + destruct (build_entry_inv rec tree tree1 c E) as (x & -> & _).
      destruct (In_set _ _ _ _ _ Hin1) as [Hold | [-> ->]].
      * left. exact Hold.
      * right. exists c, tree, (PyDict.set tree (name_of c) x).
        split; [left; reflexivity |]. split; [reflexivity |].
        split; [exact E | apply lookup_set_same].
    + right. destruct Hex as (c' & t1 & t2 & Hc' & Hk & Hb & Hl).
      exists c', t1, t2. split; [right; exact Hc' |]. auto.
Qed.

(** Every [File] node of a built tree, at any depth, records the name, the
    path and the size of an entry that is not a directory, read in a
    listing of the walk, together with the language of that name. *)
Lemma file_node_provenance (fuel : nat) :
  forall (root : list ContentFile) (t : Tree),
    _build_file_tree repo fuel (Listing root) = Some (Ret t) ->
    forall n p s lang, In (n, FileNode p s lang) (tree_items t) ->
      exists l c,
        Listed repo root l /\ In c l /\ is_dir c = false
        /\ cf_name c = Some n /\ cf_path c = Some p /\ cf_size c = Some s
        /\ lang = _detect_language n.
Proof.
  induction fuel as [| fuel IH]; intros root t Hb n p s lang Hin;
    [discriminate |].
  simpl in Hb.
  assert (Htop : forall k v, In (k, v) t ->
            exists c tree1 tree2,
              In c root /\ k = name_of c
              /\ build_entry repo (_build_file_tree repo fuel) tree1 c
                 = Some (Ret tree2)
              /\ PyDict.lookup k tree2 = Some v).
  { intros k v Hkv.
    destruct (for_each_build_inv _ _ _ _ Hb k v Hkv) as [[] | H]. exact H. }
  destruct (tree_items_In t _ Hin) as [Hhere | (k & pd & ch & Hdir & Hbelow)].
  - destruct (Htop _ _ Hhere) as (c & t1 & t2 & Hc & Hk & Hbe & Hl).
    destruct (build_entry_inv _ _ _ _ Hbe) as (v & -> & Hn & Hp & Hcase).
    rewrite Hk, lookup_set_same in Hl. injection Hl as ->.
    destruct Hcase as [(Hnd & Hs & Hv) | (_ & ch & Hv & _)];
      [| discriminate Hv].
    unfold file_node in Hv. injection Hv as -> -> ->.
    exists root, c. split; [constructor |]. subst n. repeat split; assumption.
  - destruct (Htop _ _ Hdir) as (c & t1 & t2 & Hc & Hk & Hbe & Hl).
    destruct (build_entry_inv _ _ _ _ Hbe) as (v & -> & Hn & Hp & Hcase).
    rewrite Hk, lookup_set_same in Hl. injection Hl as ->.
    destruct Hcase as [(_ & _ & Hv) | (Hd & ch' & Hv & Hch)];
      [discriminate Hv |].
    injection Hv as -> ->.
    destruct Hch as [-> | (sub & Hr & Hrec)]; [destruct Hbelow |].
    destruct sub as [sub |].
    + destruct (IH sub ch' Hrec n p s lang Hbelow)
        as (l & c' & Hl' & Hc' & Hrest).
      exists l, c'. split; [| split; [exact Hc' | exact Hrest]].
      apply (Listed_trans repo root sub l); [| exact Hl'].
      exact (Listed_sub repo root root c sub (Listed_root repo root) Hc Hd Hr).
    + destruct fuel; simpl in Hrec; discriminate.
Qed.

End Provenance.

(** ** Language detection does not look at the case of the name *)

Lemma lower_char_fixes (sep : ascii) :
  sep = "/"%char \/ sep = "."%char ->
  forall c, Ascii.eqb (PyStr.lower_char c) sep = Ascii.eqb c sep.
Proof.
  intros [-> | ->] c;
    destruct c as [[] [] [] [] [] [] [] []]; vm_compute; reflexivity.
Qed.

Lemma lower_char_idem (c : ascii) :
  PyStr.lower_char (PyStr.lower_char c) = PyStr.lower_char c.
Proof. destruct c as [[] [] [] [] [] [] [] []]; vm_compute; reflexivity. Qed.

Lemma lower_idem (s : string) : PyStr.lower (PyStr.lower s) = PyStr.lower s.
Proof.
  induction s as [| c s IH]; simpl; [reflexivity |].
  rewrite lower_char_idem, IH. reflexivity.
Qed.

Lemma lower_length (s : string) :
  String.length (PyStr.lower s) = String.length s.
Proof. induction s as [| c s IH]; simpl; [reflexivity | rewrite IH; auto]. Qed.

Lemma lower_drop (i : nat) (s : string) :
  PyStr.drop i (PyStr.lower s) = PyStr.lower (PyStr.drop i s).
Proof.
  revert s. induction i as [| i IH]; intros s; [reflexivity |].
  destruct s as [| c s]; simpl; [reflexivity | apply IH].
Qed.

Lemma lower_split (sep : ascii) (s : string) :
  (forall c, Ascii.eqb (PyStr.lower_char c) sep = Ascii.eqb c sep) ->
  PyStr.split sep (PyStr.lower s) = map PyStr.lower (PyStr.split sep s).
Proof.
  intros Hsep. induction s as [| c s IH]; simpl; [reflexivity |].
  rewrite Hsep, IH. destruct (Ascii.eqb c sep); [reflexivity |].
  destruct (PyStr.split sep s); reflexivity.
Qed.

Lemma lower_rfind (c : ascii) (s : string) :
  (forall a, Ascii.eqb (PyStr.lower_char a) c = Ascii.eqb a c) ->
  PyStr.rfind c (PyStr.lower s) = PyStr.rfind c s.
Proof.
  intros Hc. induction s as [| a s IH]; simpl; [reflexivity |].
  rewrite IH, Hc. reflexivity.
Qed.

Lemma lower_is_part (x : string) :
  PyPath.is_part (PyStr.lower x) = PyPath.is_part x.
Proof.
  unfold PyPath.is_part. destruct x as [| c x]; [reflexivity |].
  simpl. pose proof (lower_char_fixes "." (or_intror eq_refl) c) as E.
  destruct x as [| c' x]; simpl.
  - rewrite E. reflexivity.
  - rewrite E. destruct (Ascii.eqb c "."); reflexivity.
Qed.

Lemma last_map {A B} (f : A -> B) (l : list A) (d : A) :
  last (map f l) (f d) = f (last l d).
Proof.
  induction l as [| x l IH]; [reflexivity |].
  destruct l; [reflexivity | exact IH].
Qed.

Lemma lower_parts (l : list string) :
  filter PyPath.is_part (map PyStr.lower l)
  = map PyStr.lower (filter PyPath.is_part l).
Proof.
  induction l as [| x l IH]; [reflexivity |].
  cbn [map filter]. rewrite lower_is_part, IH.
  destruct (PyPath.is_part x); reflexivity.
Qed.

Lemma lower_name (p : string) :
  PyPath.name (PyStr.lower p) = PyStr.lower (PyPath.name p).
Proof.
  unfold PyPath.name, PyPath.parts.
  rewrite lower_split by (apply lower_char_fixes; left; reflexivity).
  rewrite lower_parts. exact (last_map PyStr.lower _ "").
Qed.

Lemma lower_suffix (p : string) :
  PyPath.suffix (PyStr.lower p) = PyStr.lower (PyPath.suffix p).
Proof.
  unfold PyPath.suffix. cbv zeta. rewrite lower_name.
  rewrite lower_rfind by (apply lower_char_fixes; right; reflexivity).
  unfold PyStr.len. rewrite lower_length.
  destruct ((0 <? _)%Z && _)%bool; [apply lower_drop | reflexivity].
Qed.

Lemma detect_same_up_to_case (f g : string) :
  PyStr.lower f = PyStr.lower g -> _detect_language f = _detect_language g.
Proof.
  intros E. unfold _detect_language. cbv zeta.
  rewrite <- (lower_suffix f), <- (lower_suffix g), E. reflexivity.
Qed.

(** C9.  [_detect_language] is a lookup of the lowered suffix of the
    name in the table [extensions]: a tabled extension gives its language,
    any other suffix gives ["Unknown"], and two names that differ only in
    case get the same answer.  A [File] node of a built tree records the
    size that the listing entry of its name and path reports, and the
    language of that name. *)
Theorem detect_language_is_table_lookup :
  (forall filename ext lang,
      PyStr.lower (PyPath.suffix filename) = ext ->
      In (ext, lang) extensions -> _detect_language filename = lang)
  /\ (forall filename,
         ~ In (PyStr.lower (PyPath.suffix filename)) (PyDict.keys extensions) ->
         _detect_language filename = "Unknown")
  /\ (forall f g, PyStr.lower f = PyStr.lower g ->
                  _detect_language f = _detect_language g)
  /\ (forall repo rec tree c,
         well_formed c = true -> is_dir c = false ->
         build_entry repo rec tree c
         = Some (Ret (PyDict.set tree (name_of c)
                        (FileNode (path_of c) (reported_size c)
                                  (_detect_language (name_of c))))))
  /\ (forall repo fuel root t,
         _build_file_tree repo fuel (Listing root) = Some (Ret t) ->
         forall n p s lang, In (n, FileNode p s lang) (tree_items t) ->
           exists l c,
             Listed repo root l /\ In c l /\ is_dir c = false
             /\ cf_name c = Some n /\ cf_path c = Some p
             /\ cf_size c = Some s /\ lang = _detect_language n).
Proof.
  split; [exact detect_of_entry |].
  split; [exact detect_unknown |].
  split; [exact detect_same_up_to_case |].
  split.
  - intros repo rec tree c Hwf Hd.
    rewrite build_entry_wf; [| exact Hwf | rewrite Hd; discriminate].
    rewrite (entry_node_file repo rec c Hd). reflexivity.
  - intros repo fuel. exact (file_node_provenance repo fuel).
Qed.

Lemma detect_language_is_table_lookup_witness :
  _detect_language "Setup.PY" = "Python"
  /\ _detect_language "notes.txt" = "Unknown"
  /\ _detect_language "INDEX.Html" = _detect_language "index.html"
  /\ build_entry no_repo (fun _ => None) [] (file_entry "a.py" "src/a.py" 10)
     = Some (Ret [("a.py", FileNode "src/a.py" 10 "Python")])
  /\ exists l c,
      Listed no_repo two_files l /\ In c l /\ is_dir c = false
      /\ cf_name c = Some "README" /\ cf_path c = Some "README"
      /\ cf_size c = Some 7%Z /\ "Unknown" = _detect_language "README".
Proof.
  destruct detect_language_is_table_lookup as (H1 & H2 & H3 & H4 & H5).
  split.
  { apply (H1 "Setup.PY" ".py" "Python"); [reflexivity |].
    left. reflexivity. }
  split.
  { apply (H2 "notes.txt"). vm_compute. intuition discriminate. }
  split.
  { apply (H3 "INDEX.Html" "index.html"). reflexivity. }
  split.
  { apply (H4 no_repo (fun _ => None) [] (file_entry "a.py" "src/a.py" 10));
      reflexivity. }
  apply (H5 no_repo 1 two_files
            [("a.py", FileNode "a.py" 10 "Python");
             ("README", FileNode "README" 7 "Unknown")]
            eq_refl "README" "README" 7%Z "Unknown").
  right. left. reflexivity.
Defined.

(** ** Local recovery in the tree builder *)




Section Recovery.
Variable repo : Repo.


End Recovery.


Lemma sample_repo_bounded : Bounded sample_repo 2 (Listing sample_root).
Proof.
  constructor. intros d sub [<- | [<- | [<- | []]]] Hd Hr;
    try discriminate.
  injection Hr as <-. constructor.
  intros d' sub' [<- | [<- | []]] Hd'; discriminate.
Qed.

Lemma sample_repo_listed (l : list ContentFile) :
  Listed sample_repo sample_root l -> l = sample_root \/ l = src_listing.
Proof.
  induction 1 as [| l d sub _ IH Hd Hdir Hr]; [left; reflexivity |].
  destruct IH as [-> | ->].
  - destruct Hd as [<- | [<- | [<- | []]]]; try discriminate.
    injection Hr as <-. right. reflexivity.
  - destruct Hd as [<- | [<- | []]]; discriminate.
Qed.

Lemma sample_repo_ok (l : list ContentFile) :
  Listed sample_repo sample_root l -> listing_ok l.
Proof.
  intros H. destruct (sample_repo_listed l H) as [-> | ->]; split;
    repeat constructor; simpl; intuition discriminate.
Qed.


Example build_sample_repo :
  _build_file_tree sample_repo 2 (Listing sample_root)
  = Some (Ret [ ("src", DirNode "src"
                          [ ("a.py", FileNode "src/a.py" 10 "Python");
                            ("B.PY", FileNode "src/B.PY" 20 "Python") ]);
                ("README", FileNode "README" 7 "Unknown");
                ("docs", DirNode "docs" []) ]).
Proof. reflexivity. Qed.



(** ** Which exceptions leave the tree builder *)

Section Propagation.
Variable repo : Repo.

(** A round of the loop ends in one of three ways: it runs out of fuel, it
    stores a node, or an attribute is missing. *)
Lemma build_entry_outcome (rec : Contents -> M Tree) (tree : Tree)
      (c : ContentFile) :
  match build_entry repo rec tree c with
  | None => True
  | Some (Ret _) => readable c = true
  | Some (Raise e) => e = AttributeError /\ readable c = false
  end.
Proof.
  unfold build_entry, readable.
  destruct c as [[ty |] nm pa sz co]; simpl; [| split; reflexivity].
  destruct (String.eqb ty "dir"); simpl.
  - destruct pa as [p |]; simpl.
    + destruct (repo p) as [sub | e]; simpl.
      * destruct (rec sub) as [[ch | e] |]; simpl; [| | exact I];
          destruct nm; simpl; auto.
      * destruct nm; simpl; auto.
    + destruct nm; split; reflexivity.
  - destruct pa, sz, nm; simpl; auto.
Qed.

Lemma for_each_build_unreadable (rec : Contents -> M Tree)
      (entries : list ContentFile) (c : ContentFile) :
  In c entries -> readable c = false ->
  forall tree r,
    for_each (build_entry repo rec) entries tree = Some r ->
    r = Raise AttributeError.
Proof.
  induction entries as [| c' entries IH]; intros Hin Hbad tree r;
    [destruct Hin |].
  simpl. pose proof (build_entry_outcome rec tree c') as Hout.
  destruct (build_entry repo rec tree c') as [[tree' | e] |]; simpl.
  - destruct Hin as [-> | Hin]; [congruence |]. apply (IH Hin Hbad).
  - destruct Hout as [-> _]. intros H. injection H as <-. reflexivity.
  - discriminate.
Qed.

Lemma build_unreadable_entry (depth fuel : nat) (root : list ContentFile)
      (c : ContentFile) :
  Bounded repo depth (Listing root) -> depth <= fuel ->
  In c root -> readable c = false ->
  _build_file_tree repo fuel (Listing root) = Some (Raise AttributeError).
Proof.
  intros Hb Hle Hin Hbad.
  pose proof (build_bounded repo depth _ Hb fuel Hle) as Hsome.
  destruct fuel as [| fuel]; [inversion Hb; lia |].
  simpl in *.
  destruct (for_each (build_entry repo (_build_file_tree repo fuel)) root [])
    as [r |] eqn:E; [| contradiction].
  rewrite (for_each_build_unreadable _ root c Hin Hbad [] r E). reflexivity.
Qed.

(** A directory entry with a name and a path never raises: whatever is
    raised by its listing or below it leaves it without children. *)
Lemma build_entry_dir_caught (rec : Contents -> M Tree) (tree : Tree)
      (d : ContentFile) (n p : string) :
  cf_type d = Some "dir" -> cf_name d = Some n -> cf_path d = Some p ->
  (forall e, repo p = Raise e ->
             build_entry repo rec tree d
             = Some (Ret (PyDict.set tree n (DirNode p []))))
  /\ (forall sub e, repo p = Ret sub -> rec sub = Some (Raise e) ->
                    build_entry repo rec tree d
                    = Some (Ret (PyDict.set tree n (DirNode p [])))).
Proof.
  intros Ht Hn Hp. unfold build_entry. rewrite Ht, Hn, Hp. simpl.
  split.
  - intros e He. rewrite He. reflexivity.
  - intros sub e Hr Hrec. rewrite Hr. simpl. rewrite Hrec. reflexivity.
Qed.

(** [_analyze_file_structure] swallows what [_build_file_tree] raises. *)
Lemma analyze_file_structure_warns (fuel : nat) (file_structure : Tree)
      (e : exn) :
  is_Exception e = true ->
  repo "" = Raise e
  \/ (exists contents,
         repo "" = Ret contents
         /\ _build_file_tree repo fuel contents = Some (Raise e)) ->
  _analyze_file_structure repo fuel file_structure = Some (Ret file_structure).
Proof.
  intros He [Hr | (contents & Hr & Hb)]; unfold _analyze_file_structure;
    rewrite Hr; simpl; [| rewrite Hb; simpl]; rewrite He; reflexivity.
Qed.

End Propagation.

(** C3 (amended).  An entry of the listing given to [_build_file_tree] that
    lacks an attribute the loop reads makes the call raise
    [AttributeError] to its caller.  Below a directory entry that has its
    name and path nothing propagates: a failure of its listing and any
    exception raised while its subtree is built, a malformed nested entry
    included, both leave the directory with an empty children mapping.
    The caller [_analyze_file_structure] catches what is raised, keeps the
    previous structure and returns normally. *)
Theorem build_propagates_only_top_level_errors :
  (forall repo depth fuel root c,
      Bounded repo depth (Listing root) -> depth <= fuel ->
      In c root -> readable c = false ->
      _build_file_tree repo fuel (Listing root) = Some (Raise AttributeError))
  /\ (forall repo rec tree d n p,
         cf_type d = Some "dir" -> cf_name d = Some n -> cf_path d = Some p ->
         (forall e, repo p = Raise e ->
                    build_entry repo rec tree d
                    = Some (Ret (PyDict.set tree n (DirNode p []))))
         /\ (forall sub e, repo p = Ret sub -> rec sub = Some (Raise e) ->
                           build_entry repo rec tree d
                           = Some (Ret (PyDict.set tree n (DirNode p [])))))
  /\ (forall repo fuel file_structure e,
         is_Exception e = true ->
         repo "" = Raise e
         \/ (exists contents,
                repo "" = Ret contents
                /\ _build_file_tree repo fuel contents = Some (Raise e)) ->
         _analyze_file_structure repo fuel file_structure
         = Some (Ret file_structure)).
Proof.
  split; [exact build_unreadable_entry |].
  split; [exact build_entry_dir_caught | exact analyze_file_structure_warns].
Qed.

Lemma build_propagates_only_top_level_errors_witness :
  _build_file_tree no_repo 1 (Listing broken_listing)
  = Some (Raise AttributeError)
  /\ build_entry broken_repo (_build_file_tree broken_repo 1) []
                 (dir_entry "gone" "gone")
     = Some (Ret [("gone", DirNode "gone" [])])
  /\ build_entry broken_repo (_build_file_tree broken_repo 1) []
                 (dir_entry "d" "d")
     = Some (Ret [("d", DirNode "d" [])])
  /\ _analyze_file_structure (fun _ => Ret (Listing broken_listing)) 1 []
     = Some (Ret []).
Proof.
  destruct build_propagates_only_top_level_errors as (H1 & H2 & H3).
  split.
  { apply (H1 no_repo 1 1 broken_listing shapeless_entry).
    - constructor. intros d sub [<- | [<- | []]] Hd; discriminate.
    - lia.
    - right. left. reflexivity.
    - reflexivity. }
  split.
  { destruct (H2 broken_repo (_build_file_tree broken_repo 1) []
                 (dir_entry "gone" "gone") "gone" "gone"
                 eq_refl eq_refl eq_refl) as [Hfail _].
    exact (Hfail GithubException eq_refl). }
  split.
  { destruct (H2 broken_repo (_build_file_tree broken_repo 1) []
                 (dir_entry "d" "d") "d" "d"
                 eq_refl eq_refl eq_refl) as [_ Hbelow].
    exact (Hbelow (Listing broken_listing) AttributeError eq_refl eq_refl). }
  apply (H3 (fun _ => Ret (Listing broken_listing)) 1 [] AttributeError).
  - reflexivity.
  - right. exists (Listing broken_listing). split; reflexivity.
Defined.

(** C3 as stated fails: the shapeless entry in the listing of [d] raises
    [AttributeError] while the subtree of [d] is built, and the call on the
    root still returns a tree. *)
Lemma build_swallows_malformed_nested_entry :
  ~ (forall (repo : Repo) (fuel : nat) (root : list ContentFile)
            (names : list string) (c : ContentFile),
        Reach repo root names c -> readable c = false ->
        forall t, _build_file_tree repo fuel (Listing root) <> Some (Ret t)).
Proof.
  intros H.
  apply (H broken_repo 2 broken_root ["d"; ""] shapeless_entry) with
    (t := [ ("d", DirNode "d" []); ("gone", DirNode "gone" []) ]).
  - apply (Reach_below broken_repo broken_root (dir_entry "d" "d")
                       broken_listing [""] shapeless_entry).
    + left. reflexivity.
    + reflexivity.
    + reflexivity.
    + apply (Reach_here broken_repo broken_listing shapeless_entry).
      right. left. reflexivity.
  - reflexivity.
  - reflexivity.
Qed.

(** ** The dependency walk *)

Lemma node_dependencies_from (file_path : string) (n : ast) (d : Dependency) :
  In d (node_dependencies file_path n) -> from_file d = file_path.
Proof.
  destruct n as [names | [m |] names lv | a | children]; simpl;
    try contradiction.
  - rewrite in_map_iff. intros (a & <- & _). reflexivity.
  - destruct (String.eqb m ""); [contradiction |].
    intros [<- | []]. reflexivity.
Qed.

Lemma line_dependencies_from (file_path line : string) (d : Dependency) :
  In d (line_dependencies file_path line) -> from_file d = file_path.
Proof.
  unfold line_dependencies. rewrite in_flat_map.
  intros (pattern & _ & H).
  destruct (Re.match_group1 pattern line); [| contradiction].
  destruct H as [<- | []]. reflexivity.
Qed.

Lemma fallback_from (content file_path : string) (d : Dependency) :
  In d (fallback content file_path) -> from_file d = file_path.
Proof.
  unfold fallback. rewrite in_flat_map. intros (line & _ & H).
  exact (line_dependencies_from _ _ _ H).
Qed.

Lemma extract_from (ast_parse : string -> result ast)
      (content file_path : string) (deps : list Dependency) :
  _extract_python_imports ast_parse content file_path = Ret deps ->
  forall d, In d deps -> from_file d = file_path.
Proof.
  unfold _extract_python_imports, primary, try_exceptR, bindR.
  destruct (ast_parse content) as [tree | e]; intros H; injection H as <-.
  - intros d. rewrite in_flat_map. intros (n & _ & Hd).
    exact (node_dependencies_from _ _ _ Hd).
  - intros d. apply fallback_from.
Qed.

Section Walk.
Variable repo : Repo.
Variable ast_parse : string -> result ast.
Variable b64decode_utf8 : string -> result string.

Lemma warn_keeps (file_path : string) (st : Analysis) (e : exn) :
  only_small repo st -> only_small repo (fst (warn file_path st e)).
Proof. unfold warn. destruct (is_Exception e); intros H; exact H. Qed.

(** A file above the threshold leaves the state of the walk as it was. *)
Lemma analyze_file_skips (st : Analysis) (file_path : string)
      (file_content : Contents) (size : Z) :
  repo file_path = Ret file_content ->
  size_of file_content = Ret size -> (size > 1000000)%Z ->
  analyze_file repo ast_parse b64decode_utf8 st file_path = (st, Ret tt).
Proof.
  intros Hr Hs Hbig. unfold analyze_file.
  rewrite Hr, Hs.
  destruct (Z.gtb_spec size 1000000) as [_ | Hle]; [reflexivity | lia].
Qed.

Lemma analyze_file_keeps (st : Analysis) (file_path : string) :
  only_small repo st ->
  only_small repo
             (fst (analyze_file repo ast_parse b64decode_utf8 st file_path)).
Proof.
  intros Hst. unfold analyze_file.
  destruct (repo file_path) as [fc | e] eqn:Er; [| apply warn_keeps; exact Hst].
  destruct (size_of fc) as [size | e] eqn:Es; [| apply warn_keeps; exact Hst].
  destruct (Z.gtb_spec size 1000000) as [Hbig | Hle]; [exact Hst |].
  destruct (content_of fc) as [c | e]; [| apply warn_keeps; exact Hst].
  assert (Hsmall : small_enough repo file_path).
  { exists fc, size. split; [exact Er |]. split; [| exact Hle].
    destruct fc as [l | f]; simpl in Es; [discriminate |].
    destruct (cf_size f); simpl in Es; [congruence | discriminate]. }
  assert (Hst1 : only_small repo (mkAnalysis (dependencies st)
                                        (decoded st ++ [file_path])
                                        (warned st))).
  { destruct Hst as [Hd Hp]. split; simpl; [exact Hd |].
    intros p Hin. apply in_app_or in Hin.
    destruct Hin as [Hin | [<- | []]]; [exact (Hp p Hin) | exact Hsmall]. }
  destruct (b64decode_utf8 c) as [content | e];
    [| apply warn_keeps; exact Hst1].
  destruct (_extract_python_imports ast_parse content file_path)
    as [deps | e] eqn:Ex; [| apply warn_keeps; exact Hst1].
  destruct Hst1 as [Hd Hp]. split; simpl in *; [| exact Hp].
  intros d Hin. apply in_app_or in Hin. destruct Hin as [Hin | Hin].
  - exact (Hd d Hin).
  - rewrite (extract_from _ _ _ _ Ex d Hin). exact Hsmall.
Qed.

Lemma analyze_files_keep (python_files : list string) (st : Analysis) :
  only_small repo st ->
  only_small repo
             (fst (analyze_files repo ast_parse b64decode_utf8
                                 python_files st)).
Proof.
  revert st. induction python_files as [| p rest IH]; intros st Hst;
    [exact Hst |].
  cbn [analyze_files].
  pose proof (analyze_file_keeps st p Hst) as Hp.
  destruct (analyze_file repo ast_parse b64decode_utf8 st p) as [st' [u | e]];
    simpl in Hp; [apply IH; exact Hp | exact Hp].
Qed.

Lemma analyze_dependencies_only_small (fuel : nat) (st : Analysis)
      (r : result unit) :
  _analyze_dependencies repo ast_parse b64decode_utf8 fuel = Some (st, r) ->
  only_small repo st.
Proof.
  unfold _analyze_dependencies.
  destruct (_get_files_by_extension repo ".py" fuel) as [files |];
    [| discriminate].
  pose proof (analyze_files_keep files (mkAnalysis [] [] [])) as H.
  destruct (analyze_files repo ast_parse b64decode_utf8 files _)
    as [st' [u | e]]; simpl in H.
  - intros E. injection E as <- _. apply H. split; intros ? [].
  - destruct (is_Exception e); intros E; injection E as <- _;
      apply H; split; intros ? [].
Qed.

End Walk.

(** C8.  A file whose fetched object reports a size above 1,000,000 is
    skipped by the loop of [_analyze_dependencies] before its content is
    read and decoded: the round leaves the dependencies and the log of
    decoded files as they were, and at the end of the walk no decoded text
    and no dependency edge belongs to that file. *)
Theorem large_files_are_skipped
        (repo : Repo) (ast_parse : string -> result ast)
        (b64decode_utf8 : string -> result string)
        (file_path : string) (file_content : Contents) (size : Z) :
  repo file_path = Ret file_content ->
  size_of file_content = Ret size ->
  (size > 1000000)%Z ->
  (forall st, analyze_file repo ast_parse b64decode_utf8 st file_path
              = (st, Ret tt))
  /\ (forall fuel st r,
         _analyze_dependencies repo ast_parse b64decode_utf8 fuel
         = Some (st, r) ->
         ~ In file_path (decoded st)
         /\ forall d, In d (dependencies st) -> from_file d <> file_path).
Proof.
  intros Hr Hs Hbig. split.
  - intros st. exact (analyze_file_skips repo ast_parse b64decode_utf8 st
                        file_path file_content size Hr Hs Hbig).
  - intros fuel st r Hrun.
    destruct (analyze_dependencies_only_small _ _ _ _ _ _ Hrun) as [Hd Hp].
    assert (Hno : ~ small_enough repo file_path).
    { intros (fc & size' & Hr' & Hsz & Hle). rewrite Hr in Hr'.
      injection Hr' as <-. destruct file_content as [l | f]; [exact Hsz |].
      simpl in Hs. rewrite Hsz in Hs. simpl in Hs. injection Hs as ->. lia. }
    split.
    + intros Hin. exact (Hno (Hp _ Hin)).
    + intros d Hin E. apply Hno. rewrite <- E. exact (Hd d Hin).
Qed.

Example analyze_sized_repo :
  _analyze_dependencies sized_repo reject_all plain_text 1
  = Some (mkAnalysis [mkDependency "small.py" "sys" "import"]
                     ["small.py"] [], Ret tt).
Proof. reflexivity. Qed.

Lemma large_files_are_skipped_witness :
  (forall st, analyze_file sized_repo reject_all plain_text st "big.py"
              = (st, Ret tt))
  /\ (forall fuel st r,
         _analyze_dependencies sized_repo reject_all plain_text fuel
         = Some (st, r) ->
         ~ In "big.py" (decoded st)
         /\ forall d, In d (dependencies st) -> from_file d <> "big.py").
Proof.
  apply (large_files_are_skipped sized_repo reject_all plain_text
           "big.py" (Single big_py) 2000000).
  - reflexivity.
  - reflexivity.
  - lia.
Defined.

(** ** The structured strategy *)

Lemma subnodes_aliases (names : list alias) :
  flat_map subnodes (map Alias names) = map Alias names.
Proof.
  induction names as [| a names IH]; simpl; [| rewrite IH]; reflexivity.
Qed.

Lemma subnodes_unfold (n : ast) :
  subnodes n = n :: flat_map subnodes (iter_child_nodes n).
Proof.
  destruct n as [names | m names lv | a | children]; simpl.
  - rewrite subnodes_aliases. reflexivity.
  - rewrite subnodes_aliases. reflexivity.
  - reflexivity.
  - reflexivity.
Qed.

(** [ast.walk] yields every node of the tree once. *)
Lemma walk_queue_visits (todo : list ast) :
  Permutation (walk_queue todo) (flat_map subnodes todo).
Proof.
  funelim (walk_queue todo); simp walk_queue; [constructor |].
  rewrite flat_map_app in H.
  cbn [flat_map]. rewrite (subnodes_unfold n). cbn [app].
  constructor. eapply perm_trans; [exact H |].
  apply Permutation_app_comm.
Qed.

Lemma walk_visits (tree : ast) : Permutation (walk tree) (subnodes tree).
Proof.
  unfold walk. eapply perm_trans; [apply walk_queue_visits |].
  simpl. rewrite app_nil_r. apply Permutation_refl.
Qed.

Lemma Permutation_flat_map_list {A B} (f : A -> list B) (l l' : list A) :
  Permutation l l' -> Permutation (flat_map f l) (flat_map f l').
Proof.
  induction 1 as [| x l l' _ IH | x y l | l l' l'' _ IH1 _ IH2]; simpl.
  - constructor.
  - apply Permutation_app_head. exact IH.
  - rewrite !app_assoc. apply Permutation_app_tail. apply Permutation_app_comm.
  - eapply perm_trans; eassumption.
Qed.

Lemma filter_length_perm {A} (p : A -> bool) (l l' : list A) :
  Permutation l l' -> List.length (filter p l) = List.length (filter p l').
Proof.
  induction 1 as [| x l l' _ IH | x y l | l l' l'' _ IH1 _ IH2]; simpl.
  - reflexivity.
  - destruct (p x); simpl; rewrite IH; reflexivity.
  - destruct (p x), (p y); reflexivity.
  - congruence.
Qed.

Lemma filter_length_flat_map {A B} (p : B -> bool) (f : A -> list B)
      (l : list A) :
  List.length (filter p (flat_map f l))
  = list_sum (map (fun x => List.length (filter p (f x))) l).
Proof.
  induction l as [| x l IH]; simpl; [reflexivity |].
  rewrite filter_app, length_app, IH. reflexivity.
Qed.

Lemma node_direct_count (file_path : string) (n : ast) :
  List.length (filter (has_type Direct) (node_dependencies file_path n))
  = imported_names n.
Proof.
  destruct n as [names | [m |] names lv | a | children]; simpl;
    try reflexivity.
  - induction names as [| a names IH]; simpl; [reflexivity |].
    rewrite IH. reflexivity.
  - destruct (String.eqb m ""); reflexivity.
Qed.

Lemma node_from_count (file_path : string) (n : ast) :
  List.length (filter (has_type FromImport) (node_dependencies file_path n))
  = if names_module n then 1 else 0.
Proof.
  destruct n as [names | [m |] names lv | a | children]; simpl;
    try reflexivity.
  - induction names as [| a names IH]; simpl; [reflexivity | exact IH].
  - destruct (String.eqb m ""); reflexivity.
Qed.

Lemma count_true (A : Type) (p : A -> bool) (l : list A) :
  list_sum (map (fun x => if p x then 1 else 0) l) = List.length (filter p l).
Proof.
  induction l as [| x l IH]; simpl; [reflexivity |].
  destruct (p x); simpl; rewrite IH; reflexivity.
Qed.

(** C4.  When the text parses, [_extract_python_imports] returns the edges
    of the nodes of the syntax tree, each node visited once: an [Import]
    node gives one ['import'] edge per imported name, an [ImportFrom] node
    that names a module gives exactly one ['from_import'] edge for that
    module, whatever the number of imported names, and an [ImportFrom]
    node with no module gives nothing; so the ['import'] edges are as many
    as the imported names of the [Import] nodes and the ['from_import']
    edges as many as the [ImportFrom] nodes that name a module. *)
Theorem structured_parse_edges
        (ast_parse : string -> result ast) (content file_path : string)
        (tree : ast) :
  ast_parse content = Ret tree ->
  exists edges : list Dependency,
    _extract_python_imports ast_parse content file_path = Ret edges
    /\ Permutation edges
                   (flat_map (node_dependencies file_path) (subnodes tree))
    /\ List.length (filter (has_type Direct) edges)
       = list_sum (map imported_names (subnodes tree))
    /\ List.length (filter (has_type FromImport) edges)
       = List.length (filter names_module (subnodes tree))
    /\ (forall names,
           node_dependencies file_path (Import names)
           = map (fun a => mkDependency file_path (alias_name a) Direct) names)
    /\ (forall m names level,
           m <> "" ->
           node_dependencies file_path (ImportFrom (Some m) names level)
           = [mkDependency file_path m FromImport])
    /\ (forall names level,
           node_dependencies file_path (ImportFrom None names level) = []).
Proof.
  intros Hparse.
  exists (flat_map (node_dependencies file_path) (walk tree)).
  assert (HP : Permutation
                 (flat_map (node_dependencies file_path) (walk tree))
                 (flat_map (node_dependencies file_path) (subnodes tree))).
  { apply Permutation_flat_map_list. apply walk_visits. }
  split.
  { unfold _extract_python_imports, primary. rewrite Hparse. reflexivity. }
  split; [exact HP |].
  split.
  { rewrite (filter_length_perm _ _ _ HP), filter_length_flat_map.
    f_equal. apply map_ext. intros n. apply node_direct_count. }
  split.
  { rewrite (filter_length_perm _ _ _ HP), filter_length_flat_map.
    rewrite <- count_true. f_equal. apply map_ext. intros n.
    apply node_from_count. }
  split; [reflexivity |].
  split; [| reflexivity].
  intros m names level Hm. simpl.
  destruct (String.eqb_spec m ""); [contradiction | reflexivity].
Qed.

Example extract_two_imports :
  _extract_python_imports tiny_parser two_imports "app.py"
  = Ret [ mkDependency "app.py" "os" Direct;
          mkDependency "app.py" "collections" FromImport ].
Proof. reflexivity. Qed.

(** A relative import that names a module ([from .pkg import x]) gives an
    edge to the name written after the dots; one without a module
    ([from . import x]) gives none. *)
Example relative_imports :
  node_dependencies "a.py" (ImportFrom (Some "pkg") [mkAlias "x" None] 1)
  = [mkDependency "a.py" "pkg" FromImport]
  /\ node_dependencies "a.py" (ImportFrom None [mkAlias "x" None] 1) = [].
Proof. split; reflexivity. Qed.

Lemma structured_parse_edges_witness :
  exists edges : list Dependency,
    _extract_python_imports tiny_parser two_imports "app.py" = Ret edges
    /\ Permutation edges
                   (flat_map (node_dependencies "app.py")
                             (subnodes two_imports_tree))
    /\ List.length (filter (has_type Direct) edges)
       = list_sum (map imported_names (subnodes two_imports_tree))
    /\ List.length (filter (has_type FromImport) edges)
       = List.length (filter names_module (subnodes two_imports_tree))
    /\ (forall names,
           node_dependencies "app.py" (Import names)
           = map (fun a => mkDependency "app.py" (alias_name a) Direct) names)
    /\ (forall m names level,
           m <> "" ->
           node_dependencies "app.py" (ImportFrom (Some m) names level)
           = [mkDependency "app.py" m FromImport])
    /\ (forall names level,
           node_dependencies "app.py" (ImportFrom None names level) = []).
Proof.
  apply (structured_parse_edges tiny_parser two_imports "app.py"
                                two_imports_tree).
  reflexivity.
Defined.

(** ** The fallback scan *)

Lemma give_back_found (continue : string -> option (list string))
      (min : nat) (group : bool) (s : string) (j : nat)
      (groups : list string) :
  Re.give_back continue min group s j = Some groups ->
  exists i, i <= j /\ min <= i /\ continue (PyStr.drop i s) <> None.
Proof.
  induction j as [| j IH]; cbn [Re.give_back].
  - destruct (Nat.ltb_spec 0 min); [discriminate |].
    destruct (continue (PyStr.drop 0 s)) eqn:E; [| discriminate].
    intros _. exists 0. split; [lia |]. split; [lia | congruence].
  - destruct (Nat.ltb_spec (S j) min); [discriminate |].
    destruct (continue (PyStr.drop (S j) s)) eqn:E.
    + intros _. exists (S j). split; [lia |]. split; [lia | congruence].
    + intros H'. destruct (IH H') as (i & Hi & Hmin & Hc).
      exists i. split; [lia |]. split; [lia | exact Hc].
Qed.

(** Inside the run of a class the next character is in the class. *)
Lemma drop_inside_run (cls : ascii -> bool) (s : string) (i : nat) :
  i < Re.run cls s ->
  exists c rest, PyStr.drop i s = String c rest /\ cls c = true.
Proof.
  revert s. induction i as [| i IH]; intros s Hi.
  - destruct s as [| c s]; simpl in Hi; [lia |].
    destruct (cls c) eqn:E; [| lia]. exists c, s.
    split; [reflexivity | exact E].
  - destruct s as [| c s]; simpl in Hi; [lia |].
    destruct (cls c); [| lia]. simpl. apply IH. lia.
Qed.

(** After leading characters of a class, a literal that starts outside
    the class is found right where the run of the class ends. *)
Lemma match_after_run (cls : ascii -> bool) (group : bool) (c : ascii)
      (l : string) (rest : Re.pattern) (s : string) (groups : list string) :
  cls c = false ->
  Re.match_items (Re.Rep 0 cls group :: Re.Lit (String c l) :: rest) s
  = Some groups ->
  exists tail, PyStr.drop (Re.run cls s) s = String c tail.
Proof.
  intros Hc H. cbn [Re.match_items] in H.
  destruct (give_back_found _ _ _ _ _ _ H) as (i & Hi & _ & Hm).
  destruct (String.prefix (String c l) (PyStr.drop i s)) eqn:Ep;
    [| contradiction Hm; reflexivity].
  destruct (Nat.eq_dec i (Re.run cls s)) as [-> | Hne].
  - destruct (PyStr.drop (Re.run cls s) s) as [| a tail]; [discriminate |].
    simpl in Ep. destruct (Ascii.ascii_dec c a) as [-> | ]; [| discriminate].
    exists tail. reflexivity.
  - destruct (drop_inside_run cls s i) as (a & tail & Ed & Ha); [lia |].
    rewrite Ed in Ep. simpl in Ep.
    destruct (Ascii.ascii_dec c a) as [-> | ]; [congruence | discriminate].
Qed.

(** The two patterns never match the same line, so a line gives at most
    one edge although the loop over the patterns has no [break]. *)
Lemma line_at_most_one (file_path line : string) :
  List.length (line_dependencies file_path line) <= 1.
Proof.
  unfold line_dependencies, import_patterns. cbn [flat_map].
  rewrite app_nil_r, length_app.
  destruct (Re.match_group1 import_line_pattern line) as [g1 |] eqn:G1;
    destruct (Re.match_group1 from_line_pattern line) as [g2 |] eqn:G2;
    cbn [List.length]; try lia.
  exfalso. unfold Re.match_group1 in G1, G2.
  destruct (Re.match_items import_line_pattern line) as [gs1 |] eqn:E1;
    [| discriminate].
  destruct (Re.match_items from_line_pattern line) as [gs2 |] eqn:E2;
    [| discriminate].
  unfold import_line_pattern in E1. unfold from_line_pattern in E2.
  destruct (match_after_run Re.is_space false "i" "mport" _ line gs1
                            eq_refl E1) as (t1 & H1).
  destruct (match_after_run Re.is_space false "f" "rom" _ line gs2
                            eq_refl E2) as (t2 & H2).
  rewrite H1 in H2. discriminate.
Qed.

(** Every edge of the fallback carries ['import'], also the edges of the
    lines that match the [from ... import] pattern. *)
Lemma fallback_always_import (content file_path : string) (d : Dependency) :
  In d (fallback content file_path) -> import_type d = Direct.
Proof.
  unfold fallback. rewrite in_flat_map. intros (line & _ & H).
  unfold line_dependencies in H. rewrite in_flat_map in H.
  destruct H as (pattern & _ & H).
  destruct (Re.match_group1 pattern line); [| contradiction].
  destruct H as [<- | []]. reflexivity.
Qed.

Lemma fallback_empty (file_path : string) : fallback "" file_path = [].
Proof. reflexivity. Qed.

(** C1.  On the text [from os import path] followed by a line that does
    not parse, the parser fails and the fallback scan records the module
    [os] with ['import'], the kind of a direct import, where the
    specification asks for the kind of a from-import. *)
Theorem fallback_from_line_is_direct :
  _extract_python_imports reject_all broken_from_source "a.py"
  = Ret [mkDependency "a.py" "os" Direct]
  /\ Direct <> FromImport.
Proof. split; [reflexivity | discriminate]. Qed.

Example fallback_broken_source :
  _extract_python_imports reject_all broken_source "a.py"
  = Ret [mkDependency "a.py" "sys" Direct].
Proof. reflexivity. Qed.

(** ** The extractor as a whole *)

(** C5 (amended).  [_extract_python_imports] returns a sequence of edges
    and raises nothing, for every parser, text and file path; when the
    parser raises, whatever the exception, the result is what the
    fallback scan finds in the text; on the empty text the result is the
    empty sequence, both when the parser answers a module without
    statements and when it raises. *)
Theorem extract_never_raises
        (ast_parse : string -> result ast) (content file_path : string) :
  (exists edges, _extract_python_imports ast_parse content file_path
                 = Ret edges)
  /\ (forall e, ast_parse content = Raise e ->
                _extract_python_imports ast_parse content file_path
                = Ret (fallback content file_path))
  /\ (ast_parse "" = Ret (Node []) \/ (exists e, ast_parse "" = Raise e) ->
      _extract_python_imports ast_parse "" file_path = Ret []).
Proof.
  unfold _extract_python_imports, primary, try_exceptR, bindR.
  split; [| split].
  - destruct (ast_parse content); eexists; reflexivity.
  - intros e He. rewrite He. reflexivity.
  - intros [H | [e H]]; rewrite H; reflexivity.
Qed.

Lemma extract_never_raises_witness :
  (exists edges, _extract_python_imports tiny_parser broken_source "a.py"
                 = Ret edges)
  /\ (forall e, tiny_parser broken_source = Raise e ->
                _extract_python_imports tiny_parser broken_source "a.py"
                = Ret (fallback broken_source "a.py"))
  /\ (tiny_parser "" = Ret (Node []) \/ (exists e, tiny_parser "" = Raise e) ->
      _extract_python_imports tiny_parser "" "a.py" = Ret []).
Proof. exact (extract_never_raises tiny_parser broken_source "a.py"). Defined.

(** C5 as stated fails: an unexpected error of the structured strategy,
    one that is not the failure to parse, does not give an empty
    sequence.  When the parser raises [ValueError] on a text that holds
    an import line, the result is the edge that the fallback scan
    finds. *)
Lemma parse_error_gives_fallback_edges :
  ~ (forall (ast_parse : string -> result ast) (content file_path : string)
            (e : exn),
        e <> SyntaxError ->
        ast_parse content = Raise e ->
        _extract_python_imports ast_parse content file_path = Ret []).
Proof.
  intros H.
  assert (Hne : ValueError <> SyntaxError) by discriminate.
  specialize (H crashing_parser import_then_null "a.py" ValueError Hne
                eq_refl).
  vm_compute in H. discriminate H.
Qed.

(** ** Files by extension *)

(** Induction on a tree and on its nodes together. *)
Lemma node_tree_ind (P : node -> Prop) (Q : Tree -> Prop) :
  (forall p s lang, P (FileNode p s lang)) ->
  (forall p children, Q children -> P (DirNode p children)) ->
  Q [] ->
  (forall n d l, P d -> Q l -> Q ((n, d) :: l)) ->
  (forall d, P d) /\ (forall t, Q t).
Proof.
  intros Hfile Hdir Hnil Hcons.
  assert (on_node : forall d, P d).
  { refine (fix on_node (d : node) : P d :=
              match d with
              | FileNode p s lang => Hfile p s lang
              | DirNode p children =>
                  Hdir p children
                       ((fix on_tree (t : Tree) : Q t :=
                           match t with
                           | [] => Hnil
                           | (n, d') :: l =>
                               Hcons n d' l (on_node d') (on_tree l)
                           end) children)
              end). }
  split; [exact on_node |].
  induction t as [| [n d] l IH]; [exact Hnil |].
  exact (Hcons n d l (on_node d) IH).
Qed.

Lemma node_files_dir (keep : string -> bool) (name path : string)
      (children : Tree) :
  node_files keep name (DirNode path children) = tree_files keep children.
Proof.
  simpl. unfold tree_files.
  induction children as [| [n d] l IH]; simpl; [reflexivity |].
  rewrite IH. reflexivity.
Qed.

(** [tree_files] is the pre-order enumeration of the tree, filtered. *)
Lemma tree_files_preorder (keep : string -> bool) (t : Tree) :
  tree_files keep t = flat_map (wanted_path keep) (tree_items t).
Proof.
  revert t.
  apply (node_tree_ind
           (fun d => forall n, node_files keep n d
                               = flat_map (wanted_path keep) (node_items n d))
           (fun t => tree_files keep t
                     = flat_map (wanted_path keep) (tree_items t))).
  - intros p s lang n. simpl. unfold wanted_path. simpl.
    destruct (keep n); reflexivity.
  - intros p children IH n.
    rewrite node_files_dir, node_items_dir, IH. reflexivity.
  - reflexivity.
  - intros n d l Hd Hl. unfold tree_files, tree_items in *.
    cbn [flat_map fst snd]. rewrite flat_map_app, Hd, Hl. reflexivity.
Qed.

Lemma flat_map_of_map {A B C} (g : A -> B) (h : B -> list C) (l : list A) :
  flat_map h (map g l) = flat_map (fun x => h (g x)) l.
Proof. induction l as [| x l IH]; simpl; [| rewrite IH]; reflexivity. Qed.

Section SearchFacts.
Variable repo : Repo.
Variable extension : string.

Lemma search_each_app {X} (body : list string -> X ->
                                  option (list string * result unit))
      (xs : list X) (files : list string) (f : X -> list string) :
  (forall x acc, In x xs -> body acc x = Some (acc ++ f x, Ret tt)) ->
  search_each body xs files = Some (files ++ flat_map f xs, Ret tt).
Proof.
  revert files. induction xs as [| x xs IH]; intros files H; simpl.
  - rewrite app_nil_r. reflexivity.
  - rewrite (H x files (or_introl eq_refl)).
    rewrite IH; [rewrite <- app_assoc; reflexivity |].
    intros y acc Hy. apply H. right. exact Hy.
Qed.

(** One entry of a good listing: the search appends what the node of the
    entry holds. *)
Lemma search_entry_node (rec : Contents -> Search)
      (build : Contents -> M Tree) (files : list string) (c : ContentFile) :
  well_formed c = true -> is_file c || is_dir c = true ->
  (is_dir c = true -> forall sub,
       repo (path_of c) = Ret sub ->
       match build sub with
       | Some (Ret t) =>
           rec sub files
           = Some (files ++ tree_files (ends_in extension) t, Ret tt)
       | Some (Raise _) => exists files' r, rec sub files = Some (files', r)
                                            /\ files' = files
       | None => False
       end) ->
  search_entry repo extension rec files c
  = Some (files ++ node_files (ends_in extension) (name_of c)
                              (entry_node repo build c), Ret tt).
Proof.
  intros Hwf Hkind Hrec.
  unfold search_entry, is_wanted_file, entry_node, well_formed, is_file,
    is_dir, name_of, path_of, reported_size, ends_in in *.
  destruct c as [[ty |] [nm |] [pa |] [sz |] co]; simpl in *;
    try discriminate.
  destruct (String.eqb_spec ty "file") as [-> | Hnf]; simpl.
  - destruct (PyStr.endswith nm extension); simpl; [reflexivity |].
    rewrite app_nil_r. reflexivity.
  - simpl in Hkind. rewrite Hkind in *.
    destruct (repo pa) as [sub | e]; [| rewrite app_nil_r; reflexivity].
    specialize (Hrec eq_refl sub eq_refl).
    destruct (build sub) as [[t | e] |]; [| | contradiction].
    + rewrite Hrec. rewrite node_files_dir. reflexivity.
    + destruct Hrec as (files' & r & -> & ->). simpl.
      rewrite app_nil_r. reflexivity.
Qed.

Lemma search_matches_build (fuel : nat) :
  forall (depth : nat) (l : list ContentFile) (files : list string),
    Bounded repo depth (Listing l) -> depth <= fuel ->
    (forall l', Listed repo l l' -> listing_ok l' /\ files_and_dirs l') ->
    exists t : Tree,
      _build_file_tree repo fuel (Listing l) = Some (Ret t)
      /\ search_contents repo extension fuel (Listing l) files
         = Some (files ++ tree_files (ends_in extension) t, Ret tt).
Proof.
  induction fuel as [| fuel IH]; intros depth l files Hb Hle Hgood.
  { inversion Hb; subst; lia. }
  inversion Hb as [| depth' l0 Hsub]; subst.
  destruct (Hgood l (Listed_root repo l)) as [Hok Hkinds].
  assert (Hfuel : forall c sub, In c l -> is_dir c = true ->
                    repo (path_of c) = Ret sub ->
                    _build_file_tree repo fuel sub <> None).
  { intros c sub Hc Hd Hr.
    apply (build_bounded repo depth' sub (Hsub c sub Hc Hd Hr)). lia. }
  eexists. split; [apply (build_listing_ok repo fuel l Hok Hfuel) |].
  cbn [search_contents].
  rewrite (search_each_app _ l files
             (fun c => node_files (ends_in extension) (name_of c)
                         (entry_node repo (_build_file_tree repo fuel) c))).
  - unfold tree_files. rewrite flat_map_of_map. reflexivity.
  - intros c acc Hc. destruct Hok as [Hwf Hnd].
    unfold files_and_dirs in Hkinds. rewrite Forall_forall in Hwf, Hkinds.
    apply search_entry_node; [exact (Hwf c Hc) | exact (Hkinds c Hc) |].
    intros Hd sub Hr.
    pose proof (Hsub c sub Hc Hd Hr) as Hbsub.
    destruct sub as [l' | f].
    + destruct (IH depth' l' acc Hbsub) as (t' & Ht' & Hs'); [lia | |].
      * intros l'' Hl''. apply Hgood.
        apply (Listed_trans repo l l' l''); [| exact Hl''].
        exact (Listed_sub repo l l c l' (Listed_root repo l) Hc Hd Hr).
      * rewrite Ht'. exact Hs'.
    + inversion Hbsub; subst.
      destruct fuel as [| fuel']; [lia |]. simpl.
      exists acc, (Raise TypeError). split; reflexivity.
Qed.

End SearchFacts.

(** C6 (amended).  When the remote tree is finitely deep and its listings
    hold well-formed entries of type [file] or [dir] with pairwise
    distinct names, [_get_files_by_extension] returns exactly the paths of
    the [File] nodes of the built tree whose name ends in the extension,
    compared character by character (case matters), in the depth-first
    pre-order of the tree. *)
Theorem files_by_extension_of_built_tree
        (repo : Repo) (extension : string) (depth fuel : nat)
        (root : list ContentFile) :
  repo "" = Ret (Listing root) ->
  Bounded repo depth (Listing root) ->
  depth <= fuel ->
  (forall l, Listed repo root l -> listing_ok l /\ files_and_dirs l) ->
  exists t : Tree,
    _build_file_tree repo fuel (Listing root) = Some (Ret t)
    /\ _analyze_file_structure repo fuel [] = Some (Ret t)
    /\ _get_files_by_extension repo extension fuel
       = Some (flat_map (wanted_path (ends_in extension)) (tree_items t)).
Proof.
  intros Hroot Hb Hle Hgood.
  destruct (search_matches_build repo extension fuel depth root [] Hb Hle Hgood)
    as (t & Ht & Hs).
  exists t. split; [exact Ht |]. split.
  - unfold _analyze_file_structure. rewrite Hroot. simpl. rewrite Ht.
    reflexivity.
  - unfold _get_files_by_extension. rewrite Hroot, Hs. simpl.
    rewrite tree_files_preorder. reflexivity.
Qed.

Lemma sample_repo_good (l : list ContentFile) :
  Listed sample_repo sample_root l -> listing_ok l /\ files_and_dirs l.
Proof.
  intros H. split; [exact (sample_repo_ok l H) |].
  destruct (sample_repo_listed l H) as [-> | ->]; repeat constructor.
Qed.

Lemma files_by_extension_of_built_tree_witness :
  exists t : Tree,
    _build_file_tree sample_repo 2 (Listing sample_root) = Some (Ret t)
    /\ _analyze_file_structure sample_repo 2 [] = Some (Ret t)
    /\ _get_files_by_extension sample_repo ".py" 2
       = Some (flat_map (wanted_path (ends_in ".py")) (tree_items t)).
Proof.
  apply (files_by_extension_of_built_tree sample_repo ".py" 2 2 sample_root).
  - reflexivity.
  - exact sample_repo_bounded.
  - lia.
  - exact sample_repo_good.
Defined.

Example get_py_files_sample_repo :
  _get_files_by_extension sample_repo ".py" 2 = Some ["src/a.py"].
Proof. reflexivity. Qed.

(** C6 as stated fails: the file [B.PY] of [sample_repo] is a [File] node
    whose name ends in [.py] when case is ignored, and the search for
    [".py"] does not return its path. *)
Lemma files_by_extension_is_case_sensitive :
  ~ (forall (repo : Repo) (extension : string) (fuel : nat) (t : Tree),
        _analyze_file_structure repo fuel [] = Some (Ret t) ->
        _get_files_by_extension repo extension fuel
        = Some (flat_map (wanted_path (ends_in_ignoring_case extension))
                         (tree_items t))).
Proof.
  intros H.
  specialize (H sample_repo ".py" 2 _ eq_refl).
  vm_compute in H. discriminate H.
Qed.

(* ===================================================================== *)
(** * Further properties of the code *)
(* ===================================================================== *)

(** ** The built tree is made of dictionaries *)

Lemma keys_set_In {V} (d : PyDict.dict V) (k k0 : string) (v : V) :
  In k0 (PyDict.keys (PyDict.set d k v)) <-> In k0 (PyDict.keys d) \/ k0 = k.
Proof.
  induction d as [| [k' v'] d IH]; simpl.
  - split; [intros [E | []]; right; auto | intros [[] | E]; left; auto].
  - destruct (String.eqb_spec k k') as [-> | Hne]; simpl.
    + split; [intros H; left; exact H |].
      intros [H | ->]; [exact H | left; reflexivity].
    + rewrite IH. tauto.
Qed.

Lemma keys_set_NoDup {V} (d : PyDict.dict V) (k : string) (v : V) :
  NoDup (PyDict.keys d) -> NoDup (PyDict.keys (PyDict.set d k v)).
Proof.
  induction d as [| [k' v'] d IH]; simpl; intros H.
  - constructor; [intros [] | constructor].
  - inversion H as [| ? ? Hnotin Hnd]; subst.
    destruct (String.eqb_spec k k') as [-> | Hne]; simpl.
    + constructor; assumption.
    + constructor; [| exact (IH Hnd)].
      intros Hin. apply keys_set_In in Hin.
      destruct Hin as [Hin | E]; [exact (Hnotin Hin) | congruence].
Qed.

Section MappingFacts.
Variable repo : Repo.

Lemma for_each_build_mapping (rec : Contents -> M Tree)
      (entries : list ContentFile) :
  (forall sub t, rec sub = Some (Ret t) -> Mapping t) ->
  forall tree tree',
    Mapping tree ->
    for_each (build_entry repo rec) entries tree = Some (Ret tree') ->
    Mapping tree'.
Proof.
  intros Hrec. induction entries as [| c entries IH]; intros tree tree' Hm;
    simpl.
  - intros H. injection H as <-. exact Hm.
  - destruct (build_entry repo rec tree c) as [[tree1 | e] |] eqn:E; simpl;
      try discriminate.
    apply IH.
    destruct (build_entry_inv repo rec tree tree1 c E)
      as (v & -> & _ & _ & Hcase).
    destruct Hm as [tree Hnd Hsub]. constructor.
    + apply keys_set_NoDup. exact Hnd.
    + intros n p children Hin.
      destruct (In_set _ _ _ _ _ Hin) as [Hold | [_ Hv]];
        [exact (Hsub n p children Hold) |].
      destruct Hcase as [(_ & _ & ->) | (_ & ch & -> & Hch)];
        [discriminate Hv |].
      injection Hv as _ ->.
      destruct Hch as [-> | (sub & _ & Hr)].
      * constructor; [constructor | intros ? ? ? []].
      * exact (Hrec sub ch Hr).
Qed.

Lemma build_mapping (fuel : nat) :
  forall contents t,
    _build_file_tree repo fuel contents = Some (Ret t) -> Mapping t.
Proof.
  induction fuel as [| fuel IH]; intros contents t; simpl; [discriminate |].
  destruct contents as [entries | f]; simpl; [| discriminate].
  apply (for_each_build_mapping (_build_file_tree repo fuel) entries IH).
  constructor; [constructor | intros ? ? ? []].
Qed.

End MappingFacts.

(** X1.  Whatever the repository answers, a tree returned by
    [_build_file_tree] is made of dictionaries: at every depth the names
    of one children mapping are pairwise distinct. *)
Theorem built_tree_names_are_unique
        (repo : Repo) (fuel : nat) (contents : Contents) (t : Tree) :
  _build_file_tree repo fuel contents = Some (Ret t) -> Mapping t.
Proof. exact (build_mapping repo fuel contents t). Qed.

Lemma built_tree_names_are_unique_witness :
  Mapping [ ("d", DirNode "d" []); ("gone", DirNode "gone" []) ].
Proof.
  exact (built_tree_names_are_unique broken_repo 2 (Listing broken_root) _
                                     eq_refl).
Defined.

(** ** A repeated name: the later entry wins *)

Section LastWins.
Variable repo : Repo.

Lemma build_entry_ret (rec : Contents -> M Tree) (tree tree' : Tree)
      (c : ContentFile) :
  build_entry repo rec tree c = Some (Ret tree') ->
  tree' = record_entry repo rec tree c.
Proof.
  unfold build_entry, record_entry, entry_node, is_dir, name_of, path_of,
    reported_size.
  destruct c as [[ty |] nm pa sz co]; simpl; [| discriminate].
  destruct (String.eqb ty "dir").
  - destruct pa as [p |]; simpl; [| discriminate].
    destruct (repo p) as [sub | e]; simpl.
    + destruct (rec sub) as [[ch | e] |]; simpl; [| | discriminate];
        (destruct nm as [n |]; simpl; [| discriminate]);
        intros H; injection H as <-; reflexivity.
    + destruct nm as [n |]; simpl; [| discriminate].
      intros H. injection H as <-. reflexivity.
  - destruct pa as [p |], sz as [s |], nm as [n |]; simpl; try discriminate.
    intros H. injection H as <-. reflexivity.
Qed.

Lemma for_each_build_ret (rec : Contents -> M Tree)
      (entries : list ContentFile) :
  forall tree tree',
    for_each (build_entry repo rec) entries tree = Some (Ret tree') ->
    tree' = fold_left (record_entry repo rec) entries tree.
Proof.
  induction entries as [| c entries IH]; intros tree tree'; simpl.
  - intros H. injection H as <-. reflexivity.
  - destruct (build_entry repo rec tree c) as [[tree1 | e] |] eqn:E; simpl;
      try discriminate.
    rewrite <- (build_entry_ret rec tree tree1 c E). apply IH.
Qed.

Lemma lookup_fold_record (rec : Contents -> M Tree)
      (entries : list ContentFile) (n : string) :
  forall tree,
    PyDict.lookup n (fold_left (record_entry repo rec) entries tree)
    = match last_named n entries with
      | Some c => Some (entry_node repo rec c)
      | None => PyDict.lookup n tree
      end.
Proof.
  induction entries as [| c entries IH]; intros tree; simpl; [reflexivity |].
  rewrite IH. destruct (last_named n entries); [reflexivity |].
  unfold record_entry.
  destruct (String.eqb_spec (name_of c) n) as [<- | Hne].
  - apply lookup_set_same.
  - apply lookup_set_other. congruence.
Qed.

End LastWins.

(** X2.  When [_build_file_tree] returns a tree for a listing, the node
    stored under a name is the node of the last entry of the listing that
    bears this name, so that a repeated name keeps the later entry only;
    a name that no entry bears is not in the tree. *)
Theorem later_entry_of_a_name_wins
        (repo : Repo) (fuel : nat) (entries : list ContentFile) (t : Tree)
        (n : string) :
  _build_file_tree repo (S fuel) (Listing entries) = Some (Ret t) ->
  PyDict.lookup n t
  = option_map (entry_node repo (_build_file_tree repo fuel))
               (last_named n entries).
Proof.
  simpl. intros H.
  rewrite (for_each_build_ret repo _ entries [] t H), lookup_fold_record.
  destruct (last_named n entries); reflexivity.
Qed.

Lemma later_entry_of_a_name_wins_witness :
  PyDict.lookup "a.py" [("a.py", FileNode "a.py" 20 "Python")]
  = option_map (entry_node no_repo (_build_file_tree no_repo 0))
               (last_named "a.py" same_name_twice).
Proof.
  exact (later_entry_of_a_name_wins no_repo 0 same_name_twice _ "a.py"
                                    eq_refl).
Defined.

(** ** Counting files at every depth *)

Lemma count_data_dir (p : string) (children : Tree) :
  count_data (DirNode p children) = _count_files children.
Proof.
  unfold _count_files. simpl. generalize 0%Z.
  induction children as [| [n d] l IH]; intros a; simpl; [reflexivity |].
  apply IH.
Qed.

Lemma count_files_items (t : Tree) :
  _count_files t = Z.of_nat (List.length (filter is_file_item (tree_items t))).
Proof.
  revert t.
  apply (node_tree_ind
           (fun d => forall n,
                count_data d
                = Z.of_nat (List.length (filter is_file_item (node_items n d))))
           (fun t => _count_files t
                     = Z.of_nat (List.length
                                   (filter is_file_item (tree_items t))))).
  - intros p s lang n. reflexivity.
  - intros p children IH n. rewrite count_data_dir, node_items_dir.
    cbn [filter is_file_item snd]. exact IH.
  - reflexivity.
  - intros n d l Hd Hl. rewrite count_files_cons, (Hd n), Hl.
    unfold tree_items. cbn [flat_map fst snd].
    rewrite filter_app, length_app. lia.
Qed.

(** X3.  [_count_files] is the number of [File] nodes of the tree at any
    depth: a directory counts for the files below it and not for itself,
    and the count is never negative. *)
Theorem count_files_counts_file_nodes (t : Tree) :
  _count_files t = Z.of_nat (List.length (filter is_file_item (tree_items t)))
  /\ (0 <= _count_files t)%Z.
Proof. rewrite count_files_items. split; [reflexivity | lia]. Qed.

(** ** What the search for files returns *)

Section SearchSound.
Variable repo : Repo.
Variable extension : string.

Lemma search_each_extends {X} (P : string -> Prop)
      (body : list string -> X -> option (list string * result unit))
      (xs : list X) :
  (forall x acc acc' r,
      In x xs -> body acc x = Some (acc', r) ->
      exists extra, acc' = acc ++ extra /\ Forall P extra) ->
  forall files files' r,
    search_each body xs files = Some (files', r) ->
    exists extra, files' = files ++ extra /\ Forall P extra.
Proof.
  induction xs as [| x xs IH]; intros Hbody files files' r; simpl.
  - intros H. injection H as <- _. exists []. rewrite app_nil_r.
    split; [reflexivity | constructor].
  - destruct (body files x) as [[files1 [u | e]] |] eqn:E; try discriminate.
    + intros H.
      destruct (Hbody x files files1 (Ret u) (or_introl eq_refl) E)
        as (e1 & -> & H1).
      destruct (IH (fun y acc acc' r' Hy => Hbody y acc acc' r' (or_intror Hy))
                   _ _ _ H) as (e2 & -> & H2).
      exists (e1 ++ e2). rewrite app_assoc. split; [reflexivity |].
      apply Forall_app. split; assumption.
    + intros H. injection H as <- _.
      exact (Hbody x files files1 (Raise e) (or_introl eq_refl) E).
Qed.

Lemma found_below (l sub : list ContentFile) (d : ContentFile) (p : string) :
  In d l -> is_dir d = true -> repo (path_of d) = Ret (Listing sub) ->
  found_in_walk repo extension sub p -> found_in_walk repo extension l p.
Proof.
  intros Hd Hdir Hr (l' & c & n & Hl' & Hrest).
  exists l', c, n. split; [| exact Hrest].
  apply (Listed_trans repo l sub l'); [| exact Hl'].
  exact (Listed_sub repo l l d sub (Listed_root repo l) Hd Hdir Hr).
Qed.

Lemma search_sound (fuel : nat) :
  forall (l : list ContentFile) (files files' : list string) (r : result unit),
    search_contents repo extension fuel (Listing l) files = Some (files', r) ->
    exists extra,
      files' = files ++ extra /\ Forall (found_in_walk repo extension l) extra.
Proof.
  induction fuel as [| fuel IH]; intros l files files' r; [discriminate |].
  cbn [search_contents].
  apply search_each_extends. clear files files' r.
  intros c acc acc' r Hc.
  assert (Hnone : exists extra : list string,
             acc = acc ++ extra
             /\ Forall (found_in_walk repo extension l) extra).
  { exists []. rewrite app_nil_r. split; [reflexivity | constructor]. }
  unfold search_entry, is_wanted_file.
  destruct (cf_type c) as [ty |] eqn:Et; simpl;
    [| intros H; injection H as <- _; exact Hnone].
  destruct (String.eqb_spec ty "file") as [-> | Hnf]; simpl.
  - destruct (cf_name c) as [n |] eqn:En; simpl;
      [| intros H; injection H as <- _; exact Hnone].
    destruct (PyStr.endswith n extension) eqn:Ee.
    + destruct (cf_path c) as [p |] eqn:Ep; simpl;
        [| intros H; injection H as <- _; exact Hnone].
      intros H. injection H as <- _. exists [p]. split; [reflexivity |].
      constructor; [| constructor].
      exists l, c, n. split; [constructor |]. repeat split; assumption.
    + intros H. injection H as <- _. exact Hnone.
  - destruct (String.eqb_spec ty "dir") as [-> | Hnd];
      [| intros H; injection H as <- _; exact Hnone].
    destruct (cf_path c) as [p |] eqn:Ep; simpl;
      [| intros H; injection H as <- _; exact Hnone].
    destruct (repo p) as [sub | e] eqn:Er;
      [| intros H; injection H as <- _; exact Hnone].
    destruct (search_contents repo extension fuel sub acc)
      as [[files1 r1] |] eqn:Es; [| discriminate].
    intros H. injection H as <- _.
    destruct sub as [sub | f].
    + destruct (IH sub acc files1 r1 Es) as (extra & -> & Hex).
      exists extra. split; [reflexivity |].
      rewrite Forall_forall in Hex |- *. intros q Hq.
      apply (found_below l sub c q Hc); [| | exact (Hex q Hq)].
      * unfold is_dir. rewrite Et. reflexivity.
      * unfold path_of. rewrite Ep. exact Er.
    + destruct fuel; simpl in Es; [discriminate |].
      injection Es as <- _. exact Hnone.
Qed.

End SearchSound.

(** X4.  Whatever the repository answers (failed listings, entries that
    lack attributes, repeated names), every path that
    [_get_files_by_extension] returns is the path of an entry of type
    [file] whose name ends in the extension, found in the top listing or
    in a listing reached through directory entries; the path of a
    directory is never returned. *)
Theorem files_by_extension_are_matching_files
        (repo : Repo) (extension : string) (fuel : nat)
        (files : list string) (p : string) :
  _get_files_by_extension repo extension fuel = Some files ->
  In p files ->
  exists root, repo "" = Ret (Listing root)
               /\ found_in_walk repo extension root p.
Proof.
  unfold _get_files_by_extension.
  destruct (repo "") as [[root | f] | e] eqn:Er.
  - destruct (search_contents repo extension fuel (Listing root) [])
      as [[files' r] |] eqn:Es; [| discriminate].
    intros H Hin. injection H as <-.
    destruct (search_sound repo extension fuel root [] files' r Es)
      as (extra & -> & Hex).
    exists root. split; [reflexivity |].
    rewrite Forall_forall in Hex. exact (Hex p Hin).
  - destruct fuel; simpl; [discriminate |].
    intros H. injection H as <-. intros [].
  - intros H. injection H as <-. intros [].
Qed.

Lemma files_by_extension_are_matching_files_witness :
  exists root, sample_repo "" = Ret (Listing root)
               /\ found_in_walk sample_repo ".py" root "src/a.py".
Proof.
  apply (files_by_extension_are_matching_files sample_repo ".py" 2
                                               ["src/a.py"] "src/a.py").
  - reflexivity.
  - left. reflexivity.
Defined.

(** ** Files found against files counted *)

Lemma drop_all (s : string) : PyStr.drop (String.length s) s = "".
Proof. induction s as [| c s IH]; simpl; [reflexivity | exact IH]. Qed.

Lemma endswith_empty (s : string) : PyStr.endswith s "" = true.
Proof.
  unfold PyStr.endswith. simpl. rewrite Nat.sub_0_r, drop_all. reflexivity.
Qed.

Lemma tree_files_count (keep : string -> bool) (t : Tree) :
  (Z.of_nat (List.length (tree_files keep t)) <= _count_files t)%Z
  /\ ((forall n, keep n = true) ->
      Z.of_nat (List.length (tree_files keep t)) = _count_files t).
Proof.
  revert t.
  apply (node_tree_ind
           (fun d => forall n,
                (Z.of_nat (List.length (node_files keep n d)) <= count_data d)%Z
                /\ ((forall n, keep n = true) ->
                    Z.of_nat (List.length (node_files keep n d))
                    = count_data d))
           (fun t =>
              (Z.of_nat (List.length (tree_files keep t)) <= _count_files t)%Z
              /\ ((forall n, keep n = true) ->
                  Z.of_nat (List.length (tree_files keep t))
                  = _count_files t))).
  - intros p s lang n. cbn [node_files count_data]. split.
    + destruct (keep n); simpl; lia.
    + intros H. rewrite H. reflexivity.
  - intros p children IH n. rewrite node_files_dir, count_data_dir. exact IH.
  - split; [simpl; reflexivity | reflexivity].
  - intros n d l Hd Hl. rewrite count_files_cons.
    unfold tree_files in *. cbn [flat_map fst snd]. rewrite length_app.
    destruct (Hd n) as [Hd1 Hd2]. destruct Hl as [Hl1 Hl2]. split.
    + lia.
    + intros H. specialize (Hd2 H). specialize (Hl2 H). lia.
Qed.

(** X5.  On a finitely deep remote tree whose listings hold well-formed
    entries of type [file] or [dir] with pairwise distinct names, the
    search for the empty extension returns as many paths as
    [_count_files] counts in the built tree, and the search for any
    extension returns no more than that. *)
Theorem files_found_against_files_counted
        (repo : Repo) (extension : string) (depth fuel : nat)
        (root : list ContentFile) :
  repo "" = Ret (Listing root) ->
  Bounded repo depth (Listing root) ->
  depth <= fuel ->
  (forall l, Listed repo root l -> listing_ok l /\ files_and_dirs l) ->
  exists (t : Tree) (every some : list string),
    _build_file_tree repo fuel (Listing root) = Some (Ret t)
    /\ _get_files_by_extension repo "" fuel = Some every
    /\ _get_files_by_extension repo extension fuel = Some some
    /\ Z.of_nat (List.length every) = _count_files t
    /\ (Z.of_nat (List.length some) <= _count_files t)%Z.
Proof.
  intros Hroot Hb Hle Hgood.
  destruct (search_matches_build repo "" fuel depth root [] Hb Hle Hgood)
    as (t & Ht & Hs).
  destruct (search_matches_build repo extension fuel depth root [] Hb Hle Hgood)
    as (t' & Ht' & Hs').
  rewrite Ht in Ht'. injection Ht' as <-.
  exists t, (tree_files (ends_in "") t), (tree_files (ends_in extension) t).
  unfold _get_files_by_extension. rewrite Hroot, Hs, Hs'. simpl.
  split; [exact Ht |]. split; [reflexivity |]. split; [reflexivity |].
  split.
  - apply tree_files_count. intros n. apply endswith_empty.
  - apply tree_files_count.
Qed.

Lemma files_found_against_files_counted_witness :
  exists (t : Tree) (every some : list string),
    _build_file_tree sample_repo 2 (Listing sample_root) = Some (Ret t)
    /\ _get_files_by_extension sample_repo "" 2 = Some every
    /\ _get_files_by_extension sample_repo ".py" 2 = Some some
    /\ Z.of_nat (List.length every) = _count_files t
    /\ (Z.of_nat (List.length some) <= _count_files t)%Z.
Proof.
  apply (files_found_against_files_counted sample_repo ".py" 2 2 sample_root).
  - reflexivity.
  - exact sample_repo_bounded.
  - lia.
  - exact sample_repo_good.
Defined.

(** ** More on the fallback scan *)

Lemma split_length (sep : ascii) (s : string) :
  List.length (PyStr.split sep s) = S (str_count sep s).
Proof.
  induction s as [| c s IH]; simpl; [reflexivity |].
  destruct (Ascii.eqb c sep); simpl; [rewrite IH; reflexivity |].
  destruct (PyStr.split sep s) as [| h t]; simpl in *; [discriminate | exact IH].
Qed.

Lemma flat_map_length_le {A B} (f : A -> list B) (l : list A) (k : nat) :
  (forall x, List.length (f x) <= k) ->
  List.length (flat_map f l) <= k * List.length l.
Proof.
  intros H. induction l as [| x l IH]; simpl; [lia |].
  rewrite length_app. specialize (H x). lia.
Qed.

(** X6.  The fallback scan yields at most one edge per line of the text,
    so never more edges than the text has newline characters plus one. *)
Theorem fallback_at_most_one_edge_per_line (content file_path : string) :
  List.length (fallback content file_path)
  <= List.length (PyStr.split newline content)
  /\ List.length (PyStr.split newline content) = S (str_count newline content).
Proof.
  split; [| apply split_length].
  unfold fallback.
  pose proof (flat_map_length_le (line_dependencies file_path)
                (PyStr.split newline content) 1
                (line_at_most_one file_path)) as H.
  lia.
Qed.

Lemma give_back_inv (continue : string -> option (list string))
      (min : nat) (group : bool) (s : string) (j : nat)
      (groups : list string) :
  Re.give_back continue min group s j = Some groups ->
  exists i rest,
    i <= j /\ min <= i /\ continue (PyStr.drop i s) = Some rest
    /\ groups = if group then Re.take i s :: rest else rest.
Proof.
  induction j as [| j IH]; cbn [Re.give_back].
  - destruct (Nat.ltb_spec 0 min); [discriminate |].
    destruct (continue (PyStr.drop 0 s)) as [rest |] eqn:E; [| discriminate].
    intros Hg. injection Hg as <-. exists 0, rest.
    split; [lia |]. split; [lia |]. split; [exact E | reflexivity].
  - destruct (Nat.ltb_spec (S j) min); [discriminate |].
    destruct (continue (PyStr.drop (S j) s)) as [rest |] eqn:E.
    + intros Hg. injection Hg as <-. exists (S j), rest.
      split; [lia |]. split; [lia |]. split; [exact E | reflexivity].
    + intros Hg. destruct (IH Hg) as (i & rest & Hi & Hmin & Hc & Hgs).
      exists i, rest. split; [lia |]. split; [lia |]. split; assumption.
Qed.

Lemma take_in_run (cls : ascii -> bool) (s : string) (i : nat) :
  i <= Re.run cls s ->
  str_all cls (Re.take i s) = true /\ String.length (Re.take i s) = i.
Proof.
  revert s. induction i as [| i IH]; intros s Hi; [split; reflexivity |].
  destruct s as [| c s]; simpl in Hi; [lia |].
  destruct (cls c) eqn:Ec; [| lia].
  destruct (IH s) as [Ha Hl]; [lia |].
  simpl. rewrite Ec, Ha, Hl. split; reflexivity.
Qed.

Lemma match_items_groups (cls : ascii -> bool) (p : Re.pattern) :
  groups_in cls p ->
  forall s groups,
    Re.match_items p s = Some groups ->
    Forall (fun g => g <> "" /\ str_all cls g = true) groups.
Proof.
  induction 1 as [| it p Hit Hp IH]; intros s groups; simpl.
  - intros H. injection H as <-. constructor.
  - destruct it as [l | min c group].
    + destruct (String.prefix l s); [apply IH | discriminate].
    + intros Hm.
      destruct (give_back_inv _ _ _ _ _ _ Hm)
        as (i & rest & Hi & Hmin & Hc & ->).
      specialize (IH _ _ Hc).
      destruct group; [| exact IH].
      destruct Hit as [Hone ->]. constructor; [| exact IH].
      destruct (take_in_run cls s i Hi) as [Hall Hlen].
      split; [| exact Hall].
      intros E. rewrite E in Hlen. simpl in Hlen. lia.
Qed.

Lemma import_patterns_groups (pattern : Re.pattern) :
  In pattern import_patterns -> groups_in Re.not_space_hash pattern.
Proof.
  intros [<- | [<- | []]]; repeat constructor.
Qed.

(** X7.  A module name recorded by the fallback scan is never empty and
    holds neither a whitespace character nor a [#]. *)
Theorem fallback_module_names_are_tokens
        (content file_path : string) (d : Dependency) :
  In d (fallback content file_path) ->
  to_module d <> ""
  /\ str_all Re.not_space_hash (to_module d) = true.
Proof.
  unfold fallback. rewrite in_flat_map. intros (line & _ & H).
  unfold line_dependencies in H. rewrite in_flat_map in H.
  destruct H as (pattern & Hp & H).
  unfold Re.match_group1 in H.
  destruct (Re.match_items pattern line) as [[| g gs] |] eqn:E;
    try contradiction.
  destruct H as [<- | []]. simpl.
  pose proof (match_items_groups _ _ (import_patterns_groups _ Hp) _ _ E) as HF.
  inversion HF as [| ? ? Hg _]; subst. exact Hg.
Qed.

Lemma fallback_module_names_are_tokens_witness :
  "sys" <> "" /\ str_all Re.not_space_hash "sys" = true.
Proof.
  apply (fallback_module_names_are_tokens
           broken_source "a.py" (mkDependency "a.py" "sys" "import")).
  left. reflexivity.
Defined.

Lemma split_join (sep : ascii) (a b : string) :
  PyStr.split sep (a ++ String sep b) = PyStr.split sep a ++ PyStr.split sep b.
Proof.
  induction a as [| c a IH]; simpl.
  - rewrite Ascii.eqb_refl. reflexivity.
  - rewrite IH. destruct (Ascii.eqb c sep); [reflexivity |].
    destruct (PyStr.split sep a) as [| h t] eqn:E; [| reflexivity].
    exfalso. exact (split_not_nil sep a E).
Qed.

(** X8.  The fallback scan treats the lines of a text independently: the
    edges of two texts joined by a newline are the edges of the first
    followed by the edges of the second. *)
Theorem fallback_scans_lines_independently (a b file_path : string) :
  fallback (a ++ String newline b) file_path
  = fallback a file_path ++ fallback b file_path.
Proof.
  unfold fallback. rewrite split_join, flat_map_app. reflexivity.
Qed.

Lemma run_app (cls : ascii -> bool) (a b : string) :
  str_all cls a = true -> stops cls b = true ->
  Re.run cls (a ++ b) = String.length a.
Proof.
  intros Ha Hb. induction a as [| c a IH]; simpl in *.
  - destruct b as [| c b]; [reflexivity |]. simpl in *.
    destruct (cls c); [discriminate | reflexivity].
  - apply andb_true_iff in Ha. destruct Ha as [Hc Ha].
    rewrite Hc, (IH Ha). reflexivity.
Qed.

Lemma drop_app (a b : string) : PyStr.drop (String.length a) (a ++ b) = b.
Proof. induction a as [| c a IH]; simpl; [reflexivity | exact IH]. Qed.

Lemma take_app (a b : string) : Re.take (String.length a) (a ++ b) = a.
Proof.
  induction a as [| c a IH]; simpl; [destruct b; reflexivity |].
  rewrite IH. reflexivity.
Qed.

Lemma prefix_app (a b : string) : String.prefix a (a ++ b) = true.
Proof.
  induction a as [| c a IH]; simpl; [destruct b; reflexivity |].
  destruct (Ascii.ascii_dec c c); [exact IH | contradiction].
Qed.

Lemma give_back_first (continue : string -> option (list string))
      (min : nat) (group : bool) (s : string) (j : nat)
      (rest : list string) :
  min <= j -> continue (PyStr.drop j s) = Some rest ->
  Re.give_back continue min group s j
  = Some (if group then Re.take j s :: rest else rest).
Proof.
  intros Hmin Hc. destruct j as [| j]; cbn [Re.give_back].
  - destruct (Nat.ltb_spec 0 min); [lia |]. rewrite Hc. reflexivity.
  - destruct (Nat.ltb_spec (S j) min); [lia |]. rewrite Hc. reflexivity.
Qed.

(** A greedy repetition followed by something that starts outside its
    class takes the whole run at the first try. *)
Lemma match_rep_app (min : nat) (cls : ascii -> bool) (group : bool)
      (rest : Re.pattern) (a b : string) (groups : list string) :
  str_all cls a = true -> stops cls b = true -> min <= String.length a ->
  Re.match_items rest b = Some groups ->
  Re.match_items (Re.Rep min cls group :: rest) (a ++ b)
  = Some (if group then a :: groups else groups).
Proof.
  intros Ha Hb Hmin Hrest. cbn [Re.match_items].
  rewrite (run_app cls a b Ha Hb).
  rewrite (give_back_first _ min group (a ++ b) (String.length a) groups Hmin);
    [rewrite take_app; reflexivity |].
  rewrite drop_app. exact Hrest.
Qed.

Lemma match_lit_app (l : string) (rest : Re.pattern) (b : string)
      (groups : list string) :
  Re.match_items rest b = Some groups ->
  Re.match_items (Re.Lit l :: rest) (l ++ b) = Some groups.
Proof.
  intros Hrest. cbn [Re.match_items]. rewrite prefix_app, drop_app.
  exact Hrest.
Qed.

Lemma nonempty_length (s : string) : s <> "" -> 1 <= String.length s.
Proof. destruct s; [contradiction | simpl; lia]. Qed.

Lemma stops_start (cls other : ascii -> bool) (s tail : string) :
  s <> "" -> str_all other s = true ->
  (forall c, other c = true -> cls c = false) ->
  stops cls (s ++ tail) = true.
Proof.
  intros Hne Hall Hdisj. destruct s as [| c s]; [contradiction |].
  simpl in *. apply andb_true_iff in Hall. destruct Hall as [Hc _].
  rewrite (Hdisj c Hc). reflexivity.
Qed.

Lemma space_not_token (c : ascii) :
  Re.is_space c = true -> Re.not_space_hash c = false.
Proof. unfold Re.not_space_hash. intros ->. reflexivity. Qed.

Lemma token_not_space (c : ascii) :
  Re.not_space_hash c = true -> Re.is_space c = false.
Proof.
  unfold Re.not_space_hash. destruct (Re.is_space c); [discriminate | auto].
Qed.

Lemma only_edge (file_path line : string) (d : Dependency)
      (others : list Dependency) :
  line_dependencies file_path line = d :: others -> others = [].
Proof.
  intros H. pose proof (line_at_most_one file_path line) as Hle.
  rewrite H in Hle. destruct others; [reflexivity | simpl in Hle; lia].
Qed.

(** X9.  A line made of optional whitespace, the word [import], some
    whitespace and a token (characters other than whitespace and [#])
    that ends the line or is followed by whitespace or [#], gives exactly
    one edge, to that token. *)
Theorem fallback_reads_import_line
        (file_path indent gap m tail : string) :
  str_all Re.is_space indent = true ->
  gap <> "" -> str_all Re.is_space gap = true ->
  m <> "" -> str_all Re.not_space_hash m = true ->
  stops Re.not_space_hash tail = true ->
  line_dependencies file_path (indent ++ "import" ++ gap ++ m ++ tail)
  = [mkDependency file_path m "import"].
Proof.
  intros Hindent Hgap Hgaps Hm Hms Htail.
  set (line := (indent ++ "import" ++ gap ++ m ++ tail)%string).
  assert (E : Re.match_group1 import_line_pattern line = Some m).
  { unfold Re.match_group1, import_line_pattern, line.
    rewrite (match_rep_app 0 Re.is_space false _ indent _ [m]);
      [reflexivity | exact Hindent | reflexivity | lia |].
    apply match_lit_app.
    apply (match_rep_app 1 Re.is_space false _ gap (m ++ tail) [m]);
      [exact Hgaps | | exact (nonempty_length gap Hgap) |].
    { exact (stops_start _ _ m tail Hm Hms token_not_space). }
    apply (match_rep_app 1 Re.not_space_hash true [] m tail []);
      [exact Hms | exact Htail | exact (nonempty_length m Hm) | reflexivity]. }
  pose proof (line_at_most_one file_path line) as Hle.
  unfold line_dependencies, import_patterns in *. cbn [flat_map] in *.
  rewrite E in *.
  destruct (Re.match_group1 from_line_pattern line);
    simpl in *; [lia | reflexivity].
Qed.

Lemma fallback_reads_import_line_witness :
  line_dependencies "a.py" ("  " ++ "import" ++ " " ++ "os.path" ++ " # std")
  = [mkDependency "a.py" "os.path" "import"].
Proof.
  apply (fallback_reads_import_line "a.py" "  " " " "os.path" " # std");
    try reflexivity; discriminate.
Defined.

(** X10.  A line made of optional whitespace, the word [from], some
    whitespace, a token, some whitespace and the word [import] gives
    exactly one edge, to that token, whatever follows on the line; its
    kind is ['import']. *)
Theorem fallback_reads_from_line
        (file_path indent gap m gap' tail : string) :
  str_all Re.is_space indent = true ->
  gap <> "" -> str_all Re.is_space gap = true ->
  m <> "" -> str_all Re.not_space_hash m = true ->
  gap' <> "" -> str_all Re.is_space gap' = true ->
  line_dependencies file_path
    (indent ++ "from" ++ gap ++ m ++ gap' ++ "import" ++ tail)
  = [mkDependency file_path m "import"].
Proof.
  intros Hindent Hgap Hgaps Hm Hms Hgap' Hgaps'.
  set (line := (indent ++ "from" ++ gap ++ m ++ gap' ++ "import" ++ tail)
                 %string).
  assert (E : Re.match_group1 from_line_pattern line = Some m).
  { unfold Re.match_group1, from_line_pattern, line.
    rewrite (match_rep_app 0 Re.is_space false _ indent _ [m]);
      [reflexivity | exact Hindent | reflexivity | lia |].
    apply match_lit_app.
    apply (match_rep_app 1 Re.is_space false _ gap _ [m]);
      [exact Hgaps | | exact (nonempty_length gap Hgap) |].
    { exact (stops_start _ _ m _ Hm Hms token_not_space). }
    apply (match_rep_app 1 Re.not_space_hash true _ m _ []);
      [exact Hms | | exact (nonempty_length m Hm) |].
    { exact (stops_start _ _ gap' _ Hgap' Hgaps' space_not_token). }
    apply (match_rep_app 1 Re.is_space false _ gap' _ []);
      [exact Hgaps' | reflexivity | exact (nonempty_length gap' Hgap') |].
    apply match_lit_app. reflexivity. }
  pose proof (line_at_most_one file_path line) as Hle.
  unfold line_dependencies, import_patterns in *. cbn [flat_map] in *.
  rewrite E in *.
  destruct (Re.match_group1 import_line_pattern line);
    simpl in *; [lia | reflexivity].
Qed.

Lemma fallback_reads_from_line_witness :
  line_dependencies "a.py"
    ("" ++ "from" ++ " " ++ "a.b" ++ " " ++ "import" ++ " c, d")
  = [mkDependency "a.py" "a.b" "import"].
Proof.
  apply (fallback_reads_from_line "a.py" "" " " "a.b" " " " c, d");
    try reflexivity; discriminate.
Defined.

(** ** Every edge of the extractor *)

Lemma node_dependencies_kind (file_path : string) (n : ast) (d : Dependency) :
  In d (node_dependencies file_path n) ->
  import_type d = Direct \/ import_type d = FromImport.
Proof.
  destruct n as [names | [m |] names lv | a | children]; simpl;
    try contradiction.
  - rewrite in_map_iff. intros (a & <- & _). left. reflexivity.
  - destruct (String.eqb m ""); [contradiction |].
    intros [<- | []]. right. reflexivity.
Qed.

(** X11.  Whichever strategy produced it, an edge returned by
    [_extract_python_imports] starts at the file path given to the call
    and its kind is ['import'] or ['from_import']. *)
Theorem extracted_edges_belong_to_the_file
        (ast_parse : string -> result ast) (content file_path : string)
        (edges : list Dependency) (d : Dependency) :
  _extract_python_imports ast_parse content file_path = Ret edges ->
  In d edges ->
  from_file d = file_path
  /\ (import_type d = Direct \/ import_type d = FromImport).
Proof.
  intros Hx Hin. split; [exact (extract_from _ _ _ _ Hx d Hin) |].
  unfold _extract_python_imports, primary, try_exceptR, bindR in Hx.
  destruct (ast_parse content) as [tree | e]; injection Hx as <-.
  - apply in_flat_map in Hin. destruct Hin as (n & _ & Hd).
    exact (node_dependencies_kind _ _ _ Hd).
  - left. exact (fallback_always_import _ _ _ Hin).
Qed.

Lemma extracted_edges_belong_to_the_file_witness :
  from_file (mkDependency "app.py" "collections" "from_import") = "app.py"
  /\ (import_type (mkDependency "app.py" "collections" "from_import") = Direct
      \/ import_type (mkDependency "app.py" "collections" "from_import")
         = FromImport).
Proof.
  apply (extracted_edges_belong_to_the_file
           tiny_parser two_imports "app.py"
           [ mkDependency "app.py" "os" "import";
             mkDependency "app.py" "collections" "from_import" ]).
  - reflexivity.
  - right. left. reflexivity.
Defined.

(** ** Names that end in a tabled extension *)

Lemma contains_app (c : ascii) (a b : string) :
  PyStr.contains c (a ++ b) = PyStr.contains c a || PyStr.contains c b.
Proof.
  induction a as [| x a IH]; simpl; [reflexivity |].
  rewrite IH, orb_assoc. reflexivity.
Qed.

Lemma length_app_string (a b : string) :
  String.length (a ++ b) = String.length a + String.length b.
Proof. induction a as [| x a IH]; simpl; [| rewrite IH]; reflexivity. Qed.

Lemma rfind_app_last (c : ascii) (a e : string) :
  PyStr.contains c e = false ->
  PyStr.rfind c (a ++ String c e) = Z.of_nat (String.length a).
Proof.
  intros He. induction a as [| x a IH].
  - exact (rfind_head c e He).
  - change (PyStr.rfind c (String x a ++ String c e))
      with (let r := PyStr.rfind c (a ++ String c e) in
            if (0 <=? r)%Z then (r + 1)%Z
            else if Ascii.eqb x c then 0%Z else (-1)%Z).
    cbv zeta. rewrite IH.
    destruct (Z.leb_spec 0 (Z.of_nat (String.length a))); [| lia].
    cbn [String.length]. lia.
Qed.

Lemma suffix_of_stem_ext (stem e : string) :
  stem <> "" -> PyStr.contains "/" stem = false ->
  e <> "" -> PyStr.contains "." e = false -> PyStr.contains "/" e = false ->
  PyPath.suffix (stem ++ String "." e) = String "." e.
Proof.
  intros Hstem Hslash He Hdot Hslash'.
  unfold PyPath.suffix.
  rewrite name_single.
  - cbv zeta. rewrite (rfind_app_last "." stem e Hdot).
    unfold PyStr.len. rewrite length_app_string. cbn [String.length].
    assert (H1 : 1 <= String.length stem) by exact (nonempty_length _ Hstem).
    assert (H2 : 1 <= String.length e) by exact (nonempty_length _ He).
    destruct (Z.ltb_spec 0 (Z.of_nat (String.length stem))); [| lia].
    destruct (Z.ltb_spec (Z.of_nat (String.length stem))
                (Z.of_nat (String.length stem + S (String.length e)) - 1));
      [| lia].
    cbn [andb]. rewrite Nat2Z.id. apply drop_app.
  - rewrite contains_app, Hslash. simpl. exact Hslash'.
  - destruct stem as [| x stem]; [contradiction |].
    unfold PyPath.is_part. simpl.
    destruct stem; simpl; [| destruct (Ascii.eqb x "."); reflexivity].
    destruct (Ascii.eqb x "."); reflexivity.
Qed.

Lemma extensions_shape (ext lang : string) :
  In (ext, lang) extensions ->
  PyStr.lower ext = ext
  /\ exists e, ext = String "." e /\ e <> ""
               /\ PyStr.contains "." e = false /\ PyStr.contains "/" e = false.
Proof.
  unfold extensions. simpl.
  intros H. repeat (destruct H as [H | H]; [injection H as <- <- |]);
    try contradiction;
    (split; [reflexivity |]; eexists; split; [reflexivity |];
     split; [discriminate | split; reflexivity]).
Qed.

(** X12.  A file name made of a non-empty stem without a slash followed
    by an extension of the table is classified with the language of that
    extension, and so is every name that differs from it only in the case
    of its letters. *)
Theorem detect_language_of_stem_and_extension
        (stem ext lang filename : string) :
  In (ext, lang) extensions ->
  stem <> "" -> PyStr.contains "/" stem = false ->
  PyStr.lower filename = PyStr.lower (stem ++ ext) ->
  _detect_language filename = lang.
Proof.
  intros Hin Hstem Hslash Hcase.
  rewrite (detect_same_up_to_case filename (stem ++ ext) Hcase).
  destruct (extensions_shape ext lang Hin)
    as (Hlow & e & -> & He & Hdot & Hslash').
  apply (detect_of_entry _ (String "." e) lang); [| exact Hin].
  rewrite (suffix_of_stem_ext stem e Hstem Hslash He Hdot Hslash').
  exact Hlow.
Qed.

Lemma detect_language_of_stem_and_extension_witness :
  _detect_language "My.Module.RS" = "Rust".
Proof.
  apply (detect_language_of_stem_and_extension "my.module" ".rs" "Rust"
                                               "My.Module.RS").
  - unfold extensions. do 8 right. left. reflexivity.
  - discriminate.
  - reflexivity.
  - reflexivity.
Defined.

(** ** The commit history and its caps *)

Lemma sum_values_set (d : PyDict.dict Z) (k : string) (v : Z) :
  sum_values (PyDict.set d k v) = (sum_values d - PyDict.get d k 0 + v)%Z.
Proof.
  unfold sum_values, PyDict.get, PyDict.values.
  induction d as [| [k' v'] d IH]; simpl; [lia |].
  destruct (String.eqb_spec k k') as [-> | Hne]; simpl; [lia |].
  rewrite IH. lia.
Qed.

Lemma sum_values_incr (d : PyDict.dict Z) (k : string) :
  sum_values (incr d k) = (sum_values d + 1)%Z.
Proof. unfold incr. rewrite sum_values_set. lia. Qed.

Lemma total_length_append (d : PyDict.dict (list string)) (k x : string) :
  total_length (append_to d k x) = S (total_length d).
Proof.
  unfold append_to, total_length, PyDict.get, PyDict.values.
  induction d as [| [k' l'] d IH]; simpl; [reflexivity |].
  destruct (String.eqb_spec k k') as [-> | Hne]; simpl.
  - rewrite length_app. simpl. lia.
  - rewrite IH. lia.
Qed.

Lemma set_add_length (s : list string) (x : string) :
  List.length (set_add s x) <= S (List.length s).
Proof.
  unfold set_add. destruct (existsb (String.eqb x) s); [lia |].
  rewrite length_app. simpl. lia.
Qed.

(** What the loop over the files of a commit changes, once the author of
    the commit has been read. *)
Lemma record_files_effect (commit : Commit) (author : string)
      (files : list string) :
  author_name commit = Ret author ->
  forall h, exists h',
    record_files commit files h = (h', Ret tt)
    /\ total_commits (commit_data h') = total_commits (commit_data h)
    /\ commit_frequency (commit_data h') = commit_frequency (commit_data h)
    /\ authors (commit_data h') = authors (commit_data h)
    /\ sum_values (file_changes (commit_data h'))
       = (sum_values (file_changes (commit_data h))
          + Z.of_nat (List.length files))%Z
    /\ total_length (contributor_data h')
       = total_length (contributor_data h) + List.length files.
Proof.
  intros Ha. induction files as [| f files IH]; intros h.
  - exists h. simpl. repeat split; lia.
  - cbn [record_files]. unfold record_file. rewrite Ha.
    match goal with
    | |- context [record_files commit files ?h1] =>
        destruct (IH h1) as (h' & Hr & Ht & Hf & Hau & Hs & Hl)
    end.
    exists h'. rewrite Hr. simpl in *.
    rewrite Ht, Hf, Hau, Hs, Hl, sum_values_incr, total_length_append.
    repeat split; lia.
Qed.

Lemma within_caps_refl (h : History) : within_caps 0 h h.
Proof. unfold within_caps. cbv zeta. repeat split; lia. Qed.

Lemma within_caps_trans (n m : nat) (h1 h2 h3 : History) :
  within_caps n h1 h2 -> within_caps m h2 h3 -> within_caps (n + m) h1 h3.
Proof.
  unfold within_caps. cbv zeta.
  intros (T1 & A1 & F1 & C1 & L1) (T2 & A2 & F2 & C2 & L2).
  repeat split; lia.
Qed.

Lemma skip_commit_state (h : History) (e : exn) :
  fst (skip_commit h e) = h
  /\ forall e', snd (skip_commit h e) = Raise e' -> is_Exception e' = false.
Proof.
  unfold skip_commit. destruct (is_Exception e) eqn:E; simpl.
  - split; [reflexivity | discriminate].
  - split; [reflexivity |]. intros e' H. injection H as <-. exact E.
Qed.

(** One commit adds at most one author, one to the frequency of its day
    and ten file changes, each attributed to the author. *)
Lemma analyze_commit_caps (h : History) (commit : Commit) :
  within_caps 1 h (fst (analyze_commit h commit))
  /\ forall e, snd (analyze_commit h commit) = Raise e ->
               is_Exception e = false.
Proof.
  unfold analyze_commit.
  destruct (author_name commit) as [author |] eqn:Ea.
  2:{ destruct (skip_commit_state h e) as [-> Hs].
      split; [| exact Hs]. unfold within_caps. cbv zeta. repeat split; lia. }
  pose proof (set_add_length (authors (commit_data h)) author) as Hadd.
  destruct (commit_date commit) as [date_key |].
  2:{ match goal with
      | |- context [skip_commit ?h1 e] =>
          destruct (skip_commit_state h1 e) as [-> Hs]
      end.
      split; [| exact Hs]. unfold within_caps. cbv zeta.
      cbn [commit_data contributor_data authors total_commits file_changes
               commit_frequency fst snd].
      repeat split; lia. }
  pose proof (sum_values_incr (commit_frequency (commit_data h)) date_key)
    as Hincr.
  destruct (commit_files commit) as [files |].
  2:{ match goal with
      | |- context [skip_commit ?h2 e] =>
          destruct (skip_commit_state h2 e) as [-> Hs]
      end.
      split; [| exact Hs]. unfold within_caps. cbv zeta.
      cbn [commit_data contributor_data authors total_commits file_changes
               commit_frequency fst snd].
      repeat split; lia. }
  match goal with
  | |- context [record_files commit (firstn 10 files) ?h2] =>
      destruct (record_files_effect commit author (firstn 10 files) Ea h2)
        as (h3 & -> & Ht & Hf & Hau & Hs & Hl)
  end.
  cbn [commit_data contributor_data authors total_commits file_changes
           commit_frequency fst snd] in *.
  split; [| discriminate].
  pose proof (firstn_le_length 10 files) as Hten.
  unfold within_caps. cbv zeta. rewrite Ht, Hf, Hau, Hs, Hl.
  cbn [commit_data contributor_data authors total_commits file_changes
           commit_frequency fst snd].
  repeat split; lia.
Qed.

Lemma analyze_commits_caps (commits : list Commit) :
  forall h,
    within_caps (List.length commits) h (fst (analyze_commits commits h))
    /\ forall e, snd (analyze_commits commits h) = Raise e ->
                 is_Exception e = false.
Proof.
  induction commits as [| commit commits IH]; intros h.
  - simpl. split; [apply within_caps_refl | discriminate].
  - cbn [analyze_commits].
    destruct (analyze_commit_caps h commit) as [H1 Hraise].
    destruct (analyze_commit h commit) as [h1 [u | e]]; cbn [fst snd] in *.
    + destruct (IH h1) as [H2 Hraise2]. split; [| exact Hraise2].
      exact (within_caps_trans 1 (List.length commits) h h1 _ H1 H2).
    + split; [| exact Hraise].
      destruct H1 as (T & A & F & C & L). unfold within_caps. cbv zeta.
      cbn [List.length]. repeat split; lia.
Qed.

(** X13.  After [_analyze_commit_history] has read a list of commits,
    [total_commits] is the length of the whole list, while only the first
    100 commits are looked at: the daily frequencies add up to at most
    100 and at most the number of commits, there are at most as many
    authors, and the file changes add up to at most ten per counted
    commit, hence to at most 1000. *)
Theorem commit_history_caps
        (commits : list Commit) (h h' : History) (r : result unit) :
  _analyze_commit_history (Ret commits) h = (h', r) ->
  let cd := commit_data h' in
  total_commits cd = Z.of_nat (List.length commits)
  /\ (0 <= sum_values (commit_frequency cd)
      <= Z.of_nat (Nat.min 100 (List.length commits)))%Z
  /\ List.length (authors cd) <= Nat.min 100 (List.length commits)
  /\ (0 <= sum_values (file_changes cd)
      <= 10 * sum_values (commit_frequency cd))%Z
  /\ (sum_values (file_changes cd) <= 1000)%Z.
Proof.
  unfold _analyze_commit_history.
  match goal with
  | |- context [analyze_commits (firstn 100 commits) ?h0] =>
      destruct (analyze_commits_caps (firstn 100 commits) h0) as [Hc Hraise];
      destruct (analyze_commits (firstn 100 commits) h0) as [h1 [u | e]]
  end; cbn [fst snd] in Hc, Hraise.
  - intros H. injection H as <- _. cbv zeta.
    destruct Hc as (T & A & F & C & L).
    cbn [commit_data contributor_data authors total_commits file_changes
             commit_frequency fst snd] in *.
    rewrite length_firstn in *.
    change (sum_values []) with 0%Z in *. cbn [List.length] in *.
    repeat split; lia.
  - rewrite (Hraise e eq_refl). intros H. injection H as <- _. cbv zeta.
    destruct Hc as (T & A & F & C & L).
    cbn [commit_data contributor_data authors total_commits file_changes
             commit_frequency fst snd] in *.
    rewrite length_firstn in *.
    change (sum_values []) with 0%Z in *. cbn [List.length] in *.
    repeat split; lia.
Qed.

Example analyze_sample_commits :
  let h := fst (_analyze_commit_history (Ret sample_commits) fresh_history) in
  total_commits (commit_data h) = 3%Z
  /\ commit_frequency (commit_data h) = [("2024-05-01", 2%Z)]
  /\ authors (commit_data h) = ["ann"; "Unknown"; "bob"]
  /\ sum_values (file_changes (commit_data h)) = 10%Z
  /\ contributor_data h = [("ann", firstn 10 twelve_files)].
Proof. vm_compute. repeat split; reflexivity. Qed.

Lemma commit_history_caps_witness :
  let cd := commit_data
              (fst (_analyze_commit_history (Ret sample_commits)
                                            fresh_history)) in
  total_commits cd = Z.of_nat (List.length sample_commits)
  /\ (0 <= sum_values (commit_frequency cd)
      <= Z.of_nat (Nat.min 100 (List.length sample_commits)))%Z
  /\ List.length (authors cd) <= Nat.min 100 (List.length sample_commits)
  /\ (0 <= sum_values (file_changes cd)
      <= 10 * sum_values (commit_frequency cd))%Z
  /\ (sum_values (file_changes cd) <= 1000)%Z.
Proof.
  apply (commit_history_caps
           sample_commits fresh_history _
           (snd (_analyze_commit_history (Ret sample_commits) fresh_history))).
  vm_compute. reflexivity.
Defined.

(** X14.  Every file change that [_analyze_commit_history] counts is
    attributed to exactly one author: the file names kept in
    [contributor_data] grow by the sum of the counters of
    [file_changes]. *)
Theorem counted_file_changes_are_attributed
        (commits : list Commit) (h h' : History) (r : result unit) :
  _analyze_commit_history (Ret commits) h = (h', r) ->
  Z.of_nat (total_length (contributor_data h'))
  = (Z.of_nat (total_length (contributor_data h))
     + sum_values (file_changes (commit_data h')))%Z.
Proof.
  unfold _analyze_commit_history.
  match goal with
  | |- context [analyze_commits (firstn 100 commits) ?h0] =>
      destruct (analyze_commits_caps (firstn 100 commits) h0) as [Hc Hraise];
      destruct (analyze_commits (firstn 100 commits) h0) as [h1 [u | e]]
  end; cbn [fst snd] in Hc, Hraise.
  - intros H. injection H as <- _.
    destruct Hc as (_ & _ & _ & _ & L).
    cbn [commit_data contributor_data file_changes] in L.
    change (sum_values []) with 0%Z in L. lia.
  - rewrite (Hraise e eq_refl). intros H. injection H as <- _.
    destruct Hc as (_ & _ & _ & _ & L).
    cbn [commit_data contributor_data file_changes] in L.
    change (sum_values []) with 0%Z in L. lia.
Qed.

Lemma counted_file_changes_are_attributed_witness :
  let h := fst (_analyze_commit_history (Ret sample_commits) fresh_history) in
  Z.of_nat (total_length (contributor_data h))
  = (Z.of_nat (total_length (contributor_data fresh_history))
     + sum_values (file_changes (commit_data h)))%Z.
Proof.
  apply (counted_file_changes_are_attributed
           sample_commits fresh_history _
           (snd (_analyze_commit_history (Ret sample_commits) fresh_history))).
  vm_compute. reflexivity.
Defined.

(** ** The tally of languages *)

Lemma get_incr (d : PyDict.dict Z) (k k' : string) :
  PyDict.get (incr d k) k' 0%Z
  = (PyDict.get d k' 0 + if String.eqb k k' then 1 else 0)%Z.
Proof.
  unfold incr, PyDict.get at 1.
  destruct (String.eqb_spec k k') as [<- | Hne].
  - rewrite lookup_set_same. reflexivity.
  - rewrite lookup_set_other by congruence. unfold PyDict.get. lia.
Qed.

Lemma count_languages_dir (p : string) (children : Tree)
      (langs : PyDict.dict Z) :
  count_languages_node (DirNode p children) langs
  = count_languages children langs.
Proof.
  unfold count_languages. simpl. revert langs.
  induction children as [| [n d] l IH]; intros langs; simpl;
    [reflexivity | apply IH].
Qed.

Lemma lookup_in_values {V} (d : PyDict.dict V) (k : string) (v : V) :
  PyDict.lookup k d = Some v -> In v (PyDict.values d).
Proof.
  intros H. apply lookup_In in H. apply (in_map snd) in H. exact H.
Qed.

Lemma values_set {V} (d : PyDict.dict V) (k : string) (v x : V) :
  In x (PyDict.values (PyDict.set d k v)) ->
  In x (PyDict.values d) \/ x = v.
Proof.
  unfold PyDict.values. rewrite in_map_iff. intros ([k0 x0] & <- & Hin).
  destruct (In_set _ _ _ _ _ Hin) as [Hold | [_ ->]].
  - left. apply (in_map snd) in Hold. exact Hold.
  - right. reflexivity.
Qed.

Lemma incr_positive (d : PyDict.dict Z) (k : string) :
  Forall (fun v => 1 <= v)%Z (PyDict.values d) ->
  Forall (fun v => 1 <= v)%Z (PyDict.values (incr d k)).
Proof.
  intros H. rewrite Forall_forall in *. intros x Hx.
  destruct (values_set _ _ _ _ Hx) as [Hold | ->]; [exact (H x Hold) |].
  unfold PyDict.get. destruct (PyDict.lookup k d) as [v |] eqn:E; [| lia].
  specialize (H v (lookup_in_values _ _ _ E)). lia.
Qed.

(** What counting a tree adds to a tally. *)
Lemma count_languages_effect (t : Tree) :
  forall langs,
    (forall lang,
        PyDict.get (count_languages t langs) lang 0%Z
        = (PyDict.get langs lang 0 + files_in_language lang t)%Z)
    /\ sum_values (count_languages t langs)
       = (sum_values langs + _count_files t)%Z
    /\ (NoDup (PyDict.keys langs) ->
        NoDup (PyDict.keys (count_languages t langs)))
    /\ (Forall (fun v => 1 <= v)%Z (PyDict.values langs) ->
        Forall (fun v => 1 <= v)%Z (PyDict.values (count_languages t langs))).
Proof.
  revert t.
  apply (node_tree_ind
    (fun d => forall n langs,
       (forall lang,
           PyDict.get (count_languages_node d langs) lang 0%Z
           = (PyDict.get langs lang 0
              + Z.of_nat (List.length
                            (filter (has_language lang) (node_items n d))))%Z)
       /\ sum_values (count_languages_node d langs)
          = (sum_values langs + count_data d)%Z
       /\ (NoDup (PyDict.keys langs) ->
           NoDup (PyDict.keys (count_languages_node d langs)))
       /\ (Forall (fun v => 1 <= v)%Z (PyDict.values langs) ->
           Forall (fun v => 1 <= v)%Z
                  (PyDict.values (count_languages_node d langs))))
    (fun t => forall langs,
       (forall lang,
           PyDict.get (count_languages t langs) lang 0%Z
           = (PyDict.get langs lang 0 + files_in_language lang t)%Z)
       /\ sum_values (count_languages t langs)
          = (sum_values langs + _count_files t)%Z
       /\ (NoDup (PyDict.keys langs) ->
           NoDup (PyDict.keys (count_languages t langs)))
       /\ (Forall (fun v => 1 <= v)%Z (PyDict.values langs) ->
           Forall (fun v => 1 <= v)%Z
                  (PyDict.values (count_languages t langs))))).
  - intros p s l n langs. cbn [count_languages_node]. split; [| split; [| split]].
    + intros lang. rewrite get_incr. cbn [node_items filter has_language snd].
      destruct (String.eqb l lang); simpl; lia.
    + rewrite sum_values_incr. reflexivity.
    + apply keys_set_NoDup.
    + apply incr_positive.
  - intros p children IH n langs.
    rewrite count_languages_dir, node_items_dir, count_data_dir.
    cbn [filter has_language snd]. exact (IH langs).
  - intros langs. unfold count_languages, files_in_language, _count_files.
    simpl. repeat split; try tauto; lia.
  - intros n d l Hd Hl langs.
    change (count_languages ((n, d) :: l) langs)
      with (count_languages l (count_languages_node d langs)).
    destruct (Hd n langs) as (D1 & D2 & D3 & D4).
    destruct (Hl (count_languages_node d langs)) as (L1 & L2 & L3 & L4).
    split; [| split; [| split]].
    + intros lang. rewrite L1, D1. unfold files_in_language, tree_items.
      cbn [flat_map fst snd]. rewrite filter_app, length_app. lia.
    + rewrite L2, D2, count_files_cons. lia.
    + intros H. exact (L3 (D3 H)).
    + intros H. exact (L4 (D4 H)).
Qed.

(** X15.  The tally of [count_languages] over a tree gives every language
    the number of [File] nodes, at any depth, that carry it (zero when
    the language is not a key), and the tallies add up to
    [_count_files] of the tree. *)
Theorem language_tally_counts_files (t : Tree) (lang : string) :
  PyDict.get (count_languages t []) lang 0%Z = files_in_language lang t
  /\ sum_values (count_languages t []) = _count_files t.
Proof.
  destruct (count_languages_effect t []) as (H1 & H2 & _).
  split; [rewrite H1; reflexivity | rewrite H2; reflexivity].
Qed.

(** ** The slices of the language chart *)

Lemma insert_desc_perm (x : string * Z) (l : list (string * Z)) :
  Permutation (insert_desc x l) (x :: l).
Proof.
  induction l as [| y l IH]; simpl; [apply Permutation_refl |].
  destruct (snd y <=? snd x)%Z; [apply Permutation_refl |].
  eapply perm_trans; [apply perm_skip; exact IH | apply perm_swap].
Qed.

Lemma sorted_by_count_perm (l : list (string * Z)) :
  Permutation (sorted_by_count_desc l) l.
Proof.
  induction l as [| x l IH]; simpl; [constructor |].
  eapply perm_trans; [apply insert_desc_perm | apply perm_skip; exact IH].
Qed.

Lemma sum_values_app (a b : PyDict.dict Z) :
  sum_values (a ++ b) = (sum_values a + sum_values b)%Z.
Proof.
  unfold sum_values, PyDict.values. rewrite map_app.
  induction (map snd a) as [| v l IH]; simpl; [reflexivity | rewrite IH; lia].
Qed.

Lemma sum_values_perm (a b : PyDict.dict Z) :
  Permutation a b -> sum_values a = sum_values b.
Proof.
  unfold sum_values, PyDict.values.
  induction 1 as [| x l l' _ IH | x y l | l l' l'' _ IH1 _ IH2]; simpl;
    try lia.
Qed.

Lemma fold_set_fresh {V} (l : list (string * V)) :
  forall d : PyDict.dict V,
    NoDup (PyDict.keys d ++ map fst l) ->
    fold_left (fun d kv => PyDict.set d (fst kv) (snd kv)) l d = d ++ l.
Proof.
  induction l as [| [k v] l IH]; intros d Hnd; simpl.
  - rewrite app_nil_r. reflexivity.
  - simpl in Hnd. rewrite set_fresh.
    + rewrite IH; [rewrite <- app_assoc; reflexivity |].
      unfold PyDict.keys. rewrite map_app, <- app_assoc. exact Hnd.
    + apply NoDup_remove_2 in Hnd. intros Hin. apply Hnd.
      apply in_or_app. left. exact Hin.
Qed.

Lemma fold_set_length {V} (l : list (string * V)) :
  forall d : PyDict.dict V,
    List.length (fold_left (fun d kv => PyDict.set d (fst kv) (snd kv)) l d)
    <= List.length d + List.length l.
Proof.
  assert (Hset : forall (d : PyDict.dict V) k v,
             List.length (PyDict.set d k v) <= S (List.length d)).
  { intros d k v. induction d as [| [k' v'] d IH]; simpl; [lia |].
    destruct (String.eqb k k'); simpl; lia. }
  induction l as [| [k v] l IH]; intros d; simpl; [lia |].
  specialize (IH (PyDict.set d k v)). specialize (Hset d k v). lia.
Qed.

Lemma set_length_le {V} (d : PyDict.dict V) (k : string) (v : V) :
  List.length (PyDict.set d k v) <= S (List.length d).
Proof.
  induction d as [| [k' v'] d IH]; simpl; [lia |].
  destruct (String.eqb k k'); simpl; lia.
Qed.

Lemma keys_filter_NoDup {V} (f : string * V -> bool) (d : PyDict.dict V) :
  NoDup (PyDict.keys d) -> NoDup (PyDict.keys (filter f d)).
Proof.
  unfold PyDict.keys. induction d as [| [k v] d IH]; simpl; intros H;
    [constructor |].
  inversion H as [| ? ? Hnotin Hnd]; subst.
  destruct (f (k, v)); simpl; [| exact (IH Hnd)].
  constructor; [| exact (IH Hnd)].
  intros Hin. apply Hnotin. apply in_map_iff in Hin.
  destruct Hin as ([k' v'] & E & Hin'). simpl in E. subst k'.
  apply filter_In in Hin'. destruct Hin' as [Hin' _].
  apply (in_map fst) in Hin'. exact Hin'.
Qed.

Lemma sum_without_key (u : string) (d : PyDict.dict Z) :
  NoDup (PyDict.keys d) ->
  sum_values (filter (fun kv => negb (String.eqb (fst kv) u)) d)
  = (sum_values d - PyDict.get d u 0)%Z.
Proof.
  unfold sum_values, PyDict.values, PyDict.get, PyDict.keys.
  induction d as [| [k v] d IH]; intros H; [reflexivity |].
  inversion H as [| ? ? Hnotin Hnd]; subst.
  cbn [filter fst snd map fold_right PyDict.lookup].
  rewrite (String.eqb_sym u k).
  destruct (String.eqb_spec k u) as [-> | Hne]; cbn [negb].
  - rewrite (IH Hnd).
    assert (E : PyDict.lookup u d = None)
      by (apply lookup_not_In; exact Hnotin).
    rewrite E. lia.
  - cbn [map fold_right snd]. rewrite (IH Hnd). lia.
Qed.

Lemma sum_filter_key (d : PyDict.dict Z) :
  NoDup (PyDict.keys d) ->
  sum_values (filter not_unknown d)
  = (sum_values d - PyDict.get d "Unknown" 0)%Z.
Proof. exact (sum_without_key "Unknown" d). Qed.

Lemma positive_sum (d : PyDict.dict Z) :
  Forall (fun v => 1 <= v)%Z (PyDict.values d) ->
  (Z.of_nat (List.length d) <= sum_values d)%Z.
Proof.
  unfold sum_values, PyDict.values.
  induction d as [| [k v] d IH]; simpl; intros H; [lia |].
  inversion H; subst. specialize (IH H3). lia.
Qed.

Lemma get_absent (d : PyDict.dict Z) (k : string) :
  Forall (fun v => 1 <= v)%Z (PyDict.values d) ->
  PyDict.get d k 0%Z = 0%Z -> ~ In k (PyDict.keys d).
Proof.
  intros Hpos Hget. apply lookup_not_In. unfold PyDict.get in Hget.
  destruct (PyDict.lookup k d) as [v |] eqn:E; [| reflexivity].
  rewrite Forall_forall in Hpos.
  specialize (Hpos v (lookup_in_values _ _ _ E)). lia.
Qed.

Lemma keys_filter_In {V} (f : string * V -> bool) (d : PyDict.dict V)
      (k : string) :
  In k (PyDict.keys (filter f d)) ->
  In k (PyDict.keys d) /\ exists v, f (k, v) = true.
Proof.
  unfold PyDict.keys. rewrite in_map_iff. intros ([k' v] & E & Hin).
  simpl in E. subst k'. apply filter_In in Hin. destruct Hin as [Hin Hf].
  split; [apply (in_map fst) in Hin; exact Hin | exists v; exact Hf].
Qed.

Lemma keys_firstn_In {V} (n : nat) (d : PyDict.dict V) (k : string) :
  In k (PyDict.keys (firstn n d)) -> In k (PyDict.keys d).
Proof.
  unfold PyDict.keys. rewrite <- (firstn_skipn n d) at 2.
  rewrite map_app. intros H. apply in_or_app. left. exact H.
Qed.

Lemma keys_perm_In {V} (a b : PyDict.dict V) (k : string) :
  Permutation a b -> In k (PyDict.keys a) -> In k (PyDict.keys b).
Proof.
  intros HP. apply Permutation_in. apply Permutation_map. exact HP.
Qed.

Lemma positive_items (d : PyDict.dict Z) :
  Forall (fun v => 1 <= v)%Z (PyDict.values d) <->
  Forall (fun kv => 1 <= snd kv)%Z d.
Proof. unfold PyDict.values. apply Forall_map. Qed.

(** The facts about [sorted_langs] that the chart relies on. *)
Lemma sorted_langs_facts (langs : PyDict.dict Z) :
  NoDup (PyDict.keys langs) ->
  Forall (fun v => 1 <= v)%Z (PyDict.values langs) ->
  let filtered := filter not_unknown langs in
  let sorted := sorted_by_count_desc filtered in
  dict_of_items (firstn 7 sorted) = firstn 7 sorted
  /\ (sum_values (firstn 7 sorted) + sum_values (skipn 7 sorted))%Z
     = sum_values filtered
  /\ (Z.of_nat (List.length (skipn 7 sorted))
      <= sum_values (skipn 7 sorted))%Z
  /\ List.length sorted = List.length filtered
  /\ (forall k, In k (PyDict.keys (firstn 7 sorted)) ->
                In k (PyDict.keys langs) /\ k <> "Unknown").
Proof.
  intros Hnd Hpos filtered sorted.
  pose proof (sorted_by_count_perm filtered) as HP. fold sorted in HP.
  assert (Hnd' : NoDup (PyDict.keys sorted)).
  { apply (Permutation_NoDup (l := PyDict.keys filtered)).
    - apply Permutation_map. apply Permutation_sym. exact HP.
    - apply keys_filter_NoDup. exact Hnd. }
  split; [| split; [| split; [| split]]].
  - unfold dict_of_items. rewrite fold_set_fresh; [reflexivity |].
    simpl. unfold PyDict.keys in Hnd'.
    rewrite <- (firstn_skipn 7 sorted), map_app in Hnd'.
    exact (NoDup_app_remove_r _ _ Hnd').
  - rewrite <- sum_values_app, firstn_skipn. apply sum_values_perm. exact HP.
  - apply positive_sum. apply positive_items.
    apply positive_items in Hpos.
    assert (Hs : Forall (fun kv => (1 <= snd kv)%Z) sorted).
    { apply (Permutation_Forall (Permutation_sym HP)).
      rewrite Forall_forall in *. intros kv Hkv.
      apply filter_In in Hkv. exact (Hpos kv (proj1 Hkv)). }
    rewrite <- (firstn_skipn 7 sorted) in Hs.
    apply Forall_app in Hs. exact (proj2 Hs).
  - apply Permutation_length. exact HP.
  - intros k Hk. apply keys_firstn_In in Hk.
    apply (keys_perm_In _ _ k HP) in Hk.
    apply keys_filter_In in Hk. destruct Hk as [Hin [v Hf]].
    split; [exact Hin |]. unfold not_unknown in Hf. simpl in Hf.
    intros ->. discriminate Hf.
Qed.

Lemma pie_slices_eq (t : Tree) :
  pie_slices t
  = match count_languages t [] with
    | [] => None
    | _ :: _ =>
        if (8 <? List.length (filter not_unknown (count_languages t [])))%nat
        then
          if (sum_values
                (skipn 7 (sorted_by_count_desc
                            (filter not_unknown (count_languages t []))))
              >? 0)%Z
          then Some (PyDict.set
                       (dict_of_items
                          (firstn 7 (sorted_by_count_desc
                                       (filter not_unknown
                                               (count_languages t [])))))
                       "Others"
                       (sum_values
                          (skipn 7 (sorted_by_count_desc
                                      (filter not_unknown
                                              (count_languages t []))))))
          else Some (dict_of_items
                       (firstn 7 (sorted_by_count_desc
                                    (filter not_unknown
                                            (count_languages t [])))))
        else Some (filter not_unknown (count_languages t []))
    end.
Proof. reflexivity. Qed.

(** X16.  When [_create_language_distribution] draws its chart, the chart
    has at most eight slices and none is labelled ["Unknown"]; provided no
    file of the tree has the language ["Others"], the sizes of the slices
    add up to the number of files of the tree whose language is not
    ["Unknown"]. *)
Theorem language_chart_slices (t : Tree) (slices : PyDict.dict Z) :
  pie_slices t = Some slices ->
  List.length slices <= 8
  /\ ~ In "Unknown" (PyDict.keys slices)
  /\ (files_in_language "Others" t = 0%Z ->
      sum_values slices
      = (_count_files t - files_in_language "Unknown" t)%Z).
Proof.
  destruct (count_languages_effect t []) as (Hget & Hsum & Hnd & Hpos).
  assert (Hnd' : NoDup (PyDict.keys (count_languages t [])))
    by (apply Hnd; constructor).
  assert (Hpos' : Forall (fun v => 1 <= v)%Z
                         (PyDict.values (count_languages t [])))
    by (apply Hpos; constructor).
  assert (Htotal : sum_values (filter not_unknown (count_languages t []))
                   = (_count_files t - files_in_language "Unknown" t)%Z).
  { rewrite (sum_filter_key _ Hnd'), Hsum, Hget.
    change (sum_values []) with 0%Z. change (PyDict.get [] "Unknown" 0%Z) with 0%Z.
    lia. }
  assert (Hunknown : ~ In "Unknown"
                       (PyDict.keys (filter not_unknown (count_languages t [])))).
  { intros Hin. apply keys_filter_In in Hin. destruct Hin as [_ [v Hf]].
    discriminate Hf. }
  destruct (sorted_langs_facts _ Hnd' Hpos') as (Hdict & Hsplit & Hrest & Hlen & Hkeys).
  rewrite pie_slices_eq.
  destruct (count_languages t []) as [| kv langs] eqn:El; [discriminate |].
  rewrite <- El in *. clear El kv langs.
  set (filtered := filter not_unknown (count_languages t [])) in *.
  set (sorted := sorted_by_count_desc filtered) in *.
  destruct (Nat.ltb_spec 8 (List.length filtered)) as [Hmany | Hfew].
  - rewrite Hdict.
    assert (Hskip : 1 <= List.length (skipn 7 sorted))
      by (rewrite length_skipn; lia).
    pose proof (firstn_le_length 7 sorted) as Hseven.
    set (top := firstn 7 sorted) in *. set (rest := skipn 7 sorted) in *.
    destruct (Z.gtb_spec (sum_values rest) 0) as [_ | Hzero]; [| lia].
    intros H. injection H as <-.
    pose proof (set_length_le top "Others" (sum_values rest)) as Hset.
    split; [lia |]. split.
    + intros Hin. apply keys_set_In in Hin. destruct Hin as [Hin | E].
      * destruct (Hkeys _ Hin) as [_ Hne]. apply Hne. reflexivity.
      * discriminate E.
    + intros Hothers. rewrite sum_values_set.
      assert (E : PyDict.get top "Others" 0%Z = 0%Z).
      { unfold PyDict.get.
        replace (PyDict.lookup "Others" top) with (@None Z);
          [reflexivity |].
        symmetry. apply lookup_not_In. intros Hin.
        destruct (Hkeys _ Hin) as [Hin' _].
        apply (get_absent _ "Others" Hpos'); [| exact Hin'].
        rewrite Hget, Hothers. reflexivity. }
      rewrite E. lia.
  - intros H. injection H as <-.
    split; [exact Hfew |]. split; [exact Hunknown |].
    intros _. exact Htotal.
Qed.

Lemma language_chart_slices_witness :
  List.length [("Python", 2%Z)] <= 8
  /\ ~ In "Unknown" (PyDict.keys [("Python", 2%Z)])
  /\ (files_in_language "Others" sample_tree = 0%Z ->
      sum_values [("Python", 2%Z)]
      = (_count_files sample_tree
         - files_in_language "Unknown" sample_tree)%Z).
Proof.
  apply (language_chart_slices sample_tree [("Python", 2%Z)]).
  vm_compute. reflexivity.
Defined.


Example chart_of_unknown_files :
  pie_slices [("LICENSE", FileNode "LICENSE" 5 "Unknown")] = Some [].
Proof. reflexivity. Qed.

(** ** The repository address *)

Lemma take_more_inv (continue : string -> option (list string))
      (group : bool) (s : string) (more : nat) :
  forall j groups,
    UrlRe.take_more continue group s j more = Some groups ->
    exists i rest,
      j <= i /\ i <= j + more /\ continue (PyStr.drop i s) = Some rest
      /\ groups = if group then Re.take i s :: rest else rest.
Proof.
  induction more as [| more IH]; intros j groups; cbn [UrlRe.take_more].
  - destruct (continue (PyStr.drop j s)) as [rest |] eqn:E; [| discriminate].
    intros Hg. injection Hg as <-. exists j, rest.
    split; [lia |]. split; [lia |]. split; [exact E | reflexivity].
  - destruct (continue (PyStr.drop j s)) as [rest |] eqn:E.
    + intros Hg. injection Hg as <-. exists j, rest.
      split; [lia |]. split; [lia |]. split; [exact E | reflexivity].
    + intros Hg. destruct (IH _ _ Hg) as (i & rest & H1 & H2 & Hc & Hgs).
      exists i, rest. split; [lia |]. split; [lia |]. split; assumption.
Qed.

(** A repetition that matched took [i] characters of its class, at least
    [min], and the rest of the pattern matched what follows. *)
Lemma match_many_inv (min : nat) (cls : ascii -> bool) (greedy group : bool)
      (rest : UrlRe.pattern) (s : string) (groups : list string) :
  UrlRe.match_tokens (UrlRe.Many min cls greedy group :: rest) s
  = Some groups ->
  exists i others,
    min <= i /\ i <= Re.run cls s
    /\ UrlRe.match_tokens rest (PyStr.drop i s) = Some others
    /\ groups = if group then Re.take i s :: others else others.
Proof.
  cbn [UrlRe.match_tokens]. destruct greedy.
  - intros H. destruct (give_back_inv _ _ _ _ _ _ H)
      as (i & others & Hi & Hmin & Hc & Hg).
    exists i, others. repeat split; assumption.
  - destruct (Nat.ltb_spec (Re.run cls s) min) as [| Hle]; [discriminate |].
    intros H. destruct (take_more_inv _ _ _ _ _ _ H)
      as (i & others & Hi & Hmax & Hc & Hg).
    exists i, others. split; [lia |]. split; [lia |]. split; assumption.
Qed.

Lemma prefix_split (l s : string) :
  String.prefix l s = true -> s = (l ++ PyStr.drop (String.length l) s)%string.
Proof.
  revert s. induction l as [| c l IH]; intros s; [reflexivity |].
  destruct s as [| a s]; simpl; [discriminate |].
  destruct (Ascii.ascii_dec c a) as [-> |]; [| discriminate].
  intros H. rewrite <- (IH s H). reflexivity.
Qed.

Lemma str_count_app (c : ascii) (a b : string) :
  str_count c (a ++ b) = str_count c a + str_count c b.
Proof. induction a as [| x a IH]; simpl; [| rewrite IH]; lia. Qed.

Lemma str_count_drop (c : ascii) (i : nat) (s : string) :
  str_count c (PyStr.drop i s) <= str_count c s.
Proof.
  revert s. induction i as [| i IH]; intros s; [simpl; lia |].
  destruct s as [| a s]; simpl; [lia |]. specialize (IH s). lia.
Qed.

Lemma match_needs_slashes (tokens : UrlRe.pattern) :
  forall s groups,
    UrlRe.match_tokens tokens s = Some groups ->
    needs_slashes tokens <= str_count "/" s.
Proof.
  induction tokens as [| tk rest IH]; intros s groups; [simpl; lia |].
  destruct tk as [l | min cls greedy group | l |].
  - cbn [UrlRe.match_tokens needs_slashes].
    destruct (String.prefix l s) eqn:Ep; [| discriminate].
    intros H. specialize (IH _ _ H).
    pose proof (f_equal (str_count "/") (prefix_split l s Ep)) as Hs.
    rewrite str_count_app in Hs. lia.
  - intros H. destruct (match_many_inv _ _ _ _ _ _ _ H)
      as (i & others & _ & _ & Hc & _).
    specialize (IH _ _ Hc). pose proof (str_count_drop "/" i s).
    cbn [needs_slashes]. lia.
  - cbn [UrlRe.match_tokens needs_slashes].
    destruct (String.prefix l s).
    + destruct (UrlRe.match_tokens rest (PyStr.drop (String.length l) s))
        as [gs |] eqn:E.
      * intros _. specialize (IH _ _ E).
        pose proof (str_count_drop "/" (String.length l) s). lia.
      * apply IH.
    + apply IH.
  - cbn [UrlRe.match_tokens needs_slashes].
    destruct (UrlRe.at_end s); [apply IH | discriminate].
Qed.

Lemma search_inv (tokens : UrlRe.pattern) (s : string)
      (groups : list string) :
  UrlRe.search tokens s = Some groups ->
  exists i, UrlRe.match_tokens tokens (PyStr.drop i s) = Some groups.
Proof.
  induction s as [| c s IH]; cbn [UrlRe.search].
  - destruct (UrlRe.match_tokens tokens "") eqn:E; [| discriminate].
    intros H. injection H as <-. exists 0. exact E.
  - destruct (UrlRe.match_tokens tokens (String c s)) eqn:E.
    + intros H. injection H as <-. exists 0. exact E.
    + intros H. destruct (IH H) as (i & Hi). exists (S i). exact Hi.
Qed.

Lemma search_needs_slashes (tokens : UrlRe.pattern) (s : string) :
  str_count "/" s < needs_slashes tokens -> UrlRe.search tokens s = None.
Proof.
  intros Hlt. destruct (UrlRe.search tokens s) as [groups |] eqn:E;
    [| reflexivity].
  destruct (search_inv _ _ _ E) as (i & Hi).
  pose proof (match_needs_slashes _ _ _ Hi).
  pose proof (str_count_drop "/" i s). lia.
Qed.

Lemma match_groups_slash_free (tokens : UrlRe.pattern) :
  slash_free_groups tokens ->
  forall s groups,
    UrlRe.match_tokens tokens s = Some groups ->
    Forall (fun g => g <> "" /\ str_all UrlRe.not_slash g = true) groups.
Proof.
  induction 1 as [| tk rest Htk Hrest IH]; intros s groups.
  - simpl. intros H. injection H as <-. constructor.
  - destruct tk as [l | min cls greedy group | l |].
    + cbn [UrlRe.match_tokens].
      destruct (String.prefix l s); [apply IH | discriminate].
    + intros Hm. destruct (match_many_inv _ _ _ _ _ _ _ Hm)
        as (i & others & Hmin & Hi & Hc & ->).
      specialize (IH _ _ Hc). destruct group; [| exact IH].
      destruct Htk as [Hone ->]. constructor; [| exact IH].
      destruct (take_in_run UrlRe.not_slash s i Hi) as [Hall Hlen].
      split; [| exact Hall].
      intros E. rewrite E in Hlen. simpl in Hlen. lia.
    + cbn [UrlRe.match_tokens]. destruct (String.prefix l s); [| apply IH].
      destruct (UrlRe.match_tokens rest (PyStr.drop (String.length l) s))
        as [gs |] eqn:E; [| apply IH].
      intros Hg. injection Hg as <-. exact (IH _ _ E).
    + cbn [UrlRe.match_tokens].
      destruct (UrlRe.at_end s); [apply IH | discriminate].
Qed.

Lemma url_patterns_groups :
  slash_free_groups clone_url_pattern
  /\ slash_free_groups tree_url_pattern
  /\ slash_free_groups short_pattern.
Proof. repeat split; repeat constructor. Qed.

Lemma two_groups_inv (m : option (list string)) (o r : string) :
  two_groups m = Some (o, r) ->
  exists groups others, m = Some groups /\ groups = o :: r :: others.
Proof.
  destruct m as [[| g1 [| g2 others]] |]; simpl; try discriminate.
  intros H. injection H as <- <-. exists (g1 :: g2 :: others), others.
  split; reflexivity.
Qed.

(** X18.  The owner and the repository name that [_parse_repo_url]
    returns are never empty and hold no slash, and an address that it
    accepts holds at least one slash. *)
Theorem parsed_address_parts_are_slash_free (url owner repo : string) :
  _parse_repo_url url = Some (owner, repo) ->
  (owner <> "" /\ str_all UrlRe.not_slash owner = true)
  /\ (repo <> "" /\ str_all UrlRe.not_slash repo = true)
  /\ 1 <= str_count "/" url.
Proof.
  destruct url_patterns_groups as (G1 & G2 & G3).
  assert (Hmatch : forall tokens i groups others,
             slash_free_groups tokens -> 1 <= needs_slashes tokens ->
             UrlRe.match_tokens tokens (PyStr.drop i url) = Some groups ->
             groups = owner :: repo :: others ->
             (owner <> "" /\ str_all UrlRe.not_slash owner = true)
             /\ (repo <> "" /\ str_all UrlRe.not_slash repo = true)
             /\ 1 <= str_count "/" url).
  { intros tokens i groups others Hg Hneeds Hm ->.
    pose proof (match_groups_slash_free _ Hg _ _ Hm) as HF.
    inversion HF as [| ? ? Ho HF']; subst.
    inversion HF' as [| ? ? Hr _]; subst.
    pose proof (match_needs_slashes _ _ _ Hm).
    pose proof (str_count_drop "/" i url).
    split; [exact Ho |]. split; [exact Hr | lia]. }
  unfold _parse_repo_url.
  destruct (two_groups (UrlRe.search clone_url_pattern url))
    as [[o r] |] eqn:E1.
  { intros H. injection H as -> ->.
    destruct (two_groups_inv _ _ _ E1) as (groups & others & Hs & Hg).
    destruct (search_inv _ _ _ Hs) as (i & Hi).
    apply (Hmatch clone_url_pattern i groups others G1); [simpl; lia | |];
      assumption. }
  destruct (two_groups (UrlRe.search tree_url_pattern url))
    as [[o r] |] eqn:E2.
  { intros H. injection H as -> ->.
    destruct (two_groups_inv _ _ _ E2) as (groups & others & Hs & Hg).
    destruct (search_inv _ _ _ Hs) as (i & Hi).
    apply (Hmatch tree_url_pattern i groups others G2); [simpl; lia | |];
      assumption. }
  intros H.
  destruct (two_groups_inv _ _ _ H) as (groups & others & Hs & Hg).
  apply (Hmatch short_pattern 0 groups others G3); [simpl; lia | |];
    assumption.
Qed.

Lemma parsed_address_parts_are_slash_free_witness :
  ("octo" <> "" /\ str_all UrlRe.not_slash "octo" = true)
  /\ ("cat" <> "" /\ str_all UrlRe.not_slash "cat" = true)
  /\ 1 <= str_count "/" "https://github.com/octo/cat.git".
Proof.
  apply (parsed_address_parts_are_slash_free
           "https://github.com/octo/cat.git" "octo" "cat").
  vm_compute. reflexivity.
Defined.

Lemma app_assoc_string (a b c : string) :
  ((a ++ b) ++ c = a ++ (b ++ c))%string.
Proof. induction a as [| x a IH]; simpl; [| rewrite IH]; reflexivity. Qed.

Lemma app_empty_r (a : string) : (a ++ "" = a)%string.
Proof. induction a as [| x a IH]; simpl; [| rewrite IH]; reflexivity. Qed.

Lemma slash_free_count (s : string) :
  str_all UrlRe.not_slash s = true -> str_count "/" s = 0.
Proof.
  induction s as [| c s IH]; simpl; [reflexivity |].
  unfold UrlRe.not_slash at 1. destruct (Ascii.eqb c "/"); simpl;
    [discriminate | exact IH].
Qed.

Lemma count_slash_free (s : string) :
  str_count "/" s = 0 -> str_all UrlRe.not_slash s = true.
Proof.
  induction s as [| c s IH]; simpl; [reflexivity |].
  unfold UrlRe.not_slash at 1. destruct (Ascii.eqb c "/"); simpl;
    [lia | exact IH].
Qed.

Lemma url_greedy_app (min : nat) (cls : ascii -> bool) (group : bool)
      (rest : UrlRe.pattern) (a b : string) (groups : list string) :
  str_all cls a = true -> stops cls b = true -> min <= String.length a ->
  UrlRe.match_tokens rest b = Some groups ->
  UrlRe.match_tokens (UrlRe.Many min cls true group :: rest) (a ++ b)
  = Some (if group then a :: groups else groups).
Proof.
  intros Ha Hb Hmin Hr. cbn [UrlRe.match_tokens].
  rewrite (run_app cls a b Ha Hb).
  rewrite (give_back_first (UrlRe.match_tokens rest) min group (a ++ b)
             (String.length a) groups Hmin).
  - rewrite take_app. reflexivity.
  - rewrite drop_app. exact Hr.
Qed.

Lemma url_lit_app (l : string) (rest : UrlRe.pattern) (b : string)
      (groups : list string) :
  UrlRe.match_tokens rest b = Some groups ->
  UrlRe.match_tokens (UrlRe.Lit l :: rest) (l ++ b) = Some groups.
Proof.
  intros Hr. cbn [UrlRe.match_tokens].
  rewrite prefix_app, drop_app. exact Hr.
Qed.

(** X19.  The shorthand [owner/repo], both parts non-empty and free of
    slashes, is split at its slash. *)
Theorem shorthand_address_is_split (owner repo : string) :
  owner <> "" -> repo <> "" ->
  str_all UrlRe.not_slash owner = true ->
  str_all UrlRe.not_slash repo = true ->
  _parse_repo_url (owner ++ "/" ++ repo) = Some (owner, repo).
Proof.
  intros Ho Hr So Sr.
  assert (Hcount : str_count "/" (owner ++ "/" ++ repo) = 1).
  { rewrite !str_count_app, (slash_free_count _ So), (slash_free_count _ Sr).
    reflexivity. }
  unfold _parse_repo_url.
  rewrite (search_needs_slashes clone_url_pattern)
    by (rewrite Hcount; simpl; lia).
  rewrite (search_needs_slashes tree_url_pattern)
    by (rewrite Hcount; simpl; lia).
  cbn [two_groups]. unfold short_pattern.
  rewrite (url_greedy_app 1 UrlRe.not_slash true _ owner ("/" ++ repo)
             [repo] So eq_refl (nonempty_length _ Ho)); [reflexivity |].
  apply url_lit_app.
  rewrite <- (app_empty_r repo) at 1.
  apply (url_greedy_app 1 UrlRe.not_slash true [UrlRe.End] repo "" []
           Sr eq_refl (nonempty_length _ Hr)).
  reflexivity.
Qed.

Lemma shorthand_address_is_split_witness :
  _parse_repo_url "octo/cat" = Some ("octo", "cat").
Proof.
  apply (shorthand_address_is_split "octo" "cat");
    first [discriminate | reflexivity].
Defined.

Lemma take_drop (i : nat) (s : string) :
  s = (Re.take i s ++ PyStr.drop i s)%string.
Proof.
  revert s. induction i as [| i IH]; intros s; [destruct s; reflexivity |].
  destruct s as [| c s]; simpl; [reflexivity |]. rewrite <- IH. reflexivity.
Qed.

Lemma length_drop (i : nat) (s : string) :
  String.length (PyStr.drop i s) = String.length s - i.
Proof.
  revert s. induction i as [| i IH]; intros s; [simpl; lia |].
  destruct s as [| c s]; simpl; [reflexivity | apply IH].
Qed.

Lemma length_take (i : nat) (s : string) :
  i <= String.length s -> String.length (Re.take i s) = i.
Proof.
  revert s. induction i as [| i IH]; intros s; [destruct s; reflexivity |].
  destruct s as [| c s]; simpl; [lia |]. intros H. rewrite IH; lia.
Qed.

Lemma drop_app_le (i : nat) (a b : string) :
  i <= String.length a ->
  PyStr.drop i (a ++ b) = (PyStr.drop i a ++ b)%string.
Proof.
  revert a. induction i as [| i IH]; intros a; [reflexivity |].
  destruct a as [| c a]; simpl; [lia |]. intros H. apply IH. lia.
Qed.

Lemma str_all_app (cls : ascii -> bool) (a b : string) :
  str_all cls (a ++ b) = str_all cls a && str_all cls b.
Proof.
  induction a as [| c a IH]; simpl; [reflexivity |].
  rewrite IH, andb_assoc. reflexivity.
Qed.

Lemma run_ge_app (cls : ascii -> bool) (a b : string) :
  str_all cls a = true -> String.length a <= Re.run cls (a ++ b).
Proof.
  induction a as [| c a IH]; simpl; [lia |].
  destruct (cls c); simpl; [| discriminate]. intros H. specialize (IH H). lia.
Qed.

Lemma endswith_app (p x : string) : PyStr.endswith (p ++ x) x = true.
Proof.
  unfold PyStr.endswith. rewrite length_app_string.
  replace (String.length p + String.length x - String.length x)
    with (String.length p) by lia.
  rewrite drop_app, String.eqb_refl, andb_true_r.
  apply Nat.leb_le. lia.
Qed.

Lemma take_more_first (continue : string -> option (list string))
      (group : bool) (s : string) (k : nat) (rest : list string) :
  continue (PyStr.drop k s) = Some rest ->
  forall more j,
    j <= k -> k <= j + more ->
    (forall i, j <= i -> i < k -> continue (PyStr.drop i s) = None) ->
    UrlRe.take_more continue group s j more
    = Some (if group then Re.take k s :: rest else rest).
Proof.
  intros Hk. induction more as [| more IH]; intros j Hj Hmax Hnone.
  - assert (j = k) as -> by lia. cbn [UrlRe.take_more]. rewrite Hk.
    reflexivity.
  - cbn [UrlRe.take_more].
    destruct (Nat.eq_dec j k) as [-> | Hne]; [rewrite Hk; reflexivity |].
    rewrite (Hnone j) by lia. apply IH; [lia | lia |].
    intros i Hi Hik. apply Hnone; lia.
Qed.

(** A lazy repetition reads the whole of [a] when the rest of the pattern
    matches after [a] and after no shorter part of it. *)
Lemma url_lazy_app (min : nat) (cls : ascii -> bool) (group : bool)
      (rest : UrlRe.pattern) (a b : string) (groups : list string) :
  str_all cls a = true -> min <= String.length a ->
  UrlRe.match_tokens rest b = Some groups ->
  (forall p d, a = (p ++ d)%string -> min <= String.length p -> d <> "" ->
               UrlRe.match_tokens rest (d ++ b) = None) ->
  UrlRe.match_tokens (UrlRe.Many min cls false group :: rest) (a ++ b)
  = Some (if group then a :: groups else groups).
Proof.
  intros Ha Hmin Hr Hnone. cbn [UrlRe.match_tokens].
  pose proof (run_ge_app cls a b Ha) as Hrun.
  destruct (Nat.ltb_spec (Re.run cls (a ++ b)) min) as [Hlt | _]; [lia |].
  rewrite (take_more_first (UrlRe.match_tokens rest) group (a ++ b)
             (String.length a) groups).
  - rewrite take_app. reflexivity.
  - rewrite drop_app. exact Hr.
  - exact Hmin.
  - lia.
  - intros i Hi Hlt. rewrite drop_app_le by lia.
    apply (Hnone (Re.take i a) (PyStr.drop i a)).
    + apply take_drop.
    + rewrite length_take; lia.
    + intros E. pose proof (length_drop i a) as HL. rewrite E in HL.
      simpl in HL. lia.
Qed.

Lemma lit_inv (l : string) (rest : UrlRe.pattern) (x : string)
      (groups : list string) :
  UrlRe.match_tokens (UrlRe.Lit l :: rest) x = Some groups ->
  exists x', x = (l ++ x')%string /\ UrlRe.match_tokens rest x' = Some groups.
Proof.
  cbn [UrlRe.match_tokens].
  destruct (String.prefix l x) eqn:Ep; [| discriminate].
  intros H. exists (PyStr.drop (String.length l) x).
  split; [apply prefix_split; exact Ep | exact H].
Qed.

Lemma opt_inv (l : string) (rest : UrlRe.pattern) (x : string)
      (groups : list string) :
  UrlRe.match_tokens (UrlRe.Opt l :: rest) x = Some groups ->
  (exists x', x = (l ++ x')%string
              /\ UrlRe.match_tokens rest x' = Some groups)
  \/ UrlRe.match_tokens rest x = Some groups.
Proof.
  cbn [UrlRe.match_tokens].
  destruct (String.prefix l x) eqn:Ep; [| intros H; right; exact H].
  destruct (UrlRe.match_tokens rest (PyStr.drop (String.length l) x))
    as [gs |] eqn:E; [| intros H; right; exact H].
  intros H. injection H as <-. left.
  exists (PyStr.drop (String.length l) x).
  split; [apply prefix_split; exact Ep | exact E].
Qed.

Lemma end_inv (x : string) (groups : list string) :
  UrlRe.match_tokens [UrlRe.End] x = Some groups ->
  groups = [] /\ (x = "" \/ x = String newline "").
Proof.
  cbn [UrlRe.match_tokens]. unfold UrlRe.at_end.
  destruct (String.eqb_spec x "") as [-> | _].
  - simpl. intros H. injection H as <-. split; [reflexivity | left].
    reflexivity.
  - destruct (String.eqb_spec x (String newline "")) as [-> | _];
      simpl; [| discriminate].
    intros H. injection H as <-. split; [reflexivity | right]. reflexivity.
Qed.

Lemma ending_inv (e : string) (groups : list string) :
  UrlRe.match_tokens ending_pattern e = Some groups ->
  groups = [] /\ url_ending e.
Proof.
  assert (Hslash : forall x gs,
             UrlRe.match_tokens [UrlRe.Opt "/"; UrlRe.End] x = Some gs ->
             gs = [] /\ exists s n, x = (s ++ n)%string
                                    /\ (s = "" \/ s = "/")
                                    /\ (n = "" \/ n = String newline "")).
  { intros x gs H. destruct (opt_inv _ _ _ _ H) as [(x' & -> & H') | H'];
      destruct (end_inv _ _ H') as [-> Hn]; (split; [reflexivity |]).
    - exists "/", x'. split; [reflexivity |]. split; [right |]; auto.
    - exists "", x. split; [reflexivity |]. split; [left |]; auto. }
  intros H. unfold ending_pattern in H.
  destruct (opt_inv _ _ _ _ H) as [(x' & -> & H') | H'];
    destruct (Hslash _ _ H') as (-> & s & n & Hx & Hs & Hn);
    (split; [reflexivity |]).
  - exists ".git", s, n. rewrite Hx. split; [reflexivity |].
    split; [right; reflexivity |]. split; assumption.
  - exists "", s, n. split; [exact Hx |].
    split; [left; reflexivity |]. split; assumption.
Qed.

(** What the first pattern reads: the literal, an owner, a slash, a name
    and an ending. *)
Lemma clone_match_structure (t : string) (groups : list string) :
  UrlRe.match_tokens clone_url_pattern t = Some groups ->
  exists o n e,
    t = ("github.com/" ++ o ++ "/" ++ n ++ e)%string
    /\ str_all UrlRe.not_slash o = true
    /\ str_all UrlRe.not_slash n = true
    /\ url_ending e.
Proof.
  unfold clone_url_pattern. intros H.
  destruct (lit_inv _ _ _ _ H) as (t1 & -> & H1).
  destruct (match_many_inv _ _ _ _ _ _ _ H1)
    as (i & gs1 & _ & Hi & H2 & _).
  destruct (lit_inv _ _ _ _ H2) as (t2 & E2 & H3).
  destruct (match_many_inv _ _ _ _ _ _ _ H3)
    as (k & gs2 & _ & Hk & H4 & _).
  destruct (ending_inv _ _ H4) as [_ He].
  exists (Re.take i t1), (Re.take k t2), (PyStr.drop k t2).
  split; [| split; [apply take_in_run; exact Hi
                   | split; [apply take_in_run; exact Hk | exact He]]].
  rewrite <- (take_drop k t2), <- E2, <- (take_drop i t1). reflexivity.
Qed.

Lemma first_slash_inj (a b x y : string) :
  str_count "/" a = 0 -> str_count "/" b = 0 ->
  (a ++ String "/" x = b ++ String "/" y)%string -> a = b /\ x = y.
Proof.
  revert b. induction a as [| c a IH]; intros [| c' b]; simpl.
  - intros _ _ H. injection H as <-. split; reflexivity.
  - intros _ Hb H. injection H as <- _. simpl in Hb. lia.
  - intros Ha _ H. injection H as -> _. simpl in Ha. lia.
  - intros Ha Hb H. injection H as <- H.
    destruct (IH b) as [-> ->]; [lia | lia | exact H |].
    split; reflexivity.
Qed.

Lemma last_slash_inj (x y a b : string) :
  str_count "/" a = 0 -> str_count "/" b = 0 ->
  (x ++ String "/" a = y ++ String "/" b)%string -> x = y /\ a = b.
Proof.
  intros Ha Hb. revert y. induction x as [| c x IH]; intros [| c' y]; simpl.
  - intros H. injection H as <-. split; reflexivity.
  - intros H. injection H as _ H. rewrite H, str_count_app in Ha.
    simpl in Ha. lia.
  - intros H. injection H as _ H. rewrite <- H, str_count_app in Hb.
    simpl in Hb. lia.
  - intros H. injection H as <- H. destruct (IH y H) as [-> ->].
    split; reflexivity.
Qed.

Lemma url_ending_slashes (e : string) :
  url_ending e ->
  (str_count "/" e = 0)
  \/ (exists g n, e = (g ++ String "/" n)%string
                  /\ (g = "" \/ g = ".git")
                  /\ (n = "" \/ n = String newline "")).
Proof.
  intros (g & s & n & -> & Hg & [-> | ->] & Hn).
  - left. destruct Hg as [-> | ->], Hn as [-> | ->]; reflexivity.
  - right. exists g, n. split; [reflexivity |]. split; assumption.
Qed.

(** The first pattern does not match where something precedes the
    literal of a well-formed address. *)
Lemma no_earlier_match (w owner name tail : string) :
  w <> "" -> str_all UrlRe.not_slash name = true ->
  (name ++ tail)%string <> "" ->
  (name ++ tail)%string <> String newline "" ->
  UrlRe.match_tokens clone_url_pattern
    (w ++ "github.com/" ++ owner ++ "/" ++ name ++ tail) = None.
Proof.
  intros Hw Sn Hne Hnl.
  destruct (UrlRe.match_tokens clone_url_pattern
              (w ++ "github.com/" ++ owner ++ "/" ++ name ++ tail))
    as [groups |] eqn:E; [exfalso | reflexivity].
  destruct (clone_match_structure _ _ E) as (o & n & e & Ht & So & Sn' & He).
  pose proof (f_equal (str_count "/") Ht) as Hc.
  rewrite !str_count_app in Hc.
  rewrite (slash_free_count _ So), (slash_free_count _ Sn'),
    (slash_free_count _ Sn) in Hc.
  change (str_count "/" "github.com/") with 1 in Hc.
  change (str_count "/" "/") with 1 in Hc.
  destruct (Nat.eq_dec (str_count "/" w) 0) as [Hw0 | Hw1].
  - assert (H1 : (("github.com" ++ String "/" (o ++ "/" ++ n ++ e))
                  = ((w ++ "github.com")
                       ++ String "/" (owner ++ "/" ++ name ++ tail)))%string).
    { rewrite app_assoc_string. symmetry. exact Ht. }
    apply first_slash_inj in H1;
      [| reflexivity | rewrite str_count_app, Hw0; reflexivity].
    destruct H1 as [H1 _]. apply (f_equal String.length) in H1.
    rewrite length_app_string in H1. simpl in H1.
    apply Hw. destruct w; [reflexivity | simpl in H1; lia].
  - destruct (url_ending_slashes e He) as [He0 | (g & nl & -> & Hg & Hnl')].
    + lia.
    + assert (Htail : str_count "/" (name ++ tail) = 0).
      { rewrite str_count_app in Hc. simpl in Hc.
        rewrite str_count_app, (slash_free_count _ Sn).
        assert (str_count "/" g = 0) by (destruct Hg as [-> | ->]; reflexivity).
        assert (str_count "/" nl = 0)
          by (destruct Hnl' as [-> | ->]; reflexivity).
        lia. }
      assert (H1 : ((("github.com/" ++ o ++ "/" ++ n ++ g) ++ String "/" nl)
                    = ((w ++ "github.com/" ++ owner)
                         ++ String "/" (name ++ tail)))%string).
      { rewrite !app_assoc_string. symmetry. exact Ht. }
      apply last_slash_inj in H1;
        [| destruct Hnl' as [-> | ->]; reflexivity | exact Htail].
      destruct H1 as [_ H1]. destruct Hnl' as [-> | ->];
        [apply Hne | apply Hnl]; symmetry; exact H1.
Qed.

Lemma search_skip (tokens : UrlRe.pattern) (a b : string) :
  (forall i, i < String.length a ->
             UrlRe.match_tokens tokens (PyStr.drop i (a ++ b)) = None) ->
  UrlRe.search tokens (a ++ b) = UrlRe.search tokens b.
Proof.
  induction a as [| c a IH]; intros H; [reflexivity |].
  pose proof (H 0 ltac:(simpl; lia)) as H0. cbn [PyStr.drop] in H0.
  simpl append in *. cbn [UrlRe.search]. rewrite H0. apply IH.
  intros i Hi. apply (H (S i)). simpl. lia.
Qed.

Lemma search_here (tokens : UrlRe.pattern) (s : string)
      (groups : list string) :
  UrlRe.match_tokens tokens s = Some groups ->
  UrlRe.search tokens s = Some groups.
Proof. intros H. destruct s; cbn [UrlRe.search]; rewrite H; reflexivity. Qed.

(** An address [... github.com/owner/name tail] is read as owner and
    name when the ending of the pattern reads [tail] and reads nothing
    that starts inside the name. *)
Lemma clone_address (before owner name tail : string) :
  owner <> "" -> name <> "" ->
  str_all UrlRe.not_slash owner = true ->
  str_all UrlRe.not_slash name = true ->
  (name ++ tail)%string <> String newline "" ->
  UrlRe.match_tokens ending_pattern tail = Some [] ->
  (forall p d, name = (p ++ d)%string -> 1 <= String.length p -> d <> "" ->
               UrlRe.match_tokens ending_pattern (d ++ tail) = None) ->
  _parse_repo_url (before ++ "github.com/" ++ owner ++ "/" ++ name ++ tail)
  = Some (owner, name).
Proof.
  intros Ho Hn So Sn Hnl Htail Hearly.
  assert (Hne : (name ++ tail)%string <> "").
  { destruct name; [contradiction | discriminate]. }
  unfold _parse_repo_url. rewrite search_skip.
  - rewrite (search_here clone_url_pattern _ [owner; name]); [reflexivity |].
    unfold clone_url_pattern. apply url_lit_app.
    apply (url_greedy_app 1 UrlRe.not_slash true _ owner
             ("/" ++ name ++ tail) [name] So eq_refl (nonempty_length _ Ho)).
    apply url_lit_app.
    apply (url_lazy_app 1 UrlRe.not_slash true ending_pattern name tail []
             Sn (nonempty_length _ Hn) Htail Hearly).
  - intros i Hi. rewrite drop_app_le by lia.
    apply no_earlier_match; try assumption.
    intros E. pose proof (length_drop i before) as HL. rewrite E in HL.
    simpl in HL. lia.
Qed.

(** X20.  An address that ends in [.git], with or without a final slash,
    is read as the owner and the name before [.git], whatever precedes
    [github.com/]. *)
Theorem address_with_git_suffix (before owner name slash : string) :
  owner <> "" -> name <> "" ->
  str_all UrlRe.not_slash owner = true ->
  str_all UrlRe.not_slash name = true ->
  slash = "" \/ slash = "/" ->
  _parse_repo_url
    (before ++ "github.com/" ++ owner ++ "/" ++ name ++ ".git" ++ slash)
  = Some (owner, name).
Proof.
  intros Ho Hn So Sn Hslash.
  apply (clone_address before owner name (".git" ++ slash) Ho Hn So Sn).
  - intros E. apply (f_equal String.length) in E.
    rewrite length_app_string in E. simpl in E. lia.
  - destruct Hslash as [-> | ->]; reflexivity.
  - intros p d Hname Hp Hd.
    destruct (UrlRe.match_tokens ending_pattern (d ++ ".git" ++ slash))
      as [gs |] eqn:E; [exfalso | reflexivity].
    destruct (ending_inv _ _ E) as [_ He].
    assert (Sd : str_count "/" d = 0).
    { apply slash_free_count. rewrite Hname, str_all_app in Sn.
      apply andb_true_iff in Sn. apply Sn. }
    pose proof (nonempty_length _ Hd) as Ld.
    destruct (url_ending_slashes _ He) as [He0 | (g & nl & He1 & Hg & Hnl)].
    + destruct He as (g & s & n & He & Hg & Hs & Hn').
      destruct Hslash as [-> | ->].
      * pose proof (f_equal String.length He) as HL.
        rewrite !length_app_string in HL.
        destruct Hg as [-> | ->], Hs as [-> | ->], Hn' as [-> | ->];
          simpl in HL; try lia;
          destruct d as [| c1 [| c2 [| c3 d]]]; simpl in HL; try lia;
          simpl in He; discriminate He.
      * rewrite !str_count_app in He0. simpl in He0. lia.
    + destruct Hslash as [-> | ->].
      * apply (f_equal (str_count "/")) in He1.
        rewrite !str_count_app, Sd in He1. simpl in He1. lia.
      * assert (H1 : ((d ++ ".git") ++ String "/" ""
                      = g ++ String "/" nl)%string).
        { rewrite app_assoc_string. exact He1. }
        apply last_slash_inj in H1;
          [| reflexivity | destruct Hnl as [-> | ->]; reflexivity].
        destruct H1 as [H1 _]. apply (f_equal String.length) in H1.
        rewrite length_app_string in H1.
        destruct Hg as [-> | ->]; simpl in H1; lia.
Qed.

Lemma address_with_git_suffix_witness :
  _parse_repo_url "https://github.com/octo/cat.git" = Some ("octo", "cat").
Proof.
  apply (address_with_git_suffix "https://" "octo" "cat" "");
    first [discriminate | reflexivity | left; reflexivity].
Defined.

(** X21.  An address without [.git], with or without a final slash, is
    read as the owner and the whole name, provided the name ends neither
    in [.git] nor in a newline. *)
Theorem address_without_git_suffix (before owner name slash : string) :
  owner <> "" -> name <> "" ->
  str_all UrlRe.not_slash owner = true ->
  str_all UrlRe.not_slash name = true ->
  PyStr.endswith name ".git" = false ->
  PyStr.endswith name (String newline "") = false ->
  slash = "" \/ slash = "/" ->
  _parse_repo_url (before ++ "github.com/" ++ owner ++ "/" ++ name ++ slash)
  = Some (owner, name).
Proof.
  intros Ho Hn So Sn Hgit Hnl Hslash.
  apply (clone_address before owner name slash Ho Hn So Sn).
  - intros E. destruct Hslash as [-> | ->].
    + rewrite app_empty_r in E. rewrite E in Hnl. discriminate Hnl.
    + apply (f_equal String.length) in E. rewrite length_app_string in E.
      pose proof (nonempty_length _ Hn). simpl in E. lia.
  - destruct Hslash as [-> | ->]; reflexivity.
  - intros p d Hname Hp Hd.
    destruct (UrlRe.match_tokens ending_pattern (d ++ slash))
      as [gs |] eqn:E; [exfalso | reflexivity].
    destruct (ending_inv _ _ E) as [_ He].
    assert (Sd : str_count "/" d = 0).
    { apply slash_free_count. rewrite Hname, str_all_app in Sn.
      apply andb_true_iff in Sn. apply Sn. }
    assert (Hends : forall x, (d ++ "")%string = x ->
                              PyStr.endswith name x = true).
    { intros x <-. rewrite app_empty_r, Hname. apply endswith_app. }
    assert (Hends' : forall x y, d = (x ++ y)%string ->
                                 PyStr.endswith name y = true).
    { intros x y ->. rewrite Hname, <- app_assoc_string.
      apply endswith_app. }
    destruct (url_ending_slashes _ He) as [He0 | (g & nl & He1 & Hg & Hnl')].
    + destruct Hslash as [-> | ->].
      * destruct He as (g & s & n & He & Hg & Hs & Hn').
        rewrite app_empty_r in He.
        destruct Hs as [-> | ->];
          [| rewrite He, !str_count_app in Sd; simpl in Sd; lia].
        destruct Hg as [-> | ->], Hn' as [-> | ->]; simpl in He.
        -- contradiction.
        -- rewrite (Hends' "" _ He) in Hnl. discriminate.
        -- rewrite (Hends' "" _ He) in Hgit. discriminate.
        -- rewrite (Hends' ".git" (String newline "") He) in Hnl.
           discriminate.
      * rewrite str_count_app in He0. simpl in He0. lia.
    + destruct Hslash as [-> | ->].
      * apply (f_equal (str_count "/")) in He1.
        rewrite !str_count_app, Sd in He1. simpl in He1. lia.
      * assert (H1 : (d ++ String "/" "" = g ++ String "/" nl)%string)
          by exact He1.
        apply last_slash_inj in H1;
          [| reflexivity | destruct Hnl' as [-> | ->]; reflexivity].
        destruct H1 as [H1 _]. destruct Hg as [-> | ->].
        -- contradiction.
        -- rewrite (Hends' "" _ H1) in Hgit. discriminate.
Qed.

Lemma address_without_git_suffix_witness :
  _parse_repo_url "https://github.com/octo/cat/" = Some ("octo", "cat").
Proof.
  apply (address_without_git_suffix "https://" "octo" "cat" "/");
    first [discriminate | reflexivity | right; reflexivity].
Defined.

(** ** The contributors *)

Lemma existsb_eqb_In (x : string) (s : list string) :
  existsb (String.eqb x) s = true <-> In x s.
Proof.
  rewrite existsb_exists. split.
  - intros (y & Hy & E). apply String.eqb_eq in E. subst y. exact Hy.
  - intros H. exists x. split; [exact H | apply String.eqb_refl].
Qed.

Lemma set_add_In (s : list string) (x y : string) :
  In y (set_add s x) <-> In y s \/ y = x.
Proof.
  unfold set_add. destruct (existsb (String.eqb x) s) eqn:E.
  - apply existsb_eqb_In in E. split; [auto |].
    intros [H | ->]; assumption.
  - rewrite in_app_iff. simpl. split.
    + intros [H | [<- | []]]; auto.
    + intros [H | ->]; auto.
Qed.

Lemma set_add_NoDup (s : list string) (x : string) :
  NoDup s -> NoDup (set_add s x).
Proof.
  intros ND. unfold set_add.
  destruct (existsb (String.eqb x) s) eqn:E; [exact ND |].
  assert (Hx : ~ In x s).
  { intros H. apply existsb_eqb_In in H. congruence. }
  apply NoDup_rev in ND. rewrite <- (rev_involutive (s ++ [x])).
  apply NoDup_rev. rewrite rev_app_distr. simpl. constructor; [| exact ND].
  rewrite <- in_rev. exact Hx.
Qed.

Lemma fold_set_add_In (xs : list string) :
  forall s y, In y (fold_left set_add xs s) <-> In y s \/ In y xs.
Proof.
  induction xs as [| x xs IH]; intros s y; simpl; [tauto |].
  rewrite IH, set_add_In. split.
  - intros [[H | ->] | H]; auto.
  - intros [H | [<- | H]]; auto.
Qed.

Lemma fold_set_add_NoDup (xs : list string) :
  forall s, NoDup s -> NoDup (fold_left set_add xs s).
Proof.
  induction xs as [| x xs IH]; intros s ND; simpl; [exact ND |].
  apply IH, set_add_NoDup, ND.
Qed.

Lemma set_of_length (xs : list string) :
  List.length (set_of xs) = List.length (nodup string_dec xs).
Proof.
  apply Permutation_length, NoDup_Permutation.
  - apply fold_set_add_NoDup. constructor.
  - apply NoDup_nodup.
  - intros y. unfold set_of. rewrite nodup_In, fold_set_add_In. simpl. tauto.
Qed.

Lemma keys_incr (d : PyDict.dict Z) (x : string) :
  PyDict.keys (incr d x) = set_add (PyDict.keys d) x.
Proof.
  unfold incr, set_add.
  destruct (existsb (String.eqb x) (PyDict.keys d)) eqn:E.
  - apply keys_set. apply existsb_eqb_In. exact E.
  - rewrite set_fresh.
    + unfold PyDict.keys. rewrite map_app. reflexivity.
    + intros H. apply existsb_eqb_In in H. congruence.
Qed.

Lemma keys_Counter (xs : list string) : PyDict.keys (Counter xs) = set_of xs.
Proof.
  unfold Counter, set_of. change (@nil string) with (PyDict.keys (@nil (string * Z))).
  generalize (@nil (string * Z)) as d.
  induction xs as [| x xs IH]; intros d; simpl; [reflexivity |].
  rewrite IH, keys_incr. reflexivity.
Qed.

Lemma get_fold_incr (xs : list string) :
  forall d k,
    PyDict.get (fold_left incr xs d) k 0%Z
    = (PyDict.get d k 0 + Z.of_nat (count_occ string_dec xs k))%Z.
Proof.
  induction xs as [| x xs IH]; intros d k; cbn [fold_left count_occ].
  - simpl. lia.
  - rewrite IH, get_incr.
    destruct (string_dec x k) as [-> | Hne].
    + rewrite String.eqb_refl. lia.
    + destruct (String.eqb_spec x k); [contradiction | lia].
Qed.

Lemma Counter_entry (xs : list string) (f : string) (n : Z) :
  In (f, n) (Counter xs) ->
  n = Z.of_nat (count_occ string_dec xs f) /\ In f xs.
Proof.
  intros H.
  assert (ND : NoDup (PyDict.keys (Counter xs))).
  { rewrite keys_Counter. apply fold_set_add_NoDup. constructor. }
  pose proof (In_lookup _ _ _ ND H) as HL.
  pose proof (get_fold_incr xs [] f) as HG. fold (Counter xs) in HG.
  unfold PyDict.get in HG. rewrite HL in HG. simpl in HG.
  split; [exact HG |].
  assert (Hk : In f (PyDict.keys (Counter xs))).
  { apply in_map_iff. exists (f, n). split; [reflexivity | exact H]. }
  rewrite keys_Counter in Hk. apply fold_set_add_In in Hk.
  destruct Hk as [[] | Hk]. exact Hk.
Qed.

Lemma insert_desc_sorted (x : string * Z) (l : list (string * Z)) :
  StronglySorted by_count_desc l ->
  StronglySorted by_count_desc (insert_desc x l).
Proof.
  induction l as [| y l IH]; intros HS; cbn [insert_desc].
  - constructor; constructor.
  - inversion HS as [| ? ? HS' HF]; subst.
    destruct (Z.leb_spec (snd y) (snd x)) as [Hle | Hlt].
    + constructor; [exact HS |]. constructor; [exact Hle |].
      eapply Forall_impl; [| exact HF].
      intros z Hz. unfold by_count_desc in *. lia.
    + constructor; [apply IH; exact HS' |].
      apply (Permutation_Forall (Permutation_sym (insert_desc_perm x l))).
      constructor; [unfold by_count_desc; lia | exact HF].
Qed.

Lemma sorted_by_count_sorted (l : list (string * Z)) :
  StronglySorted by_count_desc (sorted_by_count_desc l).
Proof.
  induction l as [| x l IH]; simpl; [constructor |].
  apply insert_desc_sorted, IH.
Qed.

Lemma sorted_app {A} (R : A -> A -> Prop) (a b : list A) :
  StronglySorted R (a ++ b) ->
  StronglySorted R a /\ forall x y, In x a -> In y b -> R x y.
Proof.
  induction a as [| z a IH]; simpl; intros HS.
  - split; [constructor | intros x y []].
  - inversion HS as [| ? ? HS' HF]; subst. destruct (IH HS') as [Ha Hab].
    rewrite Forall_forall in HF. split.
    + constructor; [exact Ha |]. apply Forall_forall.
      intros y Hy. apply HF, in_or_app. left. exact Hy.
    + intros x y [<- | Hx] Hy; [| apply Hab; assumption].
      apply HF, in_or_app. right. exact Hy.
Qed.

(** What [Counter(xs).most_common(n)] holds. *)
Lemma most_common_facts (n : nat) (xs : list string) :
  let top := most_common n (Counter xs) in
  List.length top = Nat.min n (List.length (nodup string_dec xs))
  /\ NoDup (map fst top)
  /\ StronglySorted by_count_desc top
  /\ (forall f c, In (f, c) top ->
                  In f xs /\ c = Z.of_nat (count_occ string_dec xs f))
  /\ (forall f, In f xs -> ~ In f (map fst top) ->
                forall g c, In (g, c) top ->
                            (Z.of_nat (count_occ string_dec xs f) <= c)%Z).
Proof.
  unfold most_common.
  pose proof (sorted_by_count_perm (Counter xs)) as HP.
  pose proof (sorted_by_count_sorted (Counter xs)) as HS.
  set (s := sorted_by_count_desc (Counter xs)) in *.
  pose proof (firstn_skipn n s) as Hsplit.
  assert (ND : NoDup (PyDict.keys (Counter xs))).
  { rewrite keys_Counter. apply fold_set_add_NoDup. constructor. }
  assert (Hin : forall x, In x (firstn n s) -> In x (Counter xs)).
  { intros x Hx. apply (Permutation_in _ HP). rewrite <- Hsplit.
    apply in_or_app. left. exact Hx. }
  rewrite <- Hsplit in HS. destruct (sorted_app _ _ _ HS) as [Htop Hle].
  cbv zeta. split; [| split; [| split; [exact Htop | split]]].
  - rewrite length_firstn, (Permutation_length HP).
    rewrite <- set_of_length, <- keys_Counter. unfold PyDict.keys.
    rewrite length_map. reflexivity.
  - assert (ND' : NoDup (map fst s)).
    { apply (Permutation_NoDup (Permutation_map fst (Permutation_sym HP))).
      exact ND. }
    rewrite <- Hsplit, map_app in ND'.
    apply NoDup_app_remove_r in ND'. exact ND'.
  - intros f c H. destruct (Counter_entry xs f c (Hin _ H)) as [-> Hf].
    split; [exact Hf | reflexivity].
  - intros f Hf Hout g c Hg.
    assert (Hk : In f (PyDict.keys (Counter xs))).
    { rewrite keys_Counter. apply fold_set_add_In. right. exact Hf. }
    apply in_map_iff in Hk. destruct Hk as ([f' v] & Ef & Hv).
    simpl in Ef. subst f'.
    destruct (Counter_entry xs f v Hv) as [Ev _]. rewrite <- Ev.
    apply (Permutation_in _ (Permutation_sym HP)) in Hv.
    rewrite <- Hsplit in Hv. apply in_app_or in Hv. destruct Hv as [Hv | Hv].
    + exfalso. apply Hout. apply in_map_iff. exists (f, v).
      split; [reflexivity | exact Hv].
    + exact (Hle (g, c) (f, v) Hg Hv).
Qed.

Lemma contributor_entry_inv (data : PyDict.dict (list string))
      (c : Contributor) (l : string) (st : ContributorStats) :
  contributor_entry data c = Ret (l, st) ->
  contributor_login c = Ret l
  /\ contributor_contributions c = Ret (contributions st)
  /\ files_owned st = Z.of_nat (List.length (set_of (PyDict.get data l [])))
  /\ primary_files st = most_common 5 (Counter (PyDict.get data l [])).
Proof.
  unfold contributor_entry.
  destruct (contributor_contributions c) as [n | e]; [| discriminate].
  destruct (contributor_login c) as [l' | e]; [| discriminate].
  intros H. injection H as -> <-. repeat split.
Qed.

Lemma collect_stats_inv (data : PyDict.dict (list string))
      (cs : list Contributor) :
  forall stats0 stats,
    collect_stats data cs stats0 = Ret stats ->
    (forall c, In c cs ->
               exists l st, contributor_entry data c = Ret (l, st)
                            /\ In l (PyDict.keys stats))
    /\ (forall l st, In (l, st) stats ->
                     In (l, st) stats0
                     \/ exists c, In c cs
                                  /\ contributor_entry data c = Ret (l, st))
    /\ (forall l, In l (PyDict.keys stats0) -> In l (PyDict.keys stats))
    /\ List.length stats <= List.length stats0 + List.length cs
    /\ (NoDup (PyDict.keys stats0) -> NoDup (PyDict.keys stats)).
Proof.
  induction cs as [| c cs IH]; intros stats0 stats; cbn [collect_stats].
  - intros H. injection H as <-.
    split; [intros c [] |]. split; [auto |]. split; [auto |].
    split; [lia | auto].
  - destruct (contributor_entry data c) as [[l st] | e] eqn:E;
      [| discriminate].
    intros H. destruct (IH _ _ H) as (H1 & H2 & H3 & H4 & H5).
    split; [| split; [| split; [| split]]].
    + intros c' [<- | Hc'].
      * exists l, st. split; [exact E |]. apply H3, keys_set_In.
        right. reflexivity.
      * apply H1. exact Hc'.
    + intros l' st' Hin. destruct (H2 _ _ Hin) as [Hs | (c' & Hc' & Ec')].
      * destruct (In_set _ _ _ _ _ Hs) as [Hs0 | [-> ->]]; [left; exact Hs0 |].
        right. exists c. split; [left; reflexivity | exact E].
      * right. exists c'. split; [right; exact Hc' | exact Ec'].
    + intros l' Hl'. apply H3, keys_set_In. left. exact Hl'.
    + pose proof (set_length_le stats0 l st). simpl. lia.
    + intros ND. apply H5, keys_set_NoDup, ND.
Qed.

Lemma stats_entry_origin (get_contributors : result (list Contributor))
      (data : PyDict.dict (list string))
      (stats : PyDict.dict ContributorStats)
      (l : string) (st : ContributorStats) :
  _analyze_contributors get_contributors data = Ret stats ->
  PyDict.lookup l stats = Some st ->
  files_owned st = Z.of_nat (List.length (set_of (PyDict.get data l [])))
  /\ primary_files st = most_common 5 (Counter (PyDict.get data l [])).
Proof.
  unfold _analyze_contributors. intros H Hl.
  assert (Hc : exists cs, collect_stats data cs [] = Ret stats).
  { destruct get_contributors as [contributors | e]; cbn [bindR] in H.
    - destruct (collect_stats data (firstn 20 contributors) [])
        as [stats' | e] eqn:E.
      + injection H as <-. exists (firstn 20 contributors). exact E.
      + destruct (is_Exception e); [| discriminate].
        injection H as <-. discriminate Hl.
    - destruct (is_Exception e); [| discriminate].
      injection H as <-. discriminate Hl. }
  destruct Hc as (cs & E).
  destruct (collect_stats_inv _ _ _ _ E) as (_ & H2 & _).
  apply lookup_In in Hl. destruct (H2 _ _ Hl) as [[] | (c & _ & Ec)].
  destruct (contributor_entry_inv _ _ _ _ Ec) as (_ & _ & Ho & Hp).
  split; assumption.
Qed.

Lemma get_length_le_total (d : PyDict.dict (list string)) (l : string) :
  List.length (PyDict.get d l []) <= total_length d.
Proof.
  unfold PyDict.get, total_length, PyDict.values.
  induction d as [| [k v] d IH]; simpl; [lia |].
  destruct (String.eqb l k); lia.
Qed.

Lemma history_file_total (commits : list Commit) (h h' : History)
      (r : result unit) :
  _analyze_commit_history (Ret commits) h = (h', r) ->
  total_length (contributor_data h')
  <= total_length (contributor_data h) + 1000.
Proof.
  unfold _analyze_commit_history.
  match goal with
  | |- context [analyze_commits (firstn 100 commits) ?h0] =>
      destruct (analyze_commits_caps (firstn 100 commits) h0) as [Hc Hraise];
      destruct (analyze_commits (firstn 100 commits) h0) as [h1 [u | e]]
  end; cbn [fst snd] in Hc, Hraise.
  - intros H. injection H as <- _.
    destruct Hc as (T & A & F & C & L).
    cbn [commit_data contributor_data authors total_commits file_changes
             commit_frequency fst snd] in *.
    rewrite length_firstn in *.
    change (sum_values []) with 0%Z in *. lia.
  - rewrite (Hraise e eq_refl). intros H. injection H as <- _.
    destruct Hc as (T & A & F & C & L).
    cbn [commit_data contributor_data authors total_commits file_changes
             commit_frequency fst snd] in *.
    rewrite length_firstn in *.
    change (sum_values []) with 0%Z in *. lia.
Qed.

Lemma reads_fine_entry (data : PyDict.dict (list string)) (c : Contributor) :
  reads_fine c -> exists l st, contributor_entry data c = Ret (l, st).
Proof.
  intros (l & n & Hl & Hn). unfold contributor_entry. rewrite Hn, Hl.
  eexists. eexists. reflexivity.
Qed.

Lemma read_fails_entry (data : PyDict.dict (list string)) (c : Contributor)
      (e : exn) :
  read_fails c e -> contributor_entry data c = Raise e.
Proof.
  unfold contributor_entry. intros [Hc | [[n Hn] Hl]].
  - rewrite Hc. reflexivity.
  - rewrite Hn, Hl. reflexivity.
Qed.

Lemma collect_stats_total (data : PyDict.dict (list string))
      (cs : list Contributor) :
  Forall reads_fine cs ->
  forall stats0, exists stats, collect_stats data cs stats0 = Ret stats.
Proof.
  induction 1 as [| c cs Hc _ IH]; intros stats0; cbn [collect_stats].
  - exists stats0. reflexivity.
  - destruct (reads_fine_entry data c Hc) as (l & st & ->). apply IH.
Qed.

Lemma collect_stats_first_failure (data : PyDict.dict (list string))
      (before : list Contributor) (c : Contributor)
      (after : list Contributor) (e : exn) :
  Forall reads_fine before -> read_fails c e ->
  forall stats0, collect_stats data (before ++ c :: after) stats0 = Raise e.
Proof.
  intros Hb Hc. induction Hb as [| c' before Hc' _ IH]; intros stats0;
    cbn [collect_stats app].
  - rewrite (read_fails_entry data c e Hc). reflexivity.
  - destruct (reads_fine_entry data c' Hc') as (l & st & ->). apply IH.
Qed.

(** X22.  [_analyze_contributors] is all or nothing.  When the listing
    and every read of the first twenty contributors succeed, it returns
    and the statistics hold exactly the logins of these contributors, at
    most twenty distinct keys, each with the contributions of a
    contributor of that login.  When the listing raises, or a read of one
    of the first twenty contributors raises after the earlier ones were
    read, the statistics are empty if the exception is an [Exception],
    and otherwise the exception leaves the method. *)
Theorem contributor_stats_all_or_nothing
        (get_contributors : result (list Contributor))
        (data : PyDict.dict (list string)) :
  match get_contributors with
  | Raise e =>
      _analyze_contributors get_contributors data
      = if is_Exception e then Ret [] else Raise e
  | Ret contributors =>
      (Forall reads_fine (firstn 20 contributors) ->
       exists stats,
         _analyze_contributors get_contributors data = Ret stats
         /\ List.length stats <= 20 /\ NoDup (PyDict.keys stats)
         /\ (forall l, In l (PyDict.keys stats)
                       <-> exists c, In c (firstn 20 contributors)
                                     /\ contributor_login c = Ret l)
         /\ (forall l st,
                PyDict.lookup l stats = Some st ->
                exists c, In c (firstn 20 contributors)
                          /\ contributor_login c = Ret l
                          /\ contributor_contributions c
                             = Ret (contributions st)))
      /\ (forall before c after e,
             firstn 20 contributors = before ++ c :: after ->
             Forall reads_fine before -> read_fails c e ->
             _analyze_contributors get_contributors data
             = if is_Exception e then Ret [] else Raise e)
  end.
Proof.
  unfold _analyze_contributors.
  destruct get_contributors as [contributors | e]; cbn [bindR];
    [| reflexivity].
  split.
  - intros Hfine.
    destruct (collect_stats_total data _ Hfine []) as (stats & E).
    rewrite E. exists stats. split; [reflexivity |].
    destruct (collect_stats_inv _ _ _ _ E) as (H1 & H2 & _ & H4 & H5).
    split; [| split; [apply H5; constructor | split]].
    + rewrite length_firstn in H4. cbn [List.length] in H4. lia.
    + intros l. split.
      * intros Hl. apply in_map_iff in Hl. destruct Hl as ([l' st] & El & Hin).
        simpl in El. subst l'.
        destruct (H2 _ _ Hin) as [[] | (c & Hc & Ec)].
        destruct (contributor_entry_inv _ _ _ _ Ec) as (L & _).
        exists c. split; assumption.
      * intros (c & Hc & L). destruct (H1 c Hc) as (l' & st & Ec & Hl').
        destruct (contributor_entry_inv _ _ _ _ Ec) as (L' & _).
        rewrite L in L'. injection L' as ->. exact Hl'.
    + intros l st Hl. apply lookup_In in Hl.
      destruct (H2 _ _ Hl) as [[] | (c & Hc & Ec)].
      destruct (contributor_entry_inv _ _ _ _ Ec) as (L & C & _).
      exists c. repeat split; assumption.
  - intros before c after e -> Hb Hc.
    rewrite (collect_stats_first_failure data before c after e Hb Hc).
    reflexivity.
Qed.

Lemma contributor_stats_all_or_nothing_witness :
  (exists stats,
      _analyze_contributors (Ret sample_contributors) sample_contributor_data
      = Ret stats
      /\ List.length stats <= 20 /\ NoDup (PyDict.keys stats)
      /\ (forall l, In l (PyDict.keys stats)
                    <-> exists c, In c (firstn 20 sample_contributors)
                                  /\ contributor_login c = Ret l)
      /\ (forall l st,
             PyDict.lookup l stats = Some st ->
             exists c, In c (firstn 20 sample_contributors)
                       /\ contributor_login c = Ret l
                       /\ contributor_contributions c
                          = Ret (contributions st)))
  /\ _analyze_contributors (Ret failing_contributors) sample_contributor_data
     = Ret [].
Proof.
  split.
  - apply (contributor_stats_all_or_nothing
             (Ret sample_contributors) sample_contributor_data).
    repeat constructor; eexists; eexists; split; reflexivity.
  - apply (proj2 (contributor_stats_all_or_nothing
                    (Ret failing_contributors) sample_contributor_data)
             [mkContributor (Ret "ann") (Ret 40%Z)]
             (mkContributor (Raise GithubException) (Ret 1%Z))
             [mkContributor (Ret "bob") (Ret 2%Z)]
             GithubException).
    + reflexivity.
    + repeat constructor; eexists; eexists; split; reflexivity.
    + right. split; [exists 1%Z |]; reflexivity.
Defined.

(** X23.  The figures stored for a login are those of the files that
    [contributor_data] holds for it: [files_owned] is the number of
    distinct file names; [primary_files] lists five of them (all, when
    there are fewer), each once with its number of occurrences, the
    greater count first, and no file left out occurs more often than a
    file listed. *)
Theorem contributor_figures
        (get_contributors : result (list Contributor))
        (data : PyDict.dict (list string))
        (stats : PyDict.dict ContributorStats)
        (l : string) (st : ContributorStats) :
  _analyze_contributors get_contributors data = Ret stats ->
  PyDict.lookup l stats = Some st ->
  let files := PyDict.get data l [] in
  let distinct := List.length (nodup string_dec files) in
  files_owned st = Z.of_nat distinct
  /\ List.length (primary_files st) = Nat.min 5 distinct
  /\ NoDup (map fst (primary_files st))
  /\ StronglySorted by_count_desc (primary_files st)
  /\ (forall f c, In (f, c) (primary_files st) ->
                  In f files /\ c = Z.of_nat (count_occ string_dec files f))
  /\ (forall f, In f files -> ~ In f (map fst (primary_files st)) ->
                forall g c, In (g, c) (primary_files st) ->
                            (Z.of_nat (count_occ string_dec files f) <= c)%Z).
Proof.
  intros H Hl. destruct (stats_entry_origin _ _ _ _ _ H Hl) as [Ho Hp].
  cbv zeta. rewrite Ho, Hp, set_of_length.
  split; [reflexivity |]. apply most_common_facts.
Qed.

Lemma contributor_figures_witness :
  let st := mkContributorStats
              40 6 [("a.py", 3%Z); ("b.py", 1%Z); ("c.py", 1%Z);
                    ("d.py", 1%Z); ("e.py", 1%Z)] in
  let files := PyDict.get sample_contributor_data "ann" [] in
  let distinct := List.length (nodup string_dec files) in
  files_owned st = Z.of_nat distinct
  /\ List.length (primary_files st) = Nat.min 5 distinct
  /\ NoDup (map fst (primary_files st))
  /\ StronglySorted by_count_desc (primary_files st)
  /\ (forall f c, In (f, c) (primary_files st) ->
                  In f files /\ c = Z.of_nat (count_occ string_dec files f))
  /\ (forall f, In f files -> ~ In f (map fst (primary_files st)) ->
                forall g c, In (g, c) (primary_files st) ->
                            (Z.of_nat (count_occ string_dec files f) <= c)%Z).
Proof.
  apply (contributor_figures (Ret sample_contributors)
           sample_contributor_data
           [("ann", mkContributorStats
                      40 6 [("a.py", 3%Z); ("b.py", 1%Z); ("c.py", 1%Z);
                            ("d.py", 1%Z); ("e.py", 1%Z)]);
            ("bob", mkContributorStats 2 1 [("b.py", 1%Z)])]
           "ann").
  - vm_compute. reflexivity.
  - vm_compute. reflexivity.
Defined.

(** X24.  After [_analyze_commit_history], which reads at most ten files
    of at most a hundred commits, no login is credited by
    [_analyze_contributors] with more than a thousand files beyond those
    that [contributor_data] held before, and no file of [primary_files]
    with more occurrences than that. *)
Theorem owned_files_bounded_by_history
        (commits : list Commit) (h h' : History) (r : result unit)
        (get_contributors : result (list Contributor))
        (stats : PyDict.dict ContributorStats)
        (l : string) (st : ContributorStats) :
  _analyze_commit_history (Ret commits) h = (h', r) ->
  _analyze_contributors get_contributors (contributor_data h') = Ret stats ->
  PyDict.lookup l stats = Some st ->
  (0 <= files_owned st
   <= Z.of_nat (total_length (contributor_data h)) + 1000)%Z
  /\ (forall f c, In (f, c) (primary_files st) ->
                  (1 <= c
                   <= Z.of_nat (total_length (contributor_data h)) + 1000)%Z).
Proof.
  intros Hh H Hl. destruct (stats_entry_origin _ _ _ _ _ H Hl) as [Ho Hp].
  pose proof (history_file_total _ _ _ _ Hh) as Htotal.
  pose proof (get_length_le_total (contributor_data h') l) as Hlen.
  set (files := PyDict.get (contributor_data h') l []) in *.
  split.
  - rewrite Ho, set_of_length.
    assert (List.length (nodup string_dec files) <= List.length files).
    { apply NoDup_incl_length; [apply NoDup_nodup |].
      intros x Hx. apply nodup_In in Hx. exact Hx. }
    lia.
  - intros f c Hin. rewrite Hp in Hin.
    destruct (most_common_facts 5 files) as (_ & _ & _ & Hentry & _).
    destruct (Hentry f c Hin) as [Hf ->].
    pose proof (count_occ_bound string_dec f files).
    apply (count_occ_In string_dec) in Hf. lia.
Qed.

Lemma owned_files_bounded_by_history_witness :
  (0 <= 10 <= Z.of_nat (total_length (contributor_data fresh_history)) + 1000)%Z
  /\ (forall f c,
         In (f, c) [("f01", 1%Z); ("f02", 1%Z); ("f03", 1%Z); ("f04", 1%Z);
                    ("f05", 1%Z)] ->
         (1 <= c
          <= Z.of_nat (total_length (contributor_data fresh_history)) + 1000)%Z).
Proof.
  apply (owned_files_bounded_by_history
           sample_commits fresh_history
           (fst (_analyze_commit_history (Ret sample_commits) fresh_history))
           (snd (_analyze_commit_history (Ret sample_commits) fresh_history))
           (Ret sample_contributors)
           [("ann", mkContributorStats
                      40 10 [("f01", 1%Z); ("f02", 1%Z); ("f03", 1%Z);
                             ("f04", 1%Z); ("f05", 1%Z)]);
            ("bob", mkContributorStats 2 0 [])]
           "ann"
           (mkContributorStats
              40 10 [("f01", 1%Z); ("f02", 1%Z); ("f03", 1%Z);
                     ("f04", 1%Z); ("f05", 1%Z)])).
  - vm_compute. reflexivity.
  - vm_compute. reflexivity.
  - vm_compute. reflexivity.
Defined.
